(** * Gritto backend: budget, conflict and session rules

    A shallow embedding of the request handlers of the Gritto backend
    (Express / Firestore, TypeScript) and of the repositories and services
    they call, followed by the properties of the hour budget, the task date
    conflict rule, the context builder and the agent session life cycle.

    Conventions of the embedding.
    - A JS [number] is an exact rational ([Q]).  Where a handler adds two
      numbers for a budget check or for the next iteration, or takes a
      number from the agent as it comes, the value is a [JsNum]: a sum is
      the nearest double, and may be an infinity.
    - A string is the sequence of its UTF-8 bytes.
    - An ISO timestamp is the number of milliseconds since the epoch and an
      ISO calendar day ['YYYY-MM-DD'] is the number of days since the epoch:
      both renderings are monotone, so the string comparisons of the source
      are the integer comparisons here.  The process time zone is UTC.
    - A Firestore collection keyed by document id is a [gmap string _];
      a collection that is only queried is a list in query order.
    - Every handler runs in the monad [M]: it reads the environment of the
      request (clock, generated ids, the external agent), threads the
      document store and may throw.  A throw does not roll the store back. *)

From Stdlib Require Import ZArith QArith Qround Qminmax String Ascii List.
From Stdlib Require Import Sorted Permutation Lia Lqa.
From stdpp Require Import base option list gmap strings.

Set Warnings "-register-all".
Close Scope Q_scope.
Open Scope string_scope.
Open Scope list_scope.
Open Scope Z_scope.

(** ** JavaScript values *)

(** A value decoded from JSON by [express.json()], or [undefined] for a
    property that is not there.  A number is the exact value of the double
    that the decoder produced. *)
Inductive jsval : Type :=
| JUndefined
| JNull
| JBool (b : bool)
| JNum (q : Q)
| JStr (s : string)
| JArr (xs : list jsval)
| JObj (fields : list (string * jsval)).

(** [v === undefined] *)
Definition is_undefined (v : jsval) : bool :=
  match v with JUndefined => true | _ => false end.

(** [v == null]: the operands that [??] and [?.] skip. *)
Definition is_nullish (v : jsval) : bool :=
  match v with JUndefined | JNull => true | _ => false end.

(** [a ?? b] *)
Definition nullish_or (a b : jsval) : jsval :=
  if is_nullish a then b else a.

(** Truthiness of a value in a condition. *)
Definition truthy (v : jsval) : bool :=
  match v with
  | JUndefined | JNull => false
  | JBool b => b
  | JNum q => negb (Qeq_bool q 0%Q)
  | JStr s => negb (String.eqb s "")
  | JArr _ | JObj _ => true
  end.

(** [typeof v === 'object'] *)
Definition typeof_object (v : jsval) : bool :=
  match v with JNull | JArr _ | JObj _ => true | _ => false end.

Fixpoint assoc_get (fields : list (string * jsval)) (k : string) : jsval :=
  match fields with
  | [] => JUndefined
  | (k', v) :: rest =>
      match assoc_get rest k with
      | JUndefined => if String.eqb k' k then v else JUndefined
      | later => later
      end
  end.

(** [v?.k]: the property [k] of an object, [undefined] elsewhere. *)
Definition js_get (v : jsval) (k : string) : jsval :=
  match v with
  | JObj fields => assoc_get fields k
  | _ => JUndefined
  end.

(** A string is the sequence of its UTF-8 bytes. *)
Definition byte (c : ascii) : Z := Z.of_N (N_of_ascii c).

(** The white space and the line terminators that [String.prototype.trim]
    removes, by the length of their UTF-8 encoding.  One byte: U+0009 to
    U+000D and U+0020. *)
Definition is_space1 (a : Z) : bool :=
  (9 <=? a) && (a <=? 13) || (a =? 32).

(** Two bytes: U+00A0. *)
Definition is_space2 (a b : Z) : bool :=
  (a =? 0xC2) && (b =? 0xA0).

(** Three bytes: U+1680, U+2000 to U+200A, U+2028, U+2029, U+202F, U+205F,
    U+3000 and U+FEFF. *)
Definition is_space3 (a b c : Z) : bool :=
  (a =? 0xE1) && (b =? 0x9A) && (c =? 0x80)
  || (a =? 0xE2) && (b =? 0x80)
     && ((0x80 <=? c) && (c <=? 0x8A)
         || (c =? 0xA8) || (c =? 0xA9) || (c =? 0xAF))
  || (a =? 0xE2) && (b =? 0x81) && (c =? 0x9F)
  || (a =? 0xE3) && (b =? 0x80) && (c =? 0x80)
  || (a =? 0xEF) && (b =? 0xBB) && (c =? 0xBF).

(** [strip backwards s] removes the white space at the front of [s]; with
    [backwards] the bytes of [s], and so of each character, come last
    byte first. *)
Fixpoint strip (backwards : bool) (s : string) : string :=
  match s with
  | EmptyString => s
  | String a rest =>
      if is_space1 (byte a) then strip backwards rest
      else
        match rest with
        | EmptyString => s
        | String b rest2 =>
            if (if backwards then is_space2 (byte b) (byte a)
                else is_space2 (byte a) (byte b))
            then strip backwards rest2
            else
              match rest2 with
              | EmptyString => s
              | String c rest3 =>
                  if (if backwards then is_space3 (byte c) (byte b) (byte a)
                      else is_space3 (byte a) (byte b) (byte c))
                  then strip backwards rest3
                  else s
              end
        end
  end.

Definition trim_start (s : string) : string := strip false s.

Fixpoint string_rev (s acc : string) : string :=
  match s with
  | EmptyString => acc
  | String c rest => string_rev rest (String c acc)
  end.

Definition trim_end (s : string) : string :=
  string_rev (strip true (string_rev s "")) "".

(** [s.trim()] *)
Definition trim (s : string) : string := trim_end (trim_start s).

(** [typeof v === 'string' && v.trim().length > 0] *)
Definition nonblank_string (v : jsval) : option string :=
  match v with
  | JStr s =>
      if (0 <? Z.of_nat (String.length (trim s)))%Z then Some s else None
  | _ => None
  end.

(** ** Numbers *)

Definition num_le (a b : Q) : bool := Qle_bool a b.
Definition num_lt (a b : Q) : bool := negb (Qle_bool b a).

(** [Math.max(a, b)] *)
Definition Math_max (a b : Q) : Q := if num_le a b then b else a.

(** [Number.isInteger(q)] *)
Definition isInteger (q : Q) : bool := Qeq_bool (inject_Z (Qfloor q)) q.

(** *** Double precision

    A number that a handler computes by addition, or that comes from
    outside with no check of its own, is a value of the JS type [number]:
    a finite number, an infinity or [NaN].  A sum is rounded to the
    nearest double, to the one with the even significand of two that are
    equally near (IEEE 754 binary64, round to nearest, ties to even). *)

Inductive JsNum : Type :=
| Finite (q : Q)
| PosInfinity
| NegInfinity
| NaN.

Coercion Finite : Q >-> JsNum.

Definition integer (z : Z) : JsNum := Finite (inject_Z z).

Coercion integer : Z >-> JsNum.

(** The integer nearest to [n / d], for [0 < d]; of two that are equally
    near, the even one. *)
Definition round_half_even (n d : Z) : Z :=
  let below := n / d in
  match 2 * (n mod d) ?= d with
  | Lt => below
  | Gt => below + 1
  | Eq => if Z.even below then below else below + 1
  end.

(** The exponent [e] with [2 ^ e <= n / d < 2 ^ (e + 1)], for positive [n]
    and [d]. *)
Definition ilog2 (n d : Z) : Z :=
  let k := Z.log2 n - Z.log2 d in
  if (if 0 <=? k then d * 2 ^ k <=? n else d <=? n * 2 ^ (- k))
  then k else k - 1.

(** The double nearest to [n / d], for positive [n] and [d].  Around
    [n / d] the doubles are [2 ^ k] apart: 52 binary places below the
    leading bit, and [2 ^ -1074] apart below [2 ^ -1022].  A result of
    [2 ^ 1024] or more is [Infinity]. *)
Definition nearestDouble (n d : Z) : JsNum :=
  let e := Z.max (ilog2 n d) (-1022) in
  let k := e - 52 in
  if 0 <=? k
  then
    let m := round_half_even n (d * 2 ^ k) in
    if 2 ^ 1024 <=? m * 2 ^ k then PosInfinity
    else Finite (Qred (inject_Z (m * 2 ^ k)))
  else
    let m := round_half_even (n * 2 ^ (- k)) d in
    Finite (Qred (Qmake m (Z.to_pos (2 ^ (- k))))).

(** [-x] *)
Definition js_neg (x : JsNum) : JsNum :=
  match x with
  | Finite q => Finite (Qopp q)
  | PosInfinity => NegInfinity
  | NegInfinity => PosInfinity
  | NaN => NaN
  end.

(** The double nearest to a rational. *)
Definition round64 (q : Q) : JsNum :=
  match Qnum q with
  | 0 => Finite 0%Q
  | Z.pos n => nearestDouble (Z.pos n) (Z.pos (Qden q))
  | Z.neg n => js_neg (nearestDouble (Z.pos n) (Z.pos (Qden q)))
  end.

(** [a + b]: on doubles, the sum of IEEE 754. *)
Definition js_add (a b : JsNum) : JsNum :=
  match a, b with
  | NaN, _ | _, NaN => NaN
  | PosInfinity, NegInfinity | NegInfinity, PosInfinity => NaN
  | PosInfinity, _ | _, PosInfinity => PosInfinity
  | NegInfinity, _ | _, NegInfinity => NegInfinity
  | Finite x, Finite y => round64 (Qplus x y)
  end.

(** [a <= b] *)
Definition js_le (a b : JsNum) : bool :=
  match a, b with
  | NaN, _ | _, NaN => false
  | Finite x, Finite y => num_le x y
  | NegInfinity, _ => true
  | _, PosInfinity => true
  | _, _ => false
  end.

(** [a < b] *)
Definition js_lt (a b : JsNum) : bool :=
  match a, b with
  | NaN, _ | _, NaN => false
  | Finite x, Finite y => num_lt x y
  | NegInfinity, (Finite _ | PosInfinity) => true
  | Finite _, PosInfinity => true
  | _, _ => false
  end.

(** [2 ^ k], for any integer [k]. *)
Definition pow2 (k : Z) : Q :=
  if 0 <=? k then inject_Z (2 ^ k) else 1 # Z.to_pos (2 ^ (- k)).

(** [isDouble q]: the rational [q] is a finite double, [m * 2 ^ k] for an
    integer [m] of magnitude below [2 ^ 53] and an exponent [k] from
    [-1074] to [971].  The numbers that JSON and the store hand to a
    handler are doubles. *)
Definition isDouble (q : Q) : Prop :=
  exists m k : Z,
    Z.abs m < 2 ^ 53 /\ - 1074 <= k <= 971 /\ (q == inject_Z m * pow2 k)%Q.

(** A value of the type [number] other than [NaN]. *)
Definition isOrdered (x : JsNum) : Prop :=
  match x with
  | Finite q => isDouble q
  | PosInfinity | NegInfinity => True
  | NaN => False
  end.

(** ** Time *)

Definition Timestamp := Z.
Definition Day := Z.

Definition MS_PER_DAY : Z := 86400000.

(** [t.toISOString().slice(0, 10)] *)
Definition isoDay (t : Timestamp) : Day := t / MS_PER_DAY.

(** [d.setDate(d.getDate() + n)] *)
Definition addDays (t : Timestamp) (n : Z) : Timestamp := t + n * MS_PER_DAY.

(** ** Errors ([errors.ts]) *)

(** A template literal: text with interpolated numbers. *)
Inductive msg_part : Type :=
| Txt (s : string)
| Num (x : JsNum).

Record GoalSummary : Type := {
  gs_goalId : string;
  gs_title : string;
  gs_weeklyHours : Q;
}.

(** The [details] argument of [ApiError], one shape per call site. *)
Inductive ErrorDetails : Type :=
| NoDetails
| BudgetDetails (availableHoursPerWeek : Q) (requiredHoursPerWeek : JsNum)
    (conflictingGoals : list GoalSummary)
| TaskConflictDetails (conflictingTaskIds : list string).

Record ApiError : Type := {
  status : Z;
  message : list msg_part;
  details : ErrorDetails;
}.

(** What a handler can throw: an [ApiError], or anything else (a store
    failure), which the boundary turns into a 500. *)
Inductive Failure : Type :=
| Api (e : ApiError)
| Untyped (what : string).

Inductive Result (A : Type) : Type :=
| Ok (a : A)
| Throw (f : Failure).
Arguments Ok {A} a.
Arguments Throw {A} f.

(** The error-handling middleware at the end of the route table. *)
Definition errorBoundary (f : Failure) : ApiError :=
  match f with
  | Api e => e
  | Untyped _ =>
      {| status := 500; message := [Txt "Internal server error."];
         details := NoDetails |}
  end.

(** ** Records ([types/models]) and stored documents *)

Inductive GoalStatus : Type := active | completed | paused | archived.

Definition GoalStatus_eqb (a b : GoalStatus) : bool :=
  match a, b with
  | active, active | completed, completed
  | paused, paused | archived, archived => true
  | _, _ => false
  end.

(** A [User] document; a field that [mapUser] defaults may be absent. *)
Record UserDoc : Type := {
  ud_email : string;
  ud_name : option string;
  ud_profileImageUrl : option string;
  ud_timezone : option string;
  ud_availableHoursPerWeek : option Q;
  ud_createdAt : Timestamp;
  ud_updatedAt : Timestamp;
  ud_googleSub : option string;
}.

Record UserRecord : Type := {
  user_id : string;
  user_email : string;
  user_name : string;
  user_profileImageUrl : option string;
  user_timezone : string;
  user_availableHoursPerWeek : Q;
  user_createdAt : Timestamp;
  user_updatedAt : Timestamp;
  user_googleSub : string;
}.

Record GoalRecord : Type := {
  goal_id : string;
  goal_userId : string;
  goal_title : string;
  goal_description : option string;
  goal_status : GoalStatus;
  goal_minHoursPerWeek : Q;
  goal_priority : Q;
  goal_color : option Q;
  goal_createdAt : Timestamp;
  goal_updatedAt : Timestamp;
}.

Record MilestoneRecord : Type := {
  ms_id : string;
  ms_goalId : string;
}.

Record TaskRecord : Type := {
  task_id : string;
  task_goalId : string;
  task_milestoneId : string;
  task_userId : string;
  task_title : string;
  task_description : option string;
  task_date : Day;
  task_estimatedHours : Q;
  task_done : bool;
  task_createdAt : Timestamp;
  task_updatedAt : Timestamp;
}.

(** A [SessionState] document; a field that [mapSession] defaults may be
    absent. *)
Record SessionDoc : Type := {
  sd_userId : string;
  sd_chatId : string;
  sd_state : option string;
  sd_iteration : option JsNum;
  sd_goalPreviewId : option string;
  sd_sessionActive : option bool;
  sd_context : option jsval;
  sd_createdAt : Timestamp;
  sd_updatedAt : Timestamp;
}.

Record SessionStateRecord : Type := {
  session_id : string;
  session_userId : string;
  session_chatId : string;
  session_state : string;
  session_iteration : JsNum;
  session_goalPreviewId : option string;
  session_sessionActive : bool;
  session_context : jsval;
  session_createdAt : Timestamp;
  session_updatedAt : Timestamp;
}.

Record ChatDoc : Type := {
  chat_userId : string;
  chat_createdAt : Timestamp;
  chat_updatedAt : Timestamp;
}.

Inductive Sender : Type := sender_user | sender_agent.

Record ChatMessageDoc : Type := {
  cm_chatId : string;
  cm_sessionId : string;
  cm_sender : Sender;
  cm_message : string;
  cm_createdAt : Timestamp;
}.

Record GoalPreviewRecord : Type := {
  gp_id : string;
  gp_userId : string;
  gp_sessionId : string;
  gp_data : jsval;
  gp_createdAt : Timestamp;
  gp_updatedAt : Timestamp;
}.

(** ** The agent contract ([agentService.ts], [types/models]) *)

Record AgentStatePayload : Type := {
  st_state : string;
  st_iteration : JsNum;
  st_sessionActive : bool;
  st_goalPreviewId : option string;
}.

Record AgentServiceRequest : Type := {
  rq_sessionId : string;
  rq_userId : string;
  rq_message : string;
  rq_context : jsval;
  rq_state : AgentStatePayload;
}.

Record AgentAction : Type := {
  act_type : string;
  act_payload : jsval;
}.

(** The [state] object of a reply; [None] is a field the agent omitted
    (or sent as [null]). *)
Record AgentStateReply : Type := {
  rs_state : option string;
  rs_iteration : option JsNum;
  rs_sessionActive : option bool;
  rs_goalPreviewId : option string;
}.

Record AgentServiceResponse : Type := {
  rp_reply : string;
  rp_action : option AgentAction;
  rp_state : option AgentStateReply;
  rp_context : option jsval;
}.

(** What [fetch] and the decoding of its body can do. *)
Inductive FetchOutcome : Type :=
| FetchFailed
| FetchNotOk (httpStatus : Z) (text : string)
| FetchBadJson
| FetchOk (data : AgentServiceResponse).

(** ** The document store and the agent service

    The world outside a handler: the collections of the store and, in
    [agentCalls], the requests sent to the agent service so far, in the
    order in which they were sent. *)

Record World : Type := {
  users : gmap string UserDoc;
  goals : list GoalRecord;
  milestones : list MilestoneRecord;
  tasks : list TaskRecord;
  sessions : gmap string SessionDoc;
  chats : gmap string ChatDoc;
  chatMessages : list ChatMessageDoc;
  previews : gmap string GoalPreviewRecord;
  agentCalls : list AgentServiceRequest;
}.

Definition set_users (f : gmap string UserDoc -> gmap string UserDoc)
    (w : World) : World :=
  {| users := f (users w); goals := goals w; milestones := milestones w;
     tasks := tasks w; sessions := sessions w; chats := chats w;
     chatMessages := chatMessages w; previews := previews w;
     agentCalls := agentCalls w |}.

Definition set_goals (f : list GoalRecord -> list GoalRecord)
    (w : World) : World :=
  {| users := users w; goals := f (goals w); milestones := milestones w;
     tasks := tasks w; sessions := sessions w; chats := chats w;
     chatMessages := chatMessages w; previews := previews w;
     agentCalls := agentCalls w |}.

Definition set_tasks (f : list TaskRecord -> list TaskRecord)
    (w : World) : World :=
  {| users := users w; goals := goals w; milestones := milestones w;
     tasks := f (tasks w); sessions := sessions w; chats := chats w;
     chatMessages := chatMessages w; previews := previews w;
     agentCalls := agentCalls w |}.

Definition set_sessions (f : gmap string SessionDoc -> gmap string SessionDoc)
    (w : World) : World :=
  {| users := users w; goals := goals w; milestones := milestones w;
     tasks := tasks w; sessions := f (sessions w); chats := chats w;
     chatMessages := chatMessages w; previews := previews w;
     agentCalls := agentCalls w |}.

Definition set_chats (f : gmap string ChatDoc -> gmap string ChatDoc)
    (w : World) : World :=
  {| users := users w; goals := goals w; milestones := milestones w;
     tasks := tasks w; sessions := sessions w; chats := f (chats w);
     chatMessages := chatMessages w; previews := previews w;
     agentCalls := agentCalls w |}.

Definition set_chatMessages
    (f : list ChatMessageDoc -> list ChatMessageDoc) (w : World) : World :=
  {| users := users w; goals := goals w; milestones := milestones w;
     tasks := tasks w; sessions := sessions w; chats := chats w;
     chatMessages := f (chatMessages w); previews := previews w;
     agentCalls := agentCalls w |}.

Definition set_previews
    (f : gmap string GoalPreviewRecord -> gmap string GoalPreviewRecord)
    (w : World) : World :=
  {| users := users w; goals := goals w; milestones := milestones w;
     tasks := tasks w; sessions := sessions w; chats := chats w;
     chatMessages := chatMessages w; previews := f (previews w);
     agentCalls := agentCalls w |}.

Definition set_agentCalls
    (f : list AgentServiceRequest -> list AgentServiceRequest)
    (w : World) : World :=
  {| users := users w; goals := goals w; milestones := milestones w;
     tasks := tasks w; sessions := sessions w; chats := chats w;
     chatMessages := chatMessages w; previews := previews w;
     agentCalls := f (agentCalls w) |}.

(** ** The environment of one request *)

Record Env : Type := {
  env_now : Timestamp;
  env_parseDate : string -> option Timestamp;
  env_agentUrl : option string;
  env_fetch : AgentServiceRequest -> FetchOutcome;
  env_newGoalId : string;
  env_newTaskId : string;
  env_newSessionId : string;
  env_newChatId : string;
  env_newPreviewId : string;
}.

(** ** The handler monad *)

Definition M (A : Type) : Type := Env -> World -> Result A * World.

Definition ret {A} (a : A) : M A := fun _ w => (Ok a, w).

Definition bind {A B} (c : M A) (k : A -> M B) : M B :=
  fun env w =>
    match c env w with
    | (Ok a, w') => k a env w'
    | (Throw f, w') => (Throw f, w')
    end.

Notation "'let*' x ':=' c 'in' k" := (bind c (fun x => k))
  (at level 10, x pattern, c at level 200, k at level 200).

Definition throw {A} (f : Failure) : M A := fun _ w => (Throw f, w).

Definition throwApi {A} (st : Z) (msg : list msg_part) (d : ErrorDetails)
    : M A :=
  throw (Api {| status := st; message := msg; details := d |}).

Definition ask : M Env := fun env w => (Ok env, w).
Definition get : M World := fun _ w => (Ok w, w).
Definition modify (f : World -> World) : M unit := fun _ w => (Ok tt, f w).

(** [assert(condition, status, message)] of [errors.ts]. *)
Definition assert (condition : bool) (st : Z) (msg : list msg_part)
    : M unit :=
  if condition then ret tt else throwApi st msg NoDetails.

(** [assert] on a value that the rest of the handler then uses. *)
Definition assertSome {A} (o : option A) (st : Z) (msg : list msg_part)
    : M A :=
  match o with
  | Some a => ret a
  | None => throwApi st msg NoDetails
  end.

(** ** [repositories/userRepository.ts] *)

Definition mapUser (id : string) (d : UserDoc) : UserRecord :=
  {| user_id := id;
     user_email := ud_email d;
     user_name := default "" (ud_name d);
     user_profileImageUrl := ud_profileImageUrl d;
     user_timezone := default "UTC" (ud_timezone d);
     user_availableHoursPerWeek := default 20%Q (ud_availableHoursPerWeek d);
     user_createdAt := ud_createdAt d;
     user_updatedAt := ud_updatedAt d;
     user_googleSub := default "" (ud_googleSub d) |}.

(** The user stored under an id, as [findUserById] reads it. *)
Definition userOf (w : World) (id : string) : option UserRecord :=
  mapUser id <$> users w !! id.

Definition findUserById (id : string) : M (option UserRecord) :=
  let* w := get in
  ret (userOf w id).

Record UpdateUserInput : Type := {
  uu_name : option string;
  uu_profileImageUrl : option (option string);
  uu_timezone : option string;
  uu_availableHoursPerWeek : option Q;
  uu_googleSub : option string;
}.

(** [docRef.update(payload)] on a user document. *)
Definition applyUserUpdate (now : Timestamp) (u : UpdateUserInput)
    (d : UserDoc) : UserDoc :=
  {| ud_email := ud_email d;
     ud_name := match uu_name u with Some n => Some n | None => ud_name d end;
     ud_profileImageUrl :=
       match uu_profileImageUrl u with
       | Some p => p
       | None => ud_profileImageUrl d
       end;
     ud_timezone :=
       match uu_timezone u with Some t => Some t | None => ud_timezone d end;
     ud_availableHoursPerWeek :=
       match uu_availableHoursPerWeek u with
       | Some h => Some h
       | None => ud_availableHoursPerWeek d
       end;
     ud_createdAt := ud_createdAt d;
     ud_updatedAt := now;
     ud_googleSub :=
       match uu_googleSub u with Some g => Some g | None => ud_googleSub d end
  |}.

Definition updateUser (id : string) (updates : UpdateUserInput)
    : M UserRecord :=
  let* env := ask in
  let* w := get in
  match users w !! id with
  | None => throwApi 404 [Txt "User not found."] NoDetails
  | Some d =>
      let d' := applyUserUpdate (env_now env) updates d in
      let* _ := modify (set_users (fun m => <[id := d']> m)) in
      ret (mapUser id d')
  end.

(** ** [repositories/goalRepository.ts] *)

(** Modelled from the spec: [listGoals] of the goal repository, which is
    not part of the sources at hand.  The goals owned by a user, all of
    them or those with the given status, in query order. *)
Definition listGoals (userId : string) (st : option GoalStatus)
    : M (list GoalRecord) :=
  let* w := get in
  ret (List.filter
         (fun g =>
            String.eqb (goal_userId g) userId
            && match st with
               | Some s => GoalStatus_eqb (goal_status g) s
               | None => true
               end)
         (goals w)).

Definition sumHours (gs : list GoalRecord) : Q :=
  fold_right (fun g acc => Qplus (goal_minHoursPerWeek g) acc) 0%Q gs.

(** [goal.id !== excludeGoalId], with [None] for an argument left out. *)
Definition id_differs (id : string) (exclude : option string) : bool :=
  match exclude with
  | Some x => negb (String.eqb id x)
  | None => true
  end.

(** Modelled from the spec: [sumActiveGoalHours] of the goal repository,
    which is not part of the sources at hand.  The sum of
    [minHoursPerWeek] over the active goals of a user, the excluded goal
    left out. *)
Definition sumActiveGoalHours (userId : string) (excludeGoalId : option string)
    : M Q :=
  let* gs := listGoals userId (Some active) in
  ret (sumHours (List.filter (fun g => id_differs (goal_id g) excludeGoalId) gs)).

(** Modelled from the spec: [getGoalById] of the goal repository, which is
    not part of the sources at hand. *)
Definition getGoalById (id : string) : M (option GoalRecord) :=
  let* w := get in
  ret (List.find (fun g => String.eqb (goal_id g) id) (goals w)).

Record CreateGoalInput : Type := {
  cg_userId : string;
  cg_title : string;
  cg_description : option string;
  cg_minHoursPerWeek : Q;
  cg_priority : Q;
  cg_color : option Q;
}.

(** Modelled from the spec: [createGoal] of the goal repository, which is
    not part of the sources at hand.  A new goal counts against the
    budget at once: it is stored as an active goal. *)
Definition createGoal (input : CreateGoalInput) : M GoalRecord :=
  let* env := ask in
  let g := {| goal_id := env_newGoalId env;
              goal_userId := cg_userId input;
              goal_title := cg_title input;
              goal_description := cg_description input;
              goal_status := active;
              goal_minHoursPerWeek := cg_minHoursPerWeek input;
              goal_priority := cg_priority input;
              goal_color := cg_color input;
              goal_createdAt := env_now env;
              goal_updatedAt := env_now env |} in
  let* _ := modify (set_goals (fun gs => gs ++ [g])) in
  ret g.

(** ** [repositories/milestoneRepository.ts] *)

(** Modelled from the spec: [getMilestoneById] of the milestone repository,
    which is not part of the sources at hand. *)
Definition getMilestoneById (id : string) : M (option MilestoneRecord) :=
  let* w := get in
  ret (List.find (fun m => String.eqb (ms_id m) id) (milestones w)).

(** ** [repositories/taskRepository.ts] *)

(** Modelled from the spec: [getTaskById] of the task repository, which is
    not part of the sources at hand. *)
Definition getTaskById (id : string) : M (option TaskRecord) :=
  let* w := get in
  ret (List.find (fun t => String.eqb (task_id t) id) (tasks w)).

(** Modelled from the spec: [listTasksByMilestone] of the task repository,
    which is not part of the sources at hand.  The tasks owned by a
    milestone, in query order. *)
Definition listTasksByMilestone (milestoneId : string)
    : M (list TaskRecord) :=
  let* w := get in
  ret (List.filter (fun t => String.eqb (task_milestoneId t) milestoneId)
         (tasks w)).

(** Modelled from the spec: [listTasksByDateRange] of the task repository,
    which is not part of the sources at hand.  The tasks of a user dated
    from [startDay] to [endDay], both days included, in query order:
    [GET /v1/tasks:query] asks for the tasks of one day with
    [startDay = endDay = day]. *)
Definition listTasksByDateRange (userId : string) (startDay endDay : Day)
    : M (list TaskRecord) :=
  let* w := get in
  ret (List.filter
         (fun t =>
            String.eqb (task_userId t) userId
            && (startDay <=? task_date t)%Z && (task_date t <=? endDay)%Z)
         (tasks w)).

Record CreateTaskInput : Type := {
  ct_goalId : string;
  ct_milestoneId : string;
  ct_userId : string;
  ct_title : string;
  ct_description : option string;
  ct_date : Day;
  ct_estimatedHours : Q;
}.

(** Modelled from the spec: [createTask] of the task repository, which is
    not part of the sources at hand.  A new task is not done. *)
Definition createTask (input : CreateTaskInput) : M TaskRecord :=
  let* env := ask in
  let t := {| task_id := env_newTaskId env;
              task_goalId := ct_goalId input;
              task_milestoneId := ct_milestoneId input;
              task_userId := ct_userId input;
              task_title := ct_title input;
              task_description := ct_description input;
              task_date := ct_date input;
              task_estimatedHours := ct_estimatedHours input;
              task_done := false;
              task_createdAt := env_now env;
              task_updatedAt := env_now env |} in
  let* _ := modify (set_tasks (fun ts => ts ++ [t])) in
  ret t.

Record UpdateTaskInput : Type := {
  ut_title : option string;
  ut_description : option (option string);
  ut_date : option Day;
  ut_estimatedHours : option Q;
  ut_done : option bool;
}.

Definition applyTaskUpdate (now : Timestamp) (u : UpdateTaskInput)
    (t : TaskRecord) : TaskRecord :=
  {| task_id := task_id t;
     task_goalId := task_goalId t;
     task_milestoneId := task_milestoneId t;
     task_userId := task_userId t;
     task_title := default (task_title t) (ut_title u);
     task_description := default (task_description t) (ut_description u);
     task_date := default (task_date t) (ut_date u);
     task_estimatedHours := default (task_estimatedHours t) (ut_estimatedHours u);
     task_done := default (task_done t) (ut_done u);
     task_createdAt := task_createdAt t;
     task_updatedAt := now |}.

(** Modelled from the spec: [updateTask] of the task repository, which is
    not part of the sources at hand.  The given fields of the task with
    that id are replaced. *)
Definition updateTask (id : string) (updates : UpdateTaskInput)
    : M TaskRecord :=
  let* env := ask in
  let* found := getTaskById id in
  match found with
  | None => throwApi 404 [Txt "Task not found."] NoDetails
  | Some t =>
      let t' := applyTaskUpdate (env_now env) updates t in
      let* _ :=
        modify (set_tasks
                  (List.map (fun x =>
                     if String.eqb (task_id x) id
                     then applyTaskUpdate (env_now env) updates x else x))) in
      ret t'
  end.

(** ** [repositories/sessionRepository.ts] *)

Definition mapSession (id : string) (d : SessionDoc) : SessionStateRecord :=
  {| session_id := id;
     session_userId := sd_userId d;
     session_chatId := sd_chatId d;
     session_state := default "plan_generated" (sd_state d);
     session_iteration := default (integer 0) (sd_iteration d);
     session_goalPreviewId := sd_goalPreviewId d;
     session_sessionActive := default true (sd_sessionActive d);
     session_context := nullish_or (default JUndefined (sd_context d)) (JObj []);
     session_createdAt := sd_createdAt d;
     session_updatedAt := sd_updatedAt d |}.

(** The session stored under an id, as [findSessionById] reads it. *)
Definition sessionOf (w : World) (id : string) : option SessionStateRecord :=
  mapSession id <$> sessions w !! id.

Definition findSessionById (id : string) : M (option SessionStateRecord) :=
  let* w := get in
  ret (sessionOf w id).

(** The later of two documents by [updatedAt]. *)
Definition laterSession (a b : string * SessionDoc) : string * SessionDoc :=
  if (sd_updatedAt (snd a) <? sd_updatedAt (snd b))%Z then b else a.

Definition isActiveSessionOf (userId : string) (entry : string * SessionDoc)
    : bool :=
  String.eqb (sd_userId (snd entry)) userId
  && match sd_sessionActive (snd entry) with
     | Some true => true
     | _ => false
     end.

Definition findLatestActiveSession (userId : string)
    : M (option SessionStateRecord) :=
  let* w := get in
  match List.filter (isActiveSessionOf userId) (map_to_list (sessions w)) with
  | [] => ret None
  | first :: rest =>
      let found := fold_left laterSession rest first in
      ret (Some (mapSession (fst found) (snd found)))
  end.

Record CreateSessionInput : Type := {
  cs_userId : string;
  cs_context : jsval;
}.

Definition createSession (input : CreateSessionInput)
    : M SessionStateRecord :=
  let* env := ask in
  let now := env_now env in
  let chatId := env_newChatId env in
  let* _ :=
    modify (set_chats (fun m =>
      <[chatId := {| chat_userId := cs_userId input;
                     chat_createdAt := now;
                     chat_updatedAt := now |}]> m)) in
  let sessionId := env_newSessionId env in
  let record :=
    {| sd_userId := cs_userId input;
       sd_chatId := chatId;
       sd_state := Some "plan_generated";
       sd_iteration := Some (integer 0);
       sd_goalPreviewId := None;
       sd_sessionActive := Some true;
       sd_context := Some (cs_context input);
       sd_createdAt := now;
       sd_updatedAt := now |} in
  let* _ := modify (set_sessions (fun m => <[sessionId := record]> m)) in
  ret {| session_id := sessionId;
         session_userId := cs_userId input;
         session_chatId := chatId;
         session_state := "plan_generated";
         session_iteration := 0;
         session_goalPreviewId := None;
         session_sessionActive := true;
         session_context := cs_context input;
         session_createdAt := now;
         session_updatedAt := now |}.

Record UpdateSessionInput : Type := {
  us_state : option string;
  us_iteration : option JsNum;
  us_goalPreviewId : option (option string);
  us_sessionActive : option bool;
  us_context : option jsval;
}.

(** [docRef.update(payload)] on a session document. *)
Definition applySessionUpdate (now : Timestamp) (u : UpdateSessionInput)
    (d : SessionDoc) : SessionDoc :=
  {| sd_userId := sd_userId d;
     sd_chatId := sd_chatId d;
     sd_state := match us_state u with Some x => Some x | None => sd_state d end;
     sd_iteration :=
       match us_iteration u with Some x => Some x | None => sd_iteration d end;
     sd_goalPreviewId :=
       match us_goalPreviewId u with
       | Some x => x
       | None => sd_goalPreviewId d
       end;
     sd_sessionActive :=
       match us_sessionActive u with
       | Some x => Some x
       | None => sd_sessionActive d
       end;
     sd_context :=
       match us_context u with Some x => Some x | None => sd_context d end;
     sd_createdAt := sd_createdAt d;
     sd_updatedAt := now |}.

Definition updateSession (id : string) (updates : UpdateSessionInput)
    : M SessionStateRecord :=
  let* env := ask in
  let* w := get in
  match sessions w !! id with
  | None => throwApi 404 [Txt "Session not found."] NoDetails
  | Some d =>
      let d' := applySessionUpdate (env_now env) updates d in
      let* _ := modify (set_sessions (fun m => <[id := d']> m)) in
      ret (mapSession id d')
  end.

Record ChatMessageInput : Type := {
  ci_chatId : string;
  ci_sessionId : string;
  ci_sender : Sender;
  ci_message : string;
}.

(** [docRef.update({ updatedAt })]: fails on a document that is not there. *)
Definition touchChat (chatId : string) (now : Timestamp) : M unit :=
  let* w := get in
  match chats w !! chatId with
  | None => throw (Untyped "NOT_FOUND: Chat")
  | Some c =>
      modify (set_chats (fun m =>
        <[chatId := {| chat_userId := chat_userId c;
                       chat_createdAt := chat_createdAt c;
                       chat_updatedAt := now |}]> m))
  end.

Definition noSessionUpdate : UpdateSessionInput :=
  {| us_state := None; us_iteration := None; us_goalPreviewId := None;
     us_sessionActive := None; us_context := None |}.

Definition touchSession (sessionId : string) (now : Timestamp) : M unit :=
  let* w := get in
  match sessions w !! sessionId with
  | None => throw (Untyped "NOT_FOUND: SessionState")
  | Some d =>
      modify (set_sessions (fun m =>
        <[sessionId := applySessionUpdate now noSessionUpdate d]> m))
  end.

Definition appendChatMessage (input : ChatMessageInput) : M unit :=
  let* env := ask in
  let now := env_now env in
  let* _ :=
    modify (set_chatMessages (fun log =>
      log ++ [{| cm_chatId := ci_chatId input;
                 cm_sessionId := ci_sessionId input;
                 cm_sender := ci_sender input;
                 cm_message := ci_message input;
                 cm_createdAt := now |}])) in
  let* _ := touchChat (ci_chatId input) now in
  touchSession (ci_sessionId input) now.

(** ** [repositories/goalPreviewRepository.ts] *)

Definition mapPreview (id : string) (d : GoalPreviewRecord)
    : GoalPreviewRecord :=
  {| gp_id := id;
     gp_userId := gp_userId d;
     gp_sessionId := gp_sessionId d;
     gp_data := nullish_or (gp_data d) (JObj []);
     gp_createdAt := gp_createdAt d;
     gp_updatedAt := gp_updatedAt d |}.

Record UpsertGoalPreviewInput : Type := {
  ug_id : option string;
  ug_userId : string;
  ug_sessionId : string;
  ug_data : jsval;
}.

Definition newPreviewDoc (id : string) (input : UpsertGoalPreviewInput)
    (now : Timestamp) : GoalPreviewRecord :=
  {| gp_id := id;
     gp_userId := ug_userId input;
     gp_sessionId := ug_sessionId input;
     gp_data := ug_data input;
     gp_createdAt := now;
     gp_updatedAt := now |}.

(** [if (input.id)]: an id that is there and not the empty string. *)
Definition givenId (o : option string) : option string :=
  match o with
  | Some id => if String.eqb id "" then None else Some id
  | None => None
  end.

Definition upsertGoalPreview (input : UpsertGoalPreviewInput)
    : M GoalPreviewRecord :=
  let* env := ask in
  let now := env_now env in
  match givenId (ug_id input) with
  | Some id =>
      let* w := get in
      let doc :=
        match previews w !! id with
        | None => newPreviewDoc id input now
        | Some d =>
            {| gp_id := gp_id d;
               gp_userId := gp_userId d;
               gp_sessionId := gp_sessionId d;
               gp_data := ug_data input;
               gp_createdAt := gp_createdAt d;
               gp_updatedAt := now |}
        end in
      let* _ := modify (set_previews (fun m => <[id := doc]> m)) in
      ret (mapPreview id doc)
  | None =>
      let id := env_newPreviewId env in
      let doc := newPreviewDoc id input now in
      let* _ := modify (set_previews (fun m => <[id := doc]> m)) in
      ret (mapPreview id doc)
  end.

(** ** [services/agentService.ts] *)

Definition AGENT_UNAVAILABLE : list msg_part :=
  [Txt "Agent service unavailable. Please try again later."].

Definition getAgentServiceUrl : M string :=
  let* env := ask in
  match env_agentUrl env with
  | Some url =>
      if String.eqb url ""
      then throwApi 500 [Txt "Agent service URL not configured."] NoDetails
      else ret url
  | None => throwApi 500 [Txt "Agent service URL not configured."] NoDetails
  end.

(** [fetch(url, ...)] sends the request: from then on the agent service
    has been called, whatever comes back. *)
Definition invokeAgentService (payload : AgentServiceRequest)
    : M AgentServiceResponse :=
  let* _ := getAgentServiceUrl in
  let* env := ask in
  let* _ := modify (set_agentCalls (fun sent => sent ++ [payload])) in
  match env_fetch env payload with
  | FetchNotOk st text =>
      if (st =? 503)%Z
      then throwApi 503 AGENT_UNAVAILABLE NoDetails
      else throwApi st
             [Txt (if String.eqb text "" then "Agent service error." else text)]
             NoDetails
  | FetchOk data => ret data
  | FetchFailed | FetchBadJson => throwApi 503 AGENT_UNAVAILABLE NoDetails
  end.

(** ** [services/contextService.ts] *)

Definition UPCOMING_DAYS : Z := 7.

Record TaskSummary : Type := {
  ts_id : string;
  ts_title : string;
  ts_goalId : string;
  ts_milestoneId : string;
  ts_date : Day;
  ts_estimatedHours : Q;
  ts_done : bool;
}.

Definition summarize (t : TaskRecord) : TaskSummary :=
  {| ts_id := task_id t;
     ts_title := task_title t;
     ts_goalId := task_goalId t;
     ts_milestoneId := task_milestoneId t;
     ts_date := task_date t;
     ts_estimatedHours := task_estimatedHours t;
     ts_done := task_done t |}.

(** [Array.prototype.sort] is stable: an element goes in front of the
    first element that the comparator puts strictly after it or level
    with it, and the elements are inserted from the last to the first. *)
Fixpoint insertByDate (x : TaskSummary) (l : list TaskSummary)
    : list TaskSummary :=
  match l with
  | [] => [x]
  | y :: rest =>
      if (ts_date x <=? ts_date y)%Z then x :: y :: rest
      else y :: insertByDate x rest
  end.

(** [.sort((a, b) => a.date.localeCompare(b.date))] *)
Definition sortByDate (l : list TaskSummary) : list TaskSummary :=
  fold_right insertByDate [] l.

Record UserContext : Type := {
  availableHoursLeft : Q;
  upcomingTasks : list TaskSummary;
}.

Definition buildUserContext (user : UserRecord) : M UserContext :=
  let* env := ask in
  let now := env_now env in
  let end_ := addDays now UPCOMING_DAYS in
  let startDay := isoDay now in
  let endDay := isoDay end_ in
  let* found := listTasksByDateRange (user_id user) startDay endDay in
  let upcoming :=
    sortByDate
      (List.map summarize (List.filter (fun t => negb (task_done t)) found)) in
  let* activeGoalHours := sumActiveGoalHours (user_id user) None in
  let left :=
    Math_max 0%Q (Qminus (user_availableHoursPerWeek user) activeGoalHours) in
  ret {| availableHoursLeft := left; upcomingTasks := upcoming |}.

(** The context as the JSON object that is stored with a session. *)
Definition taskSummaryToJs (t : TaskSummary) : jsval :=
  JObj [("id", JStr (ts_id t)); ("title", JStr (ts_title t));
        ("goalId", JStr (ts_goalId t));
        ("milestoneId", JStr (ts_milestoneId t));
        ("date", JNum (inject_Z (ts_date t)));
        ("estimatedHours", JNum (ts_estimatedHours t));
        ("done", JBool (ts_done t))].

Definition contextToJs (c : UserContext) : jsval :=
  JObj [("availableHoursLeft", JNum (availableHoursLeft c));
        ("upcomingTasks", JArr (List.map taskSummaryToJs (upcomingTasks c)))].

(** ** The route handlers ([index.ts]) *)

Definition MAX_AVAILABLE_HOURS : Q := 168%Q.

(** [const userId = req.user?.userId; assert(userId, 401, 'Unauthorized')] *)
Definition requireUser (auth : option string) : M string :=
  match auth with
  | Some userId =>
      let* _ := assert (negb (String.eqb userId "")) 401 [Txt "Unauthorized"] in
      ret userId
  | None => throwApi 401 [Txt "Unauthorized"] NoDetails
  end.

Definition assertOwnedGoal (goalId userId : string) : M GoalRecord :=
  let* found := getGoalById goalId in
  let* goal := assertSome found 404 [Txt "Goal not found."] in
  let* _ := assert (String.eqb (goal_userId goal) userId) 403 [Txt "Forbidden."] in
  ret goal.

Definition assertOwnedMilestone (milestoneId userId : string)
    : M MilestoneRecord :=
  let* found := getMilestoneById milestoneId in
  let* milestone := assertSome found 404 [Txt "Milestone not found."] in
  let* _ := assertOwnedGoal (ms_goalId milestone) userId in
  ret milestone.

Definition assertOwnedTask (taskId userId : string)
    : M (TaskRecord * MilestoneRecord) :=
  let* found := getTaskById taskId in
  let* task := assertSome found 404 [Txt "Task not found."] in
  let* milestone := assertOwnedMilestone (task_milestoneId task) userId in
  ret (task, milestone).

Definition goalSummary (g : GoalRecord) : GoalSummary :=
  {| gs_goalId := goal_id g;
     gs_title := goal_title g;
     gs_weeklyHours := goal_minHoursPerWeek g |}.

Definition collectActiveGoalSummaries (userId : string)
    (excludeGoalId : option string) : M (list GoalSummary) :=
  let* gs := listGoals userId (Some active) in
  ret (List.map goalSummary
         (List.filter (fun g => id_differs (goal_id g) excludeGoalId) gs)).

(** The filter of [ensureNoTaskConflict]. *)
Definition conflictsWith (userId : string) (date : Day)
    (excludeTaskId : option string) (t : TaskRecord) : bool :=
  id_differs (task_id t) excludeTaskId
  && String.eqb (task_userId t) userId
  && (task_date t =? date)%Z.

Definition TASK_CONFLICT : list msg_part :=
  [Txt "Task date conflicts with an existing scheduled task or calendar event."].

Definition ensureNoTaskConflict (milestoneId userId : string) (date : Day)
    (excludeTaskId : option string) : M unit :=
  let* found := listTasksByMilestone milestoneId in
  let conflicting := List.filter (conflictsWith userId date excludeTaskId) found in
  if (0 <? Z.of_nat (List.length conflicting))%Z
  then throwApi 409 TASK_CONFLICT
         (TaskConflictDetails (List.map task_id conflicting))
  else ret tt.

Definition validateEstimatedHours (value : jsval) : M Q :=
  match value with
  | JNum q =>
      let* _ := assert (num_le 0%Q q) 400
                  [Txt "estimatedHours must be zero or positive."] in
      ret q
  | _ => throwApi 400 [Txt "estimatedHours must be a number."] NoDetails
  end.

Definition validateIsoDate (value : jsval) : M Day :=
  let* text := assertSome (nonblank_string value) 400 [Txt "date is required."] in
  let* env := ask in
  let* parsed := assertSome (env_parseDate env text) 400
                   [Txt "Invalid date format."] in
  ret (isoDay parsed).

(** [v === null || typeof v === 'string'] *)
Definition null_or_string (v : jsval) : bool :=
  match v with JNull | JStr _ => true | _ => false end.

(** A string or [null] as the stored optional text. *)
Definition optional_text (v : jsval) : option string :=
  match v with JStr s => Some s | _ => None end.

(** *** [PATCH /v1/me] *)

Record PatchMeBody : Type := {
  pm_name : jsval;
  pm_timezone : jsval;
  pm_availableHoursPerWeek : jsval;
  pm_profileImageUrl : jsval;
}.

Definition noUserUpdate : UpdateUserInput :=
  {| uu_name := None; uu_profileImageUrl := None; uu_timezone := None;
     uu_availableHoursPerWeek := None; uu_googleSub := None |}.

Definition insufficientForActive (available : Q) (required : JsNum)
    : list msg_part :=
  [Txt "Available hours ("; Num available;
   Txt "h/week) are insufficient for current active goals ("; Num required;
   Txt "h/week required)."].

Definition patch_me (auth : option string) (body : PatchMeBody)
    : M UserRecord :=
  let* userId := requireUser auth in
  let* found := findUserById userId in
  let* _ := assertSome found 404 [Txt "User not found."] in
  let updates := noUserUpdate in
  let hasUpdate := false in
  let* (updates, hasUpdate) :=
    if is_undefined (pm_name body) then ret (updates, hasUpdate)
    else
      let* name := assertSome (nonblank_string (pm_name body)) 400
                     [Txt "Invalid name."] in
      ret ({| uu_name := Some name;
              uu_profileImageUrl := uu_profileImageUrl updates;
              uu_timezone := uu_timezone updates;
              uu_availableHoursPerWeek := uu_availableHoursPerWeek updates;
              uu_googleSub := uu_googleSub updates |}, true) in
  let* (updates, hasUpdate) :=
    if is_undefined (pm_timezone body) then ret (updates, hasUpdate)
    else
      let* timezone := assertSome (nonblank_string (pm_timezone body)) 400
                         [Txt "Invalid timezone format."] in
      ret ({| uu_name := uu_name updates;
              uu_profileImageUrl := uu_profileImageUrl updates;
              uu_timezone := Some timezone;
              uu_availableHoursPerWeek := uu_availableHoursPerWeek updates;
              uu_googleSub := uu_googleSub updates |}, true) in
  let* (updates, hasUpdate) :=
    if is_undefined (pm_profileImageUrl body) then ret (updates, hasUpdate)
    else
      let* _ := assert (null_or_string (pm_profileImageUrl body)) 400
                  [Txt "profileImageUrl must be a string or null."] in
      ret ({| uu_name := uu_name updates;
              uu_profileImageUrl := Some (optional_text (pm_profileImageUrl body));
              uu_timezone := uu_timezone updates;
              uu_availableHoursPerWeek := uu_availableHoursPerWeek updates;
              uu_googleSub := uu_googleSub updates |}, true) in
  let* (updates, hasUpdate) :=
    if is_undefined (pm_availableHoursPerWeek body) then ret (updates, hasUpdate)
    else
      match pm_availableHoursPerWeek body with
      | JNum availableHoursPerWeek =>
          let* _ :=
            assert (num_le 0%Q availableHoursPerWeek
                    && num_le availableHoursPerWeek MAX_AVAILABLE_HOURS) 400
              [Txt "availableHoursPerWeek must be between 0 and ";
               Num MAX_AVAILABLE_HOURS; Txt "."] in
          let* activeHours := sumActiveGoalHours userId None in
          if num_lt availableHoursPerWeek activeHours
          then
            let* conflicts := collectActiveGoalSummaries userId None in
            throwApi 409
              (insufficientForActive availableHoursPerWeek activeHours)
              (BudgetDetails availableHoursPerWeek activeHours conflicts)
          else
            ret ({| uu_name := uu_name updates;
                    uu_profileImageUrl := uu_profileImageUrl updates;
                    uu_timezone := uu_timezone updates;
                    uu_availableHoursPerWeek := Some availableHoursPerWeek;
                    uu_googleSub := uu_googleSub updates |}, true)
      | _ =>
          throwApi 400 [Txt "availableHoursPerWeek must be a number."] NoDetails
      end in
  let* _ := assert hasUpdate 400 [Txt "No updatable fields provided."] in
  updateUser userId updates.

(** *** [POST /v1/goals] *)

Record PostGoalBody : Type := {
  pg_title : jsval;
  pg_description : jsval;
  pg_minHoursPerWeek : jsval;
  pg_priority : jsval;
  pg_color : jsval;
}.

Definition insufficientWithNewGoal (available : Q) (total : JsNum)
    : list msg_part :=
  [Txt "Available hours ("; Num available;
   Txt "h/week) are insufficient for current active goals ("; Num total;
   Txt "h/week with new goal)."].

(** [typeof v === 'number' && Number.isFinite(v) && v >= 0] *)
Definition nonNegativeNumber (v : jsval) : option Q :=
  match v with
  | JNum q => if num_le 0%Q q then Some q else None
  | _ => None
  end.

(** [typeof v === 'number' && Number.isInteger(v)] *)
Definition integerNumber (v : jsval) : option Q :=
  match v with
  | JNum q => if isInteger q then Some q else None
  | _ => None
  end.

Definition finiteNumber (v : jsval) : option Q :=
  match v with JNum q => Some q | _ => None end.

Definition post_goals (auth : option string) (body : PostGoalBody)
    : M GoalRecord :=
  let* userId := requireUser auth in
  let* found := findUserById userId in
  let* user := assertSome found 404 [Txt "User not found."] in
  let* title := assertSome (nonblank_string (pg_title body)) 400
                  [Txt "title is required."] in
  let* minHoursPerWeek :=
    assertSome (nonNegativeNumber (pg_minHoursPerWeek body)) 400
      [Txt "minHoursPerWeek must be a non-negative number."] in
  let* priority := assertSome (integerNumber (pg_priority body)) 400
                     [Txt "priority must be an integer."] in
  let* _ :=
    if is_undefined (pg_color body) then ret tt
    else
      let* _ := assertSome (finiteNumber (pg_color body)) 400
                  [Txt "color must be a number."] in
      ret tt in
  let* existingHours := sumActiveGoalHours userId None in
  let totalHours := js_add existingHours minHoursPerWeek in
  if js_lt (user_availableHoursPerWeek user) totalHours
  then
    let* conflicts := collectActiveGoalSummaries userId None in
    throwApi 409
      (insufficientWithNewGoal (user_availableHoursPerWeek user) totalHours)
      (BudgetDetails (user_availableHoursPerWeek user) totalHours conflicts)
  else
    createGoal {| cg_userId := userId;
                  cg_title := trim title;
                  cg_description := optional_text (pg_description body);
                  cg_minHoursPerWeek := minHoursPerWeek;
                  cg_priority := priority;
                  cg_color := finiteNumber (pg_color body) |}.

(** *** [POST /v1/milestones/:milestoneId/tasks] *)

Record PostTaskBody : Type := {
  pt_title : jsval;
  pt_description : jsval;
  pt_date : jsval;
  pt_estimatedHours : jsval;
}.

Definition post_milestone_tasks (auth : option string) (milestoneId : string)
    (body : PostTaskBody) : M TaskRecord :=
  let* userId := requireUser auth in
  let* milestone := assertOwnedMilestone milestoneId userId in
  let* title := assertSome (nonblank_string (pt_title body)) 400
                  [Txt "title is required."] in
  let* _ :=
    if is_undefined (pt_description body) then ret tt
    else assert (null_or_string (pt_description body)) 400
           [Txt "description must be a string or null."] in
  let* taskDate := validateIsoDate (pt_date body) in
  let* hours := validateEstimatedHours (pt_estimatedHours body) in
  let* _ := ensureNoTaskConflict (ms_id milestone) userId taskDate None in
  createTask {| ct_goalId := ms_goalId milestone;
                ct_milestoneId := ms_id milestone;
                ct_userId := userId;
                ct_title := trim title;
                ct_description := optional_text (pt_description body);
                ct_date := taskDate;
                ct_estimatedHours := hours |}.

(** *** [PATCH /v1/tasks/:taskId] *)

Record PatchTaskBody : Type := {
  pk_title : jsval;
  pk_description : jsval;
  pk_date : jsval;
  pk_estimatedHours : jsval;
  pk_done : jsval;
}.

Definition noTaskUpdate : UpdateTaskInput :=
  {| ut_title := None; ut_description := None; ut_date := None;
     ut_estimatedHours := None; ut_done := None |}.

Definition patch_task (auth : option string) (taskId : string)
    (body : PatchTaskBody) : M TaskRecord :=
  let* userId := requireUser auth in
  let* (task, milestone) := assertOwnedTask taskId userId in
  let updates := noTaskUpdate in
  let hasUpdate := false in
  let* (updates, hasUpdate) :=
    if is_undefined (pk_title body) then ret (updates, hasUpdate)
    else
      let* title := assertSome (nonblank_string (pk_title body)) 400
                      [Txt "Invalid title."] in
      ret ({| ut_title := Some (trim title);
              ut_description := ut_description updates;
              ut_date := ut_date updates;
              ut_estimatedHours := ut_estimatedHours updates;
              ut_done := ut_done updates |}, true) in
  let* (updates, hasUpdate) :=
    if is_undefined (pk_description body) then ret (updates, hasUpdate)
    else
      let* _ := assert (null_or_string (pk_description body)) 400
                  [Txt "description must be a string or null."] in
      ret ({| ut_title := ut_title updates;
              ut_description := Some (optional_text (pk_description body));
              ut_date := ut_date updates;
              ut_estimatedHours := ut_estimatedHours updates;
              ut_done := ut_done updates |}, true) in
  let* (updates, hasUpdate) :=
    if is_undefined (pk_date body) then ret (updates, hasUpdate)
    else
      let* newDate := validateIsoDate (pk_date body) in
      let* _ := ensureNoTaskConflict (ms_id milestone) userId newDate
                  (Some (task_id task)) in
      ret ({| ut_title := ut_title updates;
              ut_description := ut_description updates;
              ut_date := Some newDate;
              ut_estimatedHours := ut_estimatedHours updates;
              ut_done := ut_done updates |}, true) in
  let* (updates, hasUpdate) :=
    if is_undefined (pk_estimatedHours body) then ret (updates, hasUpdate)
    else
      let* hours := validateEstimatedHours (pk_estimatedHours body) in
      ret ({| ut_title := ut_title updates;
              ut_description := ut_description updates;
              ut_date := ut_date updates;
              ut_estimatedHours := Some hours;
              ut_done := ut_done updates |}, true) in
  let* (updates, hasUpdate) :=
    if is_undefined (pk_done body) then ret (updates, hasUpdate)
    else
      match pk_done body with
      | JBool done =>
          ret ({| ut_title := ut_title updates;
                  ut_description := ut_description updates;
                  ut_date := ut_date updates;
                  ut_estimatedHours := ut_estimatedHours updates;
                  ut_done := Some done |}, true)
      | _ => throwApi 400 [Txt "done must be a boolean."] NoDetails
      end in
  let* _ := assert hasUpdate 400 [Txt "No updatable fields provided."] in
  updateTask (task_id task) updates.

(** *** [GET /v1/agent/goal/session:latest] *)

Definition get_session_latest (auth : option string)
    : M (Z * SessionStateRecord) :=
  let* userId := requireUser auth in
  let* latest := findLatestActiveSession userId in
  match latest with
  | Some session => ret (200, session)
  | None =>
      let* found := findUserById userId in
      let* user := assertSome found 404 [Txt "User not found."] in
      let* context := buildUserContext user in
      let* session :=
        createSession {| cs_userId := userId;
                         cs_context := contextToJs context |} in
      ret (201, session)
  end.

(** *** [POST /v1/agent/goal/session:message] *)

Record MessageBody : Type := {
  mb_sessionId : jsval;
  mb_message : jsval;
  mb_context : jsval;
  mb_userId : jsval;
}.

Record MessageReply : Type := {
  mr_sessionId : string;
  mr_reply : string;
  mr_action : option AgentAction;
  mr_state : AgentStatePayload;
  mr_context : jsval;
}.

(** [payloadUserId === userId] *)
Definition is_string (v : jsval) (s : string) : bool :=
  match v with JStr x => String.eqb x s | _ => false end.

(** [agentResponse.action?.type === name] *)
Definition actionIs (r : AgentServiceResponse) (name : string) : bool :=
  match rp_action r with
  | Some a => String.eqb (act_type a) name
  | None => false
  end.

(** [agentResponse.action.payload?.goalPreview ?? agentResponse.action.payload ?? {}] *)
Definition previewPayloadOf (a : AgentAction) : jsval :=
  nullish_or (js_get (act_payload a) "goalPreview")
    (nullish_or (act_payload a) (JObj [])).

(** [typeof previewPayload?.id === 'string' ? previewPayload.id : undefined] *)
Definition previewIdOf (previewPayload : jsval) : option string :=
  match js_get previewPayload "id" with
  | JStr id => Some id
  | _ => None
  end.

(** [contextOverride && typeof contextOverride === 'object'
     ? contextOverride : session.context ?? {}] *)
Definition turnContext (contextOverride : jsval) (session : SessionStateRecord)
    : jsval :=
  if truthy contextOverride && typeof_object contextOverride
  then contextOverride
  else nullish_or (session_context session) (JObj []).

(** The [agentPayload] object of a turn. *)
Definition agentPayloadOf (session : SessionStateRecord)
    (userId message : string) (context : jsval) : AgentServiceRequest :=
  {| rq_sessionId := session_id session;
     rq_userId := userId;
     rq_message := message;
     rq_context := context;
     rq_state :=
       {| st_state := session_state session;
          st_iteration := session_iteration session;
          st_sessionActive := session_sessionActive session;
          st_goalPreviewId := session_goalPreviewId session |} |}.

Definition sessionFinalized (sessionId : string) : list msg_part :=
  [Txt "Session '"; Txt sessionId;
   Txt "' is finalized and cannot accept new messages."].

(** The turn itself: the handler from [const context = ...] on, once
    the request has passed every check. *)
Definition agentTurn (userId message : string) (contextOverride : jsval)
    (session : SessionStateRecord) : M MessageReply :=
  let context := turnContext contextOverride session in
  let* _ :=
    appendChatMessage {| ci_chatId := session_chatId session;
                         ci_sessionId := session_id session;
                         ci_sender := sender_user;
                         ci_message := message |} in
  let agentPayload := agentPayloadOf session userId message context in
  let* agentResponse := invokeAgentService agentPayload in
  let* _ :=
    appendChatMessage {| ci_chatId := session_chatId session;
                         ci_sessionId := session_id session;
                         ci_sender := sender_agent;
                         ci_message := rp_reply agentResponse |} in
  let goalPreviewId := session_goalPreviewId session in
  let* goalPreviewId :=
    match rp_action agentResponse with
    | Some action =>
        if String.eqb (act_type action) "save_preview"
        then
          let previewPayload := previewPayloadOf action in
          let* previewRecord :=
            upsertGoalPreview {| ug_id := previewIdOf previewPayload;
                                 ug_userId := userId;
                                 ug_sessionId := session_id session;
                                 ug_data := previewPayload |} in
          ret (Some (gp_id previewRecord))
        else ret goalPreviewId
    | None => ret goalPreviewId
    end in
  let sessionActive :=
    default (session_sessionActive session)
      (rp_state agentResponse ≫= rs_sessionActive) in
  let sessionActive :=
    if actionIs agentResponse "finalize_goal" then false else sessionActive in
  let* updatedSession :=
    updateSession (session_id session)
      {| us_state :=
           Some (default (session_state session)
                   (rp_state agentResponse ≫= rs_state));
         us_iteration :=
           Some (default (js_add (session_iteration session) 1)
                   (rp_state agentResponse ≫= rs_iteration));
         us_goalPreviewId :=
           Some (match rp_state agentResponse ≫= rs_goalPreviewId with
                 | Some id => Some id
                 | None => goalPreviewId
                 end);
         us_sessionActive := Some sessionActive;
         us_context := Some (default context (rp_context agentResponse)) |} in
  ret {| mr_sessionId := session_id updatedSession;
         mr_reply := rp_reply agentResponse;
         mr_action := rp_action agentResponse;
         mr_state :=
           {| st_state := session_state updatedSession;
              st_iteration := session_iteration updatedSession;
              st_sessionActive := session_sessionActive updatedSession;
              st_goalPreviewId := session_goalPreviewId updatedSession |};
         mr_context := session_context updatedSession |}.

Definition post_session_message (auth : option string) (body : MessageBody)
    : M MessageReply :=
  let* userId := requireUser auth in
  let* sessionId := assertSome (nonblank_string (mb_sessionId body)) 400
                      [Txt "sessionId is required."] in
  let* message := assertSome (nonblank_string (mb_message body)) 400
                    [Txt "message is required."] in
  let* _ :=
    if is_undefined (mb_userId body) then ret tt
    else assert (is_string (mb_userId body) userId) 401 [Txt "Unauthorized."] in
  let* found := findSessionById sessionId in
  let* session := assertSome found 400
                    [Txt "Session '"; Txt sessionId; Txt "' not found."] in
  let* _ := assert (String.eqb (session_userId session) userId) 401
              [Txt "Unauthorized."] in
  let* _ := assert (session_sessionActive session) 409
              (sessionFinalized sessionId) in
  agentTurn userId message (mb_context body) session.

(** ** Vocabulary of the properties *)

(** The active goals of a user, in store order. *)
Definition activeGoalsOf (w : World) (userId : string) : list GoalRecord :=
  List.filter
    (fun g => String.eqb (goal_userId g) userId
              && GoalStatus_eqb (goal_status g) active)
    (goals w).

(** The handler was rejected with the given HTTP status. *)
Definition rejectedWith {A} (out : Result A * World) (st : Z) : Prop :=
  exists e, fst out = Throw (Api e) /\ status e = st.

(** An optional text field of a request body that passes its check. *)
Definition optionalNonblank (v : jsval) : bool :=
  is_undefined v || bool_decide (is_Some (nonblank_string v)).

Definition optionalNullOrString (v : jsval) : bool :=
  is_undefined v || null_or_string v.




(** A task counts as upcoming for a user on a given day: it is theirs,
    dated from that day to the seventh day after it, and not done. *)
Definition isUpcoming (userId : string) (today : Day) (t : TaskRecord)
    : bool :=
  String.eqb (task_userId t) userId
  && (today <=? task_date t)%Z && (task_date t <=? today + 7)%Z
  && negb (task_done t).



(** The tasks of a milestone that collide with a date for a user, the
    excluded task left out, in store order. *)
Definition collidingTasks (w : World) (milestoneId userId : string)
    (date : Day) (excludeTaskId : option string) : list TaskRecord :=
  List.filter
    (fun t => String.eqb (task_milestoneId t) milestoneId
              && conflictsWith userId date excludeTaskId t)
    (tasks w).

(** [typeof v === 'number' && Number.isFinite(v) && v >= 0] as a check. *)
Definition validHours (v : jsval) : bool :=
  match v with JNum q => num_le 0%Q q | _ => false end.

Definition isBoolean (v : jsval) : bool :=
  match v with JBool _ => true | _ => false end.

(** A [POST /v1/milestones/:milestoneId/tasks] body whose fields other
    than [date] pass their checks. *)
Definition postTaskOtherFieldsOk (body : PostTaskBody) : bool :=
  bool_decide (is_Some (nonblank_string (pt_title body)))
  && optionalNullOrString (pt_description body)
  && validHours (pt_estimatedHours body).

(** A [PATCH /v1/tasks/:taskId] body whose fields other than [date] pass
    their checks. *)
Definition patchTaskOtherFieldsOk (body : PatchTaskBody) : bool :=
  optionalNonblank (pk_title body)
  && optionalNullOrString (pk_description body)
  && (is_undefined (pk_estimatedHours body) || validHours (pk_estimatedHours body))
  && (is_undefined (pk_done body) || isBoolean (pk_done body)).

(** [turnOn env w auth body s resp]: the message names the stored session
    [s], carries the caller and a text, and the agent answers the request
    of this turn with [resp]. *)
Definition turnOn (env : Env) (w : World) (auth : option string)
    (body : MessageBody) (s : SessionStateRecord)
    (resp : AgentServiceResponse) : Prop :=
  exists userId sessionId text,
    auth = Some userId
    /\ nonblank_string (mb_sessionId body) = Some sessionId
    /\ nonblank_string (mb_message body) = Some text
    /\ sessionOf w sessionId = Some s
    /\ env_fetch env
         (agentPayloadOf s userId text (turnContext (mb_context body) s))
       = FetchOk resp.

(** The id under which a [save_preview] action stores its preview: the id
    in the payload when there is one, a generated id otherwise. *)
Definition savedPreviewId (env : Env) (resp : AgentServiceResponse) : string :=
  match rp_action resp with
  | Some a =>
      default (env_newPreviewId env) (givenId (previewIdOf (previewPayloadOf a)))
  | None => env_newPreviewId env
  end.

(** The agent call of a request fails: the URL is not configured, or the
    fetch fails, answers with a non-success status or with a body that is
    not JSON. *)
Definition agentCallFails (env : Env) (rq : AgentServiceRequest) : Prop :=
  match env_fetch env rq with
  | FetchOk _ =>
      match env_agentUrl env with
      | Some url => url = ""
      | None => True
      end
  | _ => True
  end.

(** One step of the session life cycle: a [session:latest] request that
    creates a session under a fresh generated id (or finds the latest
    one), or a [session:message] request; by any caller, with any body,
    in any environment, whatever its outcome. *)
Inductive sessionStep (w : World) : World -> Prop :=
| step_latest env auth out w' :
    sessions w !! env_newSessionId env = None ->
    get_session_latest auth env w = (out, w') ->
    sessionStep w w'
| step_message env auth body out w' :
    post_session_message auth body env w = (out, w') ->
    sessionStep w w'.

Definition lifecycle : World -> World -> Prop := rtc sessionStep.

(** [readOnly c]: whatever its outcome, [c] leaves the store as it was. *)
Definition readOnly {A} (c : M A) : Prop :=
  forall env w out w', c env w = (out, w') -> w' = w.

(** [keepsSession env k c]: whatever its outcome, [c] leaves the session
    document stored under [k] as it was. *)
Definition keepsSession (env : Env) (k : string) {A} (c : M A) : Prop :=
  forall w out w', c env w = (out, w') -> sessions w' !! k = sessions w !! k.

(** ** Sample data

    One user with a weekly budget of 20 hours and one active goal of 10
    hours, a milestone with a task on 2025-11-17 (day 20409), and an
    active session; the clock reads 2025-11-10 (day 20402). *)

Definition sampleUserDoc : UserDoc :=
  {| ud_email := "ann@example.org"; ud_name := Some "Ann";
     ud_profileImageUrl := None; ud_timezone := Some "UTC";
     ud_availableHoursPerWeek := Some 20%Q;
     ud_createdAt := 0; ud_updatedAt := 0; ud_googleSub := Some "sub-1" |}.

Definition sampleUser : UserRecord := mapUser "u1" sampleUserDoc.

Definition sampleGoal : GoalRecord :=
  {| goal_id := "g1"; goal_userId := "u1"; goal_title := "Portfolio";
     goal_description := None; goal_status := active;
     goal_minHoursPerWeek := 10%Q; goal_priority := 1%Q; goal_color := None;
     goal_createdAt := 0; goal_updatedAt := 0 |}.

Definition sampleMilestone : MilestoneRecord :=
  {| ms_id := "m1"; ms_goalId := "g1" |}.

Definition sampleTask : TaskRecord :=
  {| task_id := "t1"; task_goalId := "g1"; task_milestoneId := "m1";
     task_userId := "u1"; task_title := "Integration test";
     task_description := None; task_date := 20409;
     task_estimatedHours := 4%Q; task_done := false;
     task_createdAt := 0; task_updatedAt := 0 |}.

Definition sampleContext : jsval := JObj [("availableHoursLeft", JNum 10%Q)].

Definition sampleSessionDoc (iteration : Z) (sessionActive : bool)
    : SessionDoc :=
  {| sd_userId := "u1"; sd_chatId := "c1";
     sd_state := Some "plan_generated";
     sd_iteration := Some (integer iteration);
     sd_goalPreviewId := None; sd_sessionActive := Some sessionActive;
     sd_context := Some sampleContext;
     sd_createdAt := 0; sd_updatedAt := 0 |}.

Definition sampleWorldWith (session : SessionDoc) : World :=
  {| users := {[ "u1" := sampleUserDoc ]};
     goals := [sampleGoal];
     milestones := [sampleMilestone];
     tasks := [sampleTask];
     sessions := {[ "s1" := session ]};
     chats := {[ "c1" := {| chat_userId := "u1"; chat_createdAt := 0;
                            chat_updatedAt := 0 |} ]};
     chatMessages := [];
     previews := ∅;
     agentCalls := [] |}.

Definition sampleWorld : World := sampleWorldWith (sampleSessionDoc 0 true).

Definition sampleEnv (answer : FetchOutcome) : Env :=
  {| env_now := 20402 * MS_PER_DAY + 32400000;
     env_parseDate :=
       fun text => if String.eqb text "2025-11-17"
                   then Some (20409 * MS_PER_DAY) else None;
     env_agentUrl := Some "http://agent.internal";
     env_fetch := fun _ => answer;
     env_newGoalId := "g2";
     env_newTaskId := "t2";
     env_newSessionId := "s2";
     env_newChatId := "c2";
     env_newPreviewId := "p1" |}.

(** A second goal of 15 hours a week. *)
Definition goalOf15Hours : PostGoalBody :=
  {| pg_title := JStr "Learn Rust"; pg_description := JUndefined;
     pg_minHoursPerWeek := JNum 15%Q; pg_priority := JNum 2%Q;
     pg_color := JUndefined |}.


(** A second task on 2025-11-17 for the sample milestone. *)
Definition taskOnThe17th : PostTaskBody :=
  {| pt_title := JStr "Write report"; pt_description := JUndefined;
     pt_date := JStr "2025-11-17"; pt_estimatedHours := JNum 2%Q |}.

(** An update that gives the sample task the date it already has. *)
Definition keepThe17th : PatchTaskBody :=
  {| pk_title := JUndefined; pk_description := JUndefined;
     pk_date := JStr "2025-11-17"; pk_estimatedHours := JUndefined;
     pk_done := JUndefined |}.

Definition sampleSession : SessionStateRecord :=
  mapSession "s1" (sampleSessionDoc 0 true).

Definition sampleMessage : MessageBody :=
  {| mb_sessionId := JStr "s1";
     mb_message := JStr "Add a testing milestone next week.";
     mb_context := JUndefined; mb_userId := JUndefined |}.

(** The same message with a context override. *)
Definition sampleMessageWithContext : MessageBody :=
  {| mb_sessionId := JStr "s1";
     mb_message := JStr "Add a testing milestone next week.";
     mb_context := JObj [("focus", JStr "testing")];
     mb_userId := JUndefined |}.

Definition noAction : AgentAction :=
  {| act_type := "none"; act_payload := JUndefined |}.

(** Scenario D: a [save_preview] action, [state.iteration] omitted. *)
Definition replySavingPreview : AgentServiceResponse :=
  {| rp_reply := "Here is a plan based on your message.";
     rp_action :=
       Some {| act_type := "save_preview";
               act_payload :=
                 JObj [("goalPreview",
                        JObj [("title", JStr "Build Portfolio Website")])] |};
     rp_state :=
       Some {| rs_state := Some "plan_iteration"; rs_iteration := None;
               rs_sessionActive := Some true; rs_goalPreviewId := None |};
     rp_context := None |}.

(** Scenario E: a [finalize_goal] action with [state.sessionActive = true]. *)
Definition replyFinalizingYetActive : AgentServiceResponse :=
  {| rp_reply := "Your goal is final.";
     rp_action := Some {| act_type := "finalize_goal";
                          act_payload := JUndefined |};
     rp_state :=
       Some {| rs_state := Some "finalized"; rs_iteration := None;
               rs_sessionActive := Some true; rs_goalPreviewId := None |};
     rp_context := None |}.

(** A [finalize_goal] action and nothing else. *)
Definition replyFinalizingOnly : AgentServiceResponse :=
  {| rp_reply := "Your goal is final.";
     rp_action := Some {| act_type := "finalize_goal";
                          act_payload := JUndefined |};
     rp_state := None;
     rp_context := None |}.

(** A reply that omits the state and the context. *)
Definition replyOmittingAll : AgentServiceResponse :=
  {| rp_reply := "Noted."; rp_action := Some noAction;
     rp_state := None; rp_context := None |}.

(** A reply whose state carries the iteration 0. *)
Definition replyWithIteration0 : AgentServiceResponse :=
  {| rp_reply := "Starting over."; rp_action := Some noAction;
     rp_state :=
       Some {| rs_state := None; rs_iteration := Some (integer 0);
               rs_sessionActive := None; rs_goalPreviewId := None |};
     rp_context := None |}.

(** A reply whose state is [finalized], with no finalize action. *)
Definition replyWithFinalizedState : AgentServiceResponse :=
  {| rp_reply := "All set."; rp_action := Some noAction;
     rp_state :=
       Some {| rs_state := Some "finalized"; rs_iteration := None;
               rs_sessionActive := None; rs_goalPreviewId := None |};
     rp_context := None |}.

(** The sample store before any session exists, the store after a
    [session:latest] request has created session [s2], and the store after
    a turn on it that the agent answered with the state [finalized]. *)
Definition worldBeforeSession : World :=
  {| users := users sampleWorld; goals := goals sampleWorld;
     milestones := milestones sampleWorld; tasks := tasks sampleWorld;
     sessions := ∅; chats := ∅; chatMessages := []; previews := ∅;
     agentCalls := [] |}.

Definition messageToNewSession : MessageBody :=
  {| mb_sessionId := JStr "s2"; mb_message := JStr "Looks good.";
     mb_context := JUndefined; mb_userId := JUndefined |}.

Definition worldWithNewSession : World :=
  snd (get_session_latest (Some "u1") (sampleEnv FetchFailed)
         worldBeforeSession).

Definition worldWithFinalizedState : World :=
  snd (post_session_message (Some "u1") messageToNewSession
         (sampleEnv (FetchOk replyWithFinalizedState)) worldWithNewSession).

(** The no-break space U+00A0, in UTF-8. *)
Definition noBreakSpace : string :=
  String (ascii_of_N 194) (String (ascii_of_N 160) EmptyString).

(** The sample store with its session closed at iteration 3. *)
Definition worldWithClosedSession : World :=
  sampleWorldWith (sampleSessionDoc 3 false).

Definition closedSession : SessionStateRecord :=
  mapSession "s1" (sampleSessionDoc 3 false).

(** The sample store with its session at iteration 5. *)
Definition worldAtIteration5 : World :=
  sampleWorldWith (sampleSessionDoc 5 true).

(** The sample store with its session at iteration [2 ^ 53], the first
    integer whose successor is not a double. *)
Definition worldAtIteration2p53 : World :=
  sampleWorldWith (sampleSessionDoc (2 ^ 53) true).

(** A reply whose state carries the iteration 0.5. *)
Definition replyWithIterationHalf : AgentServiceResponse :=
  {| rp_reply := "Half way."; rp_action := Some noAction;
     rp_state :=
       Some {| rs_state := None; rs_iteration := Some (Finite (1 # 2));
               rs_sessionActive := None; rs_goalPreviewId := None |};
     rp_context := None |}.

(** Scenario A: a new user with the default budget and no goal asks for
    a goal of 25 hours. *)
Definition worldOfNewUser : World :=
  {| users := users sampleWorld; goals := []; milestones := []; tasks := [];
     sessions := ∅; chats := ∅; chatMessages := []; previews := ∅;
     agentCalls := [] |}.



Definition goalOf25Hours : PostGoalBody :=
  {| pg_title := JStr "Run a marathon"; pg_description := JNull;
     pg_minHoursPerWeek := JNum 25%Q; pg_priority := JNum 1%Q;
     pg_color := JUndefined |}.

(** ** [repositories/goalPreviewRepository.ts]: lookup *)

Definition findGoalPreviewById (id : string) : M (option GoalPreviewRecord) :=
  let* w := get in
  ret (mapPreview id <$> previews w !! id).

(** ** [index.ts]: task hours *)

Record TaskHours : Type := {
  totalTaskHours : Q;
  doneTaskHours : Q;
}.

(** [Number(x) || 0] on a number. *)
Definition numberOr0 (x : Q) : Q := if Qeq_bool x 0%Q then 0%Q else x.

Definition summarizeTaskHours (ts : list TaskRecord) : TaskHours :=
  fold_left
    (fun accumulator task =>
       let hours := numberOr0 (task_estimatedHours task) in
       {| totalTaskHours := Qplus (totalTaskHours accumulator) hours;
          doneTaskHours :=
            if task_done task
            then Qplus (doneTaskHours accumulator) hours
            else doneTaskHours accumulator |})
    ts
    {| totalTaskHours := 0%Q; doneTaskHours := 0%Q |}.

(** ** [services/tokenService.ts] and [middleware/auth.ts] *)

(** What [jwt.verify] does with a token and a secret: it throws, or it
    returns the decoded payload. *)
Inductive JwtVerifyOutcome : Type :=
| JwtRejected
| JwtDecoded (payload : jsval).

Record AuthEnv : Type := {
  auth_jwtSecret : option string;
  auth_jwtVerify : string -> string -> JwtVerifyOutcome;
}.

Record JwtClaims : Type := {
  claim_userId : jsval;
  claim_email : jsval;
}.

Definition getJwtSecret (a : AuthEnv) : Result string :=
  match auth_jwtSecret a with
  | Some secret =>
      if String.eqb secret ""
      then Throw (Api {| status := 500;
                         message := [Txt "JWT secret not configured."];
                         details := NoDetails |})
      else Ok secret
  | None => Throw (Api {| status := 500;
                          message := [Txt "JWT secret not configured."];
                          details := NoDetails |})
  end.

(** [k in v] on an object; an array has no such key. *)
Definition has_key (fields : list (string * jsval)) (k : string) : bool :=
  existsb (fun kv => String.eqb (fst kv) k) fields.

Definition INVALID_TOKEN : ApiError :=
  {| status := 401; message := [Txt "Invalid session token."];
     details := NoDetails |}.

Definition INVALID_OR_EXPIRED_TOKEN : ApiError :=
  {| status := 401; message := [Txt "Invalid or expired session token."];
     details := NoDetails |}.

Definition verifyJwt (a : AuthEnv) (token : string) : Result JwtClaims :=
  match getJwtSecret a with
  | Throw f => Throw f
  | Ok secret =>
      match auth_jwtVerify a token secret with
      | JwtRejected => Throw (Api INVALID_OR_EXPIRED_TOKEN)
      | JwtDecoded payload =>
          match payload with
          | JObj fields =>
              if has_key fields "userId" && has_key fields "email"
              then Ok {| claim_userId := assoc_get fields "userId";
                         claim_email := assoc_get fields "email" |}
              else Throw (Api INVALID_TOKEN)
          | JArr _ => Throw (Api INVALID_TOKEN)
          | JNull => Throw (Api INVALID_OR_EXPIRED_TOKEN)
          | _ => Throw (Api INVALID_TOKEN)
          end
      end
  end.

(** [s.slice(n)] *)
Definition slice_from (n : nat) (s : string) : string :=
  substring n (String.length s - n) s.

(** [header?.startsWith('Bearer ') ? header.slice('Bearer '.length)
     : undefined] *)
Definition bearerToken (authorization : option string) : option string :=
  match authorization with
  | Some header =>
      if String.prefix "Bearer " header
      then Some (slice_from (String.length "Bearer ") header)
      else None
  | None => None
  end.

(** The middleware either hands the request on, with [req.user] set, or
    answers it. *)
Inductive MiddlewareOutcome : Type :=
| CallNext (userId email : jsval)
| Respond (httpStatus code : Z) (text : string).

Definition authMiddleware (a : AuthEnv) (authorization : option string)
    : MiddlewareOutcome :=
  let attempt : Result JwtClaims :=
    match bearerToken authorization with
    | Some token =>
        if String.eqb token ""
        then Throw (Api {| status := 401; message := [Txt "Unauthorized"];
                           details := NoDetails |})
        else verifyJwt a token
    | None => Throw (Api {| status := 401; message := [Txt "Unauthorized"];
                            details := NoDetails |})
    end in
  match attempt with
  | Ok claims => CallNext (claim_userId claims) (claim_email claims)
  | Throw f =>
      let st := match f with Api e => status e | Untyped _ => 401 end in
      Respond st st "Unauthorized"
  end.

(** ** Vocabulary of the further properties *)

(** [respects R c]: whatever its outcome, [c] takes a store to a store
    that [R] relates to it. *)
Definition respects (R : World -> World -> Prop) {A} (c : M A) : Prop :=
  forall env w out w', c env w = (out, w') -> R w w'.

(** The transcript has only grown: what was there is still there, in
    front and in order. *)
Definition transcriptGrows (w w' : World) : Prop :=
  chatMessages w `prefix_of` chatMessages w'.

(** Users, goals, milestones and tasks are as they were. *)
Definition sameResources (w w' : World) : Prop :=
  users w' = users w /\ goals w' = goals w
  /\ milestones w' = milestones w /\ tasks w' = tasks w.

(** [atomic c]: when [c] throws it has written nothing. *)
Definition atomic {A} (c : M A) : Prop :=
  forall env w f w', c env w = (Throw f, w') -> w' = w.

(** A stored session that counts for [findLatestActiveSession]. *)
Definition activeSessionDocOf (userId : string) (d : SessionDoc) : Prop :=
  sd_userId d = userId /\ sd_sessionActive d = Some true.

(** Only the conversation moved: the transcript grew and users, goals,
    milestones and tasks are as they were. *)
Definition conversationOnly (w w' : World) : Prop :=
  transcriptGrows w w' /\ sameResources w w'.

(** The sessions, the chats, the transcript and the previews are as they
    were, and no request went to the agent. *)
Definition sameConversation (w w' : World) : Prop :=
  sessions w' = sessions w /\ chats w' = chats w
  /\ chatMessages w' = chatMessages w /\ previews w' = previews w
  /\ agentCalls w' = agentCalls w.

(** No request went to the agent. *)
Definition sameCalls (w w' : World) : Prop := agentCalls w' = agentCalls w.

(** The milestone is stored, and the goal it belongs to is stored and
    owned by the user: what [assertOwnedMilestone] lets through. *)
Definition ownedMilestone (w : World) (userId : string) (m : MilestoneRecord)
    : Prop :=
  List.find (fun x => String.eqb (ms_id x) (ms_id m)) (milestones w) = Some m
  /\ exists g,
       List.find (fun x => String.eqb (goal_id x) (ms_goalId m)) (goals w)
       = Some g
       /\ goal_userId g = userId.

(** The fields of a task that no update replaces. *)
Definition sameTaskIdentity (t t' : TaskRecord) : Prop :=
  task_id t' = task_id t /\ task_goalId t' = task_goalId t
  /\ task_milestoneId t' = task_milestoneId t
  /\ task_userId t' = task_userId t /\ task_createdAt t' = task_createdAt t.

(** ** Signing in: [POST /v1/auth/google] *)

(** [findUserByEmail]: the first document of the query on [email], in the
    order of the store. *)
Definition findUserByEmail (email : string) : M (option UserRecord) :=
  let* w := get in
  ret ((fun entry => mapUser (fst entry) (snd entry))
         <$> List.find (fun entry => String.eqb (ud_email (snd entry)) email)
               (map_to_list (users w))).

Record CreateUserInput : Type := {
  cu_email : string;
  cu_name : option string;
  cu_profileImageUrl : option string;
  cu_timezone : option string;
  cu_availableHoursPerWeek : option Q;
  cu_googleSub : string;
}.

(** [createUser]; [id] is the id of [db.collection(COLLECTION).doc()]. *)
Definition createUser (id : string) (input : CreateUserInput) : M UserRecord :=
  let* env := ask in
  let now := env_now env in
  let doc := {| ud_email := cu_email input;
                ud_name := Some (default "" (cu_name input));
                ud_profileImageUrl := cu_profileImageUrl input;
                ud_timezone := Some (default "UTC" (cu_timezone input));
                ud_availableHoursPerWeek :=
                  Some (default 20%Q (cu_availableHoursPerWeek input));
                ud_createdAt := now;
                ud_updatedAt := now;
                ud_googleSub := Some (cu_googleSub input) |} in
  let* _ := modify (set_users (fun m => <[id := doc]> m)) in
  ret {| user_id := id;
         user_email := cu_email input;
         user_name := default "" (cu_name input);
         user_profileImageUrl := cu_profileImageUrl input;
         user_timezone := default "UTC" (cu_timezone input);
         user_availableHoursPerWeek :=
           default 20%Q (cu_availableHoursPerWeek input);
         user_createdAt := now;
         user_updatedAt := now;
         user_googleSub := cu_googleSub input |}.

(** The payload of a Google ID token. *)
Record TokenPayload : Type := {
  tp_sub : option string;
  tp_email : option string;
  tp_email_verified : bool;
  tp_name : option string;
  tp_picture : option string;
}.

(** What [client.verifyIdToken] and [ticket.getPayload] can do. *)
Inductive IdTokenOutcome : Type :=
| IdTokenRejected
| IdTokenNoPayload
| IdTokenPayload (payload : TokenPayload).

Record GoogleProfile : Type := {
  profile_sub : string;
  profile_email : string;
  profile_emailVerified : bool;
  profile_name : option string;
  profile_picture : option string;
}.

(** What signing in reads besides the store: the JWT secret, the library
    that signs, the Google client id and verifier, and the id of the next
    user document. *)
Record SignInEnv : Type := {
  si_auth : AuthEnv;
  si_jwtSign : string -> string -> string -> string;
  si_googleClientId : option string;
  si_verifyIdToken : string -> string -> IdTokenOutcome;
  si_newUserId : string;
}.

Definition INVALID_GOOGLE_TOKEN : ApiError :=
  {| status := 401; message := [Txt "Invalid or expired Google ID token."];
     details := NoDetails |}.

(** [!s] on an optional string. *)
Definition missing (s : option string) : bool :=
  match s with
  | Some x => String.eqb x ""
  | None => true
  end.

Definition verifyGoogleIdToken (e : SignInEnv) (idToken : string)
    : Result GoogleProfile :=
  if missing (si_googleClientId e)
  then Throw (Api {| status := 500;
                     message := [Txt "Google client ID not configured."];
                     details := NoDetails |})
  else
    match si_verifyIdToken e idToken (default "" (si_googleClientId e)) with
    | IdTokenRejected | IdTokenNoPayload => Throw (Api INVALID_GOOGLE_TOKEN)
    | IdTokenPayload payload =>
        if missing (tp_email payload) || missing (tp_sub payload)
        then Throw (Api INVALID_GOOGLE_TOKEN)
        else Ok {| profile_sub := default "" (tp_sub payload);
                   profile_email := default "" (tp_email payload);
                   profile_emailVerified := tp_email_verified payload;
                   profile_name := tp_name payload;
                   profile_picture := tp_picture payload |}
    end.

(** [signJwt({ userId, email })] *)
Definition signJwt (e : SignInEnv) (userId email : string) : Result string :=
  match getJwtSecret (si_auth e) with
  | Ok secret => Ok (si_jwtSign e userId email secret)
  | Throw f => Throw f
  end.

(** [email.split('@')[0]] *)
Fixpoint beforeAt (s : string) : string :=
  match s with
  | EmptyString => EmptyString
  | String c rest =>
      if Ascii.eqb c "@"%char then EmptyString else String c (beforeAt rest)
  end.

(** A result that is at hand, as a step of a handler. *)
Definition liftResult {A} (r : Result A) : M A := fun _ w => (r, w).

(** The [updates] of a sign-in by a known user. *)
Definition signInUpdates (profile : GoogleProfile) : UpdateUserInput :=
  {| uu_name :=
       match profile_name profile with
       | Some name =>
           if negb (String.eqb name "")
              && (0 <? Z.of_nat (String.length (trim name)))
           then Some name else None
       | None => None
       end;
     uu_profileImageUrl :=
       match profile_picture profile with
       | Some picture =>
           if String.eqb picture "" then None else Some (Some picture)
       | None => None
       end;
     uu_timezone := None;
     uu_availableHoursPerWeek := None;
     uu_googleSub := Some (profile_sub profile) |}.

Definition post_auth_google (e : SignInEnv) (idToken : jsval)
    : M (Z * string * UserRecord) :=
  let* idToken := assertSome (nonblank_string idToken) 400
                    [Txt "idToken is required."] in
  let* profile := liftResult (verifyGoogleIdToken e idToken) in
  let* _ := assert (profile_emailVerified profile) 403
              [Txt "Google account email not verified."] in
  let* found := findUserByEmail (profile_email profile) in
  let* (user, statusCode) :=
    match found with
    | None =>
        let derivedName :=
          match profile_name profile with
          | Some name => trim name
          | None => beforeAt (profile_email profile)
          end in
        let* user :=
          createUser (si_newUserId e)
            {| cu_email := profile_email profile;
               cu_name := Some derivedName;
               cu_profileImageUrl := profile_picture profile;
               cu_timezone := Some "UTC";
               cu_availableHoursPerWeek := Some 20%Q;
               cu_googleSub := profile_sub profile |} in
        ret (user, 201)
    | Some user =>
        let* _ := updateUser (user_id user) (signInUpdates profile) in
        let* again := findUserById (user_id user) in
        match again with
        | Some user => ret (user, 200)
        | None => throw (Untyped "TypeError")
        end
    end in
  let* token := liftResult (signJwt e (user_id user) (user_email user)) in
  ret (statusCode, token, user).

(** No two user documents carry the same email. *)
Definition uniqueEmails (w : World) : Prop :=
  forall k1 k2 d1 d2,
    users w !! k1 = Some d1 -> users w !! k2 = Some d2 ->
    ud_email d1 = ud_email d2 -> k1 = k2.

(** The Google account behind an ID token, as the verifier reads it. *)
Definition signsInAs (e : SignInEnv) (idToken : jsval)
    (profile : GoogleProfile) : Prop :=
  exists token,
    nonblank_string idToken = Some token
    /\ verifyGoogleIdToken e token = Ok profile
    /\ profile_emailVerified profile = true.

(** ** Sample data of the further properties *)

(** A preview stored for the sample session. *)
Definition samplePreview : GoalPreviewRecord :=
  {| gp_id := "p9"; gp_userId := "u1"; gp_sessionId := "s1";
     gp_data := JObj [("title", JStr "Portfolio")];
     gp_createdAt := 0; gp_updatedAt := 0 |}.

Definition worldWithPreview : World :=
  set_previews (fun m => <["p9" := samplePreview]> m) sampleWorld.

(** A new payload for the stored preview, sent by another session. *)
Definition previewUpdate : UpsertGoalPreviewInput :=
  {| ug_id := Some "p9"; ug_userId := "u2"; ug_sessionId := "s7";
     ug_data := JObj [("title", JStr "Portfolio, second draft")] |}.

(** A payload that names no preview. *)
Definition previewWithoutId : UpsertGoalPreviewInput :=
  {| ug_id := None; ug_userId := "u1"; ug_sessionId := "s1";
     ug_data := JObj [("title", JStr "Portfolio")] |}.

Definition sampleSessionInput : CreateSessionInput :=
  {| cs_userId := "u1"; cs_context := sampleContext |}.

(** The sample world with no task yet. *)
Definition worldWithoutTasks : World := set_tasks (fun _ => []) sampleWorld.

Definition renameToAnnB : PatchMeBody :=
  {| pm_name := JStr "Ann B."; pm_timezone := JUndefined;
     pm_availableHoursPerWeek := JUndefined;
     pm_profileImageUrl := JUndefined |}.

(** A token library that writes the user id as the token and reads it
    back with the email of the sample user. *)
Definition sampleAuthEnv : AuthEnv :=
  {| auth_jwtSecret := Some "secret";
     auth_jwtVerify :=
       fun token _ =>
         JwtDecoded (JObj [("userId", JStr token);
                           ("email", JStr "ann@example.org")]) |}.

Definition bobsPayload : TokenPayload :=
  {| tp_sub := Some "sub-2"; tp_email := Some "bob@example.org";
     tp_email_verified := true; tp_name := Some " Bob ";
     tp_picture := None |}.

Definition bobsProfile : GoogleProfile :=
  {| profile_sub := "sub-2"; profile_email := "bob@example.org";
     profile_emailVerified := true; profile_name := Some " Bob ";
     profile_picture := None |}.

Definition sampleSignInEnv : SignInEnv :=
  {| si_auth := sampleAuthEnv;
     si_jwtSign := fun userId _ _ => userId;
     si_googleClientId := Some "client-1";
     si_verifyIdToken := fun _ _ => IdTokenPayload bobsPayload;
     si_newUserId := "u2" |}.

(** ** [PATCH /v1/goals/:goalId] *)

Record UpdateGoalInput : Type := {
  gu_title : option string;
  gu_description : option (option string);
  gu_status : option GoalStatus;
  gu_minHoursPerWeek : option Q;
  gu_priority : option Q;
  gu_color : option (option Q);
}.

Definition applyGoalUpdate (now : Timestamp) (u : UpdateGoalInput)
    (g : GoalRecord) : GoalRecord :=
  {| goal_id := goal_id g;
     goal_userId := goal_userId g;
     goal_title := default (goal_title g) (gu_title u);
     goal_description := default (goal_description g) (gu_description u);
     goal_status := default (goal_status g) (gu_status u);
     goal_minHoursPerWeek :=
       default (goal_minHoursPerWeek g) (gu_minHoursPerWeek u);
     goal_priority := default (goal_priority g) (gu_priority u);
     goal_color := default (goal_color g) (gu_color u);
     goal_createdAt := goal_createdAt g;
     goal_updatedAt := now |}.

(** Modelled from the spec: [updateGoal] of the goal repository, which is
    not part of the sources at hand.  The given fields of the goal with
    that id are replaced. *)
Definition updateGoal (id : string) (updates : UpdateGoalInput)
    : M GoalRecord :=
  let* env := ask in
  let* found := getGoalById id in
  match found with
  | None => throwApi 404 [Txt "Goal not found."] NoDetails
  | Some g =>
      let* _ :=
        modify (set_goals
                  (List.map (fun x =>
                     if String.eqb (goal_id x) id
                     then applyGoalUpdate (env_now env) updates x else x))) in
      ret (applyGoalUpdate (env_now env) updates g)
  end.

(** Modelled from the spec: the statuses [GOAL_STATUSES] of
    [types/models], which is not part of the sources at hand.
    [isValidGoalStatus] takes a string that names one of them. *)
Definition goalStatusOf (v : jsval) : option GoalStatus :=
  match v with
  | JStr s =>
      if String.eqb s "active" then Some active
      else if String.eqb s "completed" then Some completed
      else if String.eqb s "paused" then Some paused
      else if String.eqb s "archived" then Some archived
      else None
  | _ => None
  end.

Record PatchGoalBody : Type := {
  gb_title : jsval;
  gb_description : jsval;
  gb_status : jsval;
  gb_minHoursPerWeek : jsval;
  gb_priority : jsval;
  gb_color : jsval;
}.

Definition noGoalUpdate : UpdateGoalInput :=
  {| gu_title := None; gu_description := None; gu_status := None;
     gu_minHoursPerWeek := None; gu_priority := None; gu_color := None |}.

(** [color === null || (typeof color === 'number' && Number.isFinite(color))] *)
Definition null_or_number (v : jsval) : bool :=
  match v with JNull | JNum _ => true | _ => false end.

Definition patch_goal (auth : option string) (goalId : string)
    (body : PatchGoalBody) : M GoalRecord :=
  let* userId := requireUser auth in
  let* goal := assertOwnedGoal goalId userId in
  let updates := noGoalUpdate in
  let hasUpdate := false in
  let* (updates, hasUpdate) :=
    if is_undefined (gb_title body) then ret (updates, hasUpdate)
    else
      let* title := assertSome (nonblank_string (gb_title body)) 400
                      [Txt "Invalid title."] in
      ret ({| gu_title := Some (trim title);
              gu_description := gu_description updates;
              gu_status := gu_status updates;
              gu_minHoursPerWeek := gu_minHoursPerWeek updates;
              gu_priority := gu_priority updates;
              gu_color := gu_color updates |}, true) in
  let* (updates, hasUpdate) :=
    if is_undefined (gb_description body) then ret (updates, hasUpdate)
    else
      let* _ := assert (null_or_string (gb_description body)) 400
                  [Txt "description must be a string or null."] in
      ret ({| gu_title := gu_title updates;
              gu_description := Some (optional_text (gb_description body));
              gu_status := gu_status updates;
              gu_minHoursPerWeek := gu_minHoursPerWeek updates;
              gu_priority := gu_priority updates;
              gu_color := gu_color updates |}, true) in
  let* (updates, hasUpdate) :=
    if is_undefined (gb_status body) then ret (updates, hasUpdate)
    else
      let* status := assertSome (goalStatusOf (gb_status body)) 400
                       [Txt "Invalid goal status."] in
      ret ({| gu_title := gu_title updates;
              gu_description := gu_description updates;
              gu_status := Some status;
              gu_minHoursPerWeek := gu_minHoursPerWeek updates;
              gu_priority := gu_priority updates;
              gu_color := gu_color updates |}, true) in
  let* (updates, hasUpdate) :=
    if is_undefined (gb_minHoursPerWeek body) then ret (updates, hasUpdate)
    else
      let* minHoursPerWeek :=
        assertSome (nonNegativeNumber (gb_minHoursPerWeek body)) 400
          [Txt "minHoursPerWeek must be a non-negative number."] in
      ret ({| gu_title := gu_title updates;
              gu_description := gu_description updates;
              gu_status := gu_status updates;
              gu_minHoursPerWeek := Some minHoursPerWeek;
              gu_priority := gu_priority updates;
              gu_color := gu_color updates |}, true) in
  let* (updates, hasUpdate) :=
    if is_undefined (gb_priority body) then ret (updates, hasUpdate)
    else
      let* priority := assertSome (integerNumber (gb_priority body)) 400
                         [Txt "priority must be an integer."] in
      ret ({| gu_title := gu_title updates;
              gu_description := gu_description updates;
              gu_status := gu_status updates;
              gu_minHoursPerWeek := gu_minHoursPerWeek updates;
              gu_priority := Some priority;
              gu_color := gu_color updates |}, true) in
  let* (updates, hasUpdate) :=
    if is_undefined (gb_color body) then ret (updates, hasUpdate)
    else
      let* _ := assert (null_or_number (gb_color body)) 400
                  [Txt "color must be a number or null."] in
      ret ({| gu_title := gu_title updates;
              gu_description := gu_description updates;
              gu_status := gu_status updates;
              gu_minHoursPerWeek := gu_minHoursPerWeek updates;
              gu_priority := gu_priority updates;
              gu_color := Some (finiteNumber (gb_color body)) |}, true) in
  let* _ := assert hasUpdate 400 [Txt "No updatable fields provided."] in
  let* found := findUserById userId in
  let* user := assertSome found 404 [Txt "User not found."] in
  let nextStatus := default (goal_status goal) (gu_status updates) in
  let nextHours :=
    default (goal_minHoursPerWeek goal) (gu_minHoursPerWeek updates) in
  let* _ :=
    if GoalStatus_eqb nextStatus active
    then
      let* otherHours := sumActiveGoalHours userId (Some (goal_id goal)) in
      let totalHours := js_add otherHours nextHours in
      if js_lt (user_availableHoursPerWeek user) totalHours
      then
        let* conflicts :=
          collectActiveGoalSummaries userId (Some (goal_id goal)) in
        throwApi 409
          (insufficientForActive (user_availableHoursPerWeek user) totalHours)
          (BudgetDetails (user_availableHoursPerWeek user) totalHours
             (conflicts ++ [{| gs_goalId := goal_id goal;
                               gs_title := goal_title goal;
                               gs_weeklyHours := nextHours |}]))
      else ret tt
    else ret tt in
  updateGoal (goal_id goal) updates.

(** *** Vocabulary and sample data of [PATCH /v1/goals/:goalId] *)





(** The sample goal at 25 hours a week. *)
Definition raiseTo25Hours : PatchGoalBody :=
  {| gb_title := JUndefined; gb_description := JUndefined;
     gb_status := JUndefined; gb_minHoursPerWeek := JNum 25%Q;
     gb_priority := JUndefined; gb_color := JUndefined |}.

(** * Properties *)

(** ** Running a handler *)

Lemma bind_ok {A B} (c : M A) (k : A -> M B) env w a w1 :
  c env w = (Ok a, w1) -> bind c k env w = k a env w1.
Proof. intros H. unfold bind. now rewrite H. Qed.

Lemma bind_throw {A B} (c : M A) (k : A -> M B) env w f w1 :
  c env w = (Throw f, w1) -> bind c k env w = (Throw f, w1).
Proof. intros H. unfold bind. now rewrite H. Qed.

Lemma bind_inv_ok {A B} (c : M A) (k : A -> M B) env w b w' :
  bind c k env w = (Ok b, w') ->
  exists a w1, c env w = (Ok a, w1) /\ k a env w1 = (Ok b, w').
Proof.
  unfold bind. destruct (c env w) as [[a | f] w1]; intros H.
  - exists a, w1. split; [reflexivity | exact H].
  - discriminate H.
Qed.

Lemma bind_bind {A B C} (c : M A) (k1 : A -> M B) (k2 : B -> M C) env w :
  bind (bind c k1) k2 env w = bind c (fun a => bind (k1 a) k2) env w.
Proof. unfold bind. now destruct (c env w) as [[a | f] w1]. Qed.

Lemma bind_inv {A B} (c : M A) (k : A -> M B) env w out w' :
  bind c k env w = (out, w') ->
  (exists f, c env w = (Throw f, w') /\ out = Throw f)
  \/ (exists a w1, c env w = (Ok a, w1) /\ k a env w1 = (out, w')).
Proof.
  unfold bind. destruct (c env w) as [[a | f] w1]; intros H.
  - right. eauto.
  - left. inversion H; subst. eauto.
Qed.

Lemma requireUser_ok userId env w :
  String.eqb userId "" = false ->
  requireUser (Some userId) env w = (Ok userId, w).
Proof. intros H. unfold requireUser, bind, assert. now rewrite H. Qed.

Lemma requireUser_inv auth env w userId w1 :
  requireUser auth env w = (Ok userId, w1) ->
  auth = Some userId /\ String.eqb userId "" = false /\ w1 = w.
Proof.
  unfold requireUser, bind, assert, ret, throwApi, throw.
  destruct auth as [u |]; [| discriminate].
  destruct (String.eqb u "") eqn:E; cbn; [discriminate |].
  intros H. inversion H; subst. auto.
Qed.

Lemma assertSome_inv {A} (o : option A) st msg env w a w1 :
  assertSome o st msg env w = (Ok a, w1) -> o = Some a /\ w1 = w.
Proof.
  unfold assertSome, ret, throwApi, throw. destruct o; [| discriminate].
  intros H. inversion H; subst. auto.
Qed.

Lemma assert_inv c st msg env w u w1 :
  assert c st msg env w = (Ok u, w1) -> c = true /\ w1 = w.
Proof.
  unfold assert, ret, throwApi, throw. destruct c; [| discriminate].
  intros H. inversion H; subst. auto.
Qed.

(** ** Comparisons and the maximum *)



(** ** Strings and numbers at work *)

(** [trim] removes the white space of Unicode at both ends, the no-break
    space, the ideographic space and the byte order mark among it, and
    keeps what is inside; the zero width space U+200B is no white
    space. *)
Example trim_unicode :
  trim (String (ascii_of_N 239) (String (ascii_of_N 187)
          (String (ascii_of_N 191) " a b "
           ++ String (ascii_of_N 227) (String (ascii_of_N 128)
                (String (ascii_of_N 128) noBreakSpace)))))
  = "a b"
  /\ trim (String (ascii_of_N 226) (String (ascii_of_N 128)
             (String (ascii_of_N 139) " x")))
     = String (ascii_of_N 226) (String (ascii_of_N 128)
         (String (ascii_of_N 139) " x")).
Proof. vm_compute. split; reflexivity. Qed.

(** The sums of doubles: [0.1 + 0.2] is [0.30000000000000004]; [2 ^ 53 + 1]
    is [2 ^ 53]; [2 ^ 53 + 2 + 1] is [2 ^ 53 + 4]; [1 + 2 ^ -60] is 1;
    [2 ^ 1023 + 2 ^ 1023] is [Infinity]. *)
Example sums_of_doubles :
  js_add (Finite (3602879701896397 # 36028797018963968)) (Finite (3602879701896397 # 18014398509481984)) = Finite (1351079888211149 # 4503599627370496)
  /\ js_add (integer (2 ^ 53)) (integer 1) = integer (2 ^ 53)
  /\ js_add (integer (2 ^ 53 + 2)) (integer 1) = integer (2 ^ 53 + 4)
  /\ js_add (integer 1) (Finite (1 # 1152921504606846976)) = integer 1
  /\ js_add (integer (2 ^ 1023)) (integer (2 ^ 1023)) = PosInfinity.
Proof. vm_compute. repeat split; reflexivity. Qed.

(** ** Double precision *)

Lemma Qred_integer (z : Z) : Qred (z # 1) = (z # 1)%Q.
Proof.
  unfold Qred.
  pose proof (Z.ggcd_gcd z 1) as Hg.
  pose proof (Z.ggcd_correct_divisors z 1) as Hd.
  destruct (Z.ggcd z 1) as [g [aa bb]]. cbn [fst snd] in *.
  rewrite Z.gcd_1_r in Hg. subst g. destruct Hd as [Ha Hb].
  rewrite Z.mul_1_l in Ha, Hb. subst. reflexivity.
Qed.

Lemma round_half_even_exact (m d : Z) :
  0 < d -> round_half_even (m * d) d = m.
Proof.
  intros Hd. unfold round_half_even.
  rewrite Z.mod_mul by lia. rewrite Z.div_mul by lia.
  destruct (Z.compare_spec (2 * 0) d); [lia | reflexivity | lia].
Qed.

Lemma ilog2_integer (a : Z) : 0 < a -> ilog2 a 1 = Z.log2 a.
Proof.
  intros Ha. unfold ilog2.
  change (Z.log2 1) with 0. rewrite Z.sub_0_r.
  pose proof (Z.log2_nonneg a) as Hn.
  pose proof (Z.log2_spec a Ha) as [Hlo _].
  replace (0 <=? Z.log2 a) with true by (symmetry; apply Z.leb_le; lia).
  replace (1 * 2 ^ Z.log2 a <=? a) with true; [reflexivity |].
  symmetry. apply Z.leb_le. lia.
Qed.

(** A positive integer up to [2 ^ 53] is a double. *)
Lemma nearestDouble_integer (a : Z) :
  0 < a <= 2 ^ 53 -> nearestDouble a 1 = Finite (a # 1).
Proof.
  intros [Hlo Hhi]. unfold nearestDouble. cbv zeta.
  rewrite (ilog2_integer a Hlo).
  pose proof (Z.log2_nonneg a) as Hn.
  pose proof (Z.log2_spec a Hlo) as [Hle Hlt].
  assert (He : Z.log2 a <= 53).
  { rewrite <- (Z.log2_pow2 53) by lia. now apply Z.log2_le_mono. }
  rewrite Z.max_l by lia.
  set (e := Z.log2 a) in *.
  destruct (0 <=? e - 52) eqn:Ek.
  - apply Z.leb_le in Ek.
    assert (Hdiv : exists m, a = m * (1 * 2 ^ (e - 52))).
    { assert (e = 52 \/ e = 53) as [-> | ->] by lia.
      - exists a. change (2 ^ (52 - 52)) with 1. lia.
      - exists (2 ^ 52). change (2 ^ (53 - 52)) with 2.
        change (2 ^ (53)) with 9007199254740992 in *.
        change (2 ^ 52) with 4503599627370496. lia. }
    destruct Hdiv as [m Hm].
    assert (Hpos : 0 < 1 * 2 ^ (e - 52)).
    { rewrite Z.mul_1_l. apply Z.pow_pos_nonneg; lia. }
    assert (Hr : round_half_even a (1 * 2 ^ (e - 52)) = m)
      by (rewrite Hm; now apply round_half_even_exact).
    rewrite Hr.
    rewrite Z.mul_1_l in Hm. rewrite <- Hm.
    replace (2 ^ 1024 <=? a) with false.
    + unfold inject_Z. now rewrite Qred_integer.
    + symmetry. apply Z.leb_gt.
      apply Z.le_lt_trans with (2 ^ 53); [exact Hhi |].
      apply Z.pow_lt_mono_r; lia.
  - apply Z.leb_gt in Ek.
    assert (Hpos : 0 < 2 ^ (- (e - 52))) by (apply Z.pow_pos_nonneg; lia).
    replace (a * 2 ^ (- (e - 52))) with ((a * 2 ^ (- (e - 52))) * 1) by lia.
    rewrite round_half_even_exact by lia.
    rewrite <- (Qred_integer a). f_equal. apply Qred_complete.
    unfold Qeq. cbn [Qnum Qden]. rewrite Z2Pos.id by exact Hpos. lia.
Qed.

Lemma round64_integer (z : Z) :
  - 2 ^ 53 <= z <= 2 ^ 53 -> round64 (inject_Z z) = Finite (inject_Z z).
Proof.
  intros Hz. unfold round64, inject_Z. cbn [Qnum Qden].
  destruct z as [| p | p]; [reflexivity | |].
  - apply nearestDouble_integer. lia.
  - rewrite nearestDouble_integer by lia. reflexivity.
Qed.

(** The sum of an integer and 1 is exact as long as both are safe
    integers. *)
Lemma js_add_integer (n : Z) :
  - 2 ^ 53 <= n < 2 ^ 53 -> js_add (integer n) (integer 1) = integer (n + 1).
Proof.
  intros Hn. unfold js_add, integer.
  replace (inject_Z n + inject_Z 1)%Q with (inject_Z (n + 1)).
  - apply round64_integer. lia.
  - unfold inject_Z, Qplus. cbn [Qnum Qden]. f_equal. lia.
Qed.

Lemma js_le_integer (a b : Z) : a <= b -> js_le (integer a) (integer b) = true.
Proof.
  intros H. unfold js_le, integer, num_le. apply Qle_bool_iff.
  now rewrite <- Zle_Qle.
Qed.

(** *** Rounding and order *)

Lemma round_half_even_floor (N D c : Z) :
  0 < D -> c * D <= N -> c <= round_half_even N D.
Proof.
  intros HD Hc. unfold round_half_even.
  assert (c <= N / D) by (apply Z.div_le_lower_bound; lia).
  destruct (2 * (N mod D) ?= D); [destruct (Z.even (N / D)) | |]; lia.
Qed.

Lemma round_half_even_ceil (N D c : Z) :
  0 < D -> N <= c * D -> round_half_even N D <= c.
Proof.
  intros HD Hc. unfold round_half_even.
  pose proof (Z.div_mod N D ltac:(lia)) as Hdm.
  pose proof (Z.mod_pos_bound N D HD) as Hm.
  assert (N / D <= c) by (apply Z.div_le_upper_bound; lia).
  destruct (Z.eq_dec (N mod D) 0) as [E | E].
  - rewrite E. destruct (Z.compare_spec (2 * 0) D); lia.
  - assert (N / D < c) by nia.
    destruct (2 * (N mod D) ?= D); [destruct (Z.even (N / D)) | |]; lia.
Qed.

Lemma pow2_split (a b : Z) : 0 <= a -> 0 <= b -> 2 ^ (a + b) = 2 ^ a * 2 ^ b.
Proof. intros. now apply Z.pow_add_r. Qed.

Lemma pow2_pos (a : Z) : 0 <= a -> 0 < 2 ^ a.
Proof. intros. now apply Z.pow_pos_nonneg. Qed.

Lemma cancel_le (a b p : Z) : 0 < p -> a * p <= b * p -> a <= b.
Proof. intros Hp H. now apply Z.mul_le_mono_pos_r in H. Qed.

(** [2 ^ ilog2 n d <= n / d] *)
Lemma ilog2_lower (n dn : Z) :
  0 < n -> 0 < dn -> - 1074 <= ilog2 n dn ->
  dn * 2 ^ (ilog2 n dn + 1074) <= n * 2 ^ 1074.
Proof.
  intros Hn Hd. unfold ilog2.
  pose proof (Z.log2_nonneg n) as Hln. pose proof (Z.log2_nonneg dn) as Hld.
  pose proof (Z.log2_spec n Hn) as [Hn1 _].
  pose proof (Z.log2_spec dn Hd) as [_ Hd2].
  rewrite <- Z.add_1_r in Hd2.
  set (ln := Z.log2 n) in *. set (ld := Z.log2 dn) in *.
  set (k := ln - ld).
  pose proof (pow2_pos 1074 ltac:(lia)) as Hp.
  assert (Hdown : - 1074 <= k - 1 ->
                  dn * 2 ^ (k - 1 + 1074) <= n * 2 ^ 1074).
  { intros He.
    assert (2 ^ ln * 2 ^ 1074 = 2 ^ (ld + 1) * 2 ^ (k - 1 + 1074)).
    { rewrite <- !pow2_split by lia. f_equal. lia. }
    pose proof (pow2_pos (k - 1 + 1074) ltac:(lia)). nia. }
  destruct (0 <=? k) eqn:Ek.
  - apply Z.leb_le in Ek.
    destruct (dn * 2 ^ k <=? n) eqn:Et; [| exact Hdown].
    apply Z.leb_le in Et. intros _.
    rewrite (pow2_split k 1074) by lia. nia.
  - apply Z.leb_gt in Ek.
    destruct (dn <=? n * 2 ^ (- k)) eqn:Et; [| exact Hdown].
    apply Z.leb_le in Et. intros He.
    assert (2 ^ 1074 = 2 ^ (- k) * 2 ^ (k + 1074)).
    { rewrite <- pow2_split by lia. f_equal. lia. }
    pose proof (pow2_pos (k + 1074) ltac:(lia)). nia.
Qed.

(** The double nearest to [n / d] is [m * 2 ^ k] for the integer [m]
    nearest to [n / d / 2 ^ k] on the grid of the doubles around [n / d].
    Everything is scaled by [2 ^ 1074], which makes every grid step an
    integer. *)
Lemma nearestDouble_grid (n dn : Z) :
  0 < n -> 0 < dn ->
  exists m k,
    0 <= m /\ - 1074 <= k
    /\ (forall c, c * 2 ^ (k + 1074) * dn <= n * 2 ^ 1074 -> c <= m)
    /\ (forall c, n * 2 ^ 1074 <= c * 2 ^ (k + 1074) * dn -> m <= c)
    /\ (- 1074 < k -> 2 ^ 52 * 2 ^ (k + 1074) * dn <= n * 2 ^ 1074)
    /\ (nearestDouble n dn = PosInfinity
        /\ 2 ^ 1024 * 2 ^ 1074 <= m * 2 ^ (k + 1074)
        \/ exists r, nearestDouble n dn = Finite r
                     /\ Qnum r * 2 ^ 1074 = m * 2 ^ (k + 1074) * QDen r).
Proof.
  intros Hn Hd. unfold nearestDouble. cbv zeta.
  set (e := Z.max (ilog2 n dn) (-1022)).
  set (k := e - 52).
  assert (Hk : - 1074 <= k) by (unfold k, e; lia).
  pose proof (pow2_pos 1074 ltac:(lia)) as Hp.
  pose proof (pow2_pos (k + 1074) ltac:(lia)) as Hpk.
  assert (Hbinade : - 1074 < k ->
                    2 ^ 52 * 2 ^ (k + 1074) * dn <= n * 2 ^ 1074).
  { intros Hk'. assert (He : e = ilog2 n dn) by (unfold k, e in *; lia).
    pose proof (ilog2_lower n dn Hn Hd ltac:(lia)) as Hlow.
    rewrite <- He in Hlow.
    replace (e + 1074) with (52 + (k + 1074)) in Hlow by (unfold k; lia).
    rewrite pow2_split in Hlow by lia. lia. }
  destruct (0 <=? k) eqn:Ek.
  - apply Z.leb_le in Ek.
    pose proof (pow2_pos k Ek) as Hpk0.
    assert (Hsplit : 2 ^ (k + 1074) = 2 ^ k * 2 ^ 1074)
      by (apply pow2_split; lia).
    set (m := round_half_even n (dn * 2 ^ k)).
    assert (HD : 0 < dn * 2 ^ k) by nia.
    assert (Hfloor : forall c, c * 2 ^ (k + 1074) * dn <= n * 2 ^ 1074 -> c <= m).
    { intros c Hc. apply round_half_even_floor; [exact HD |].
      rewrite Hsplit in Hc. apply (cancel_le _ _ (2 ^ 1074) Hp). lia. }
    assert (Hceil : forall c, n * 2 ^ 1074 <= c * 2 ^ (k + 1074) * dn -> m <= c).
    { intros c Hc. apply round_half_even_ceil; [exact HD |].
      rewrite Hsplit in Hc. apply (cancel_le _ _ (2 ^ 1074) Hp). lia. }
    exists m, k. split; [apply Hfloor; lia |]. split; [exact Hk |].
    split; [exact Hfloor |]. split; [exact Hceil |]. split; [exact Hbinade |].
    destruct (2 ^ 1024 <=? m * 2 ^ k) eqn:Eover.
    + apply Z.leb_le in Eover. left. split; [reflexivity |].
      rewrite Hsplit. nia.
    + right. eexists. split; [reflexivity |].
      pose proof (Qred_correct (inject_Z (m * 2 ^ k))) as Hr.
      set (r := Qred (inject_Z (m * 2 ^ k))) in *.
      unfold Qeq, inject_Z in Hr. cbn [Qnum Qden] in Hr.
      rewrite Hsplit. nia.
  - apply Z.leb_gt in Ek.
    pose proof (pow2_pos (- k) ltac:(lia)) as Hpk0.
    assert (Hsplit : 2 ^ 1074 = 2 ^ (- k) * 2 ^ (k + 1074)).
    { rewrite <- pow2_split by lia. f_equal. lia. }
    set (m := round_half_even (n * 2 ^ (- k)) dn).
    assert (Hfloor : forall c, c * 2 ^ (k + 1074) * dn <= n * 2 ^ 1074 -> c <= m).
    { intros c Hc. apply round_half_even_floor; [exact Hd |].
      rewrite Hsplit in Hc. apply (cancel_le _ _ (2 ^ (k + 1074)) Hpk). lia. }
    assert (Hceil : forall c, n * 2 ^ 1074 <= c * 2 ^ (k + 1074) * dn -> m <= c).
    { intros c Hc. apply round_half_even_ceil; [exact Hd |].
      rewrite Hsplit in Hc. apply (cancel_le _ _ (2 ^ (k + 1074)) Hpk). lia. }
    exists m, k. split; [apply Hfloor; lia |]. split; [exact Hk |].
    split; [exact Hfloor |]. split; [exact Hceil |]. split; [exact Hbinade |].
    right. eexists. split; [reflexivity |].
    pose proof (Qred_correct (m # Z.to_pos (2 ^ (- k)))) as Hr.
    set (r := Qred (m # Z.to_pos (2 ^ (- k)))) in *.
    unfold Qeq in Hr. cbn [Qnum Qden] in Hr.
    rewrite Z2Pos.id in Hr by exact Hpk0.
    rewrite Hsplit. nia.
Qed.

Lemma double_scaled (q : Q) (m k : Z) :
  - 1074 <= k -> (q == inject_Z m * pow2 k)%Q ->
  Qnum q * 2 ^ 1074 = m * 2 ^ (k + 1074) * QDen q.
Proof.
  intros Hk. unfold pow2, Qeq, inject_Z, Qmult.
  pose proof (pow2_pos 1074 ltac:(lia)) as Hp.
  destruct (0 <=? k) eqn:Ek; cbn [Qnum Qden].
  - apply Z.leb_le in Ek. rewrite (pow2_split k 1074) by lia. nia.
  - apply Z.leb_gt in Ek.
    pose proof (pow2_pos (- k) ltac:(lia)) as Hpk.
    assert (Hsplit : 2 ^ 1074 = 2 ^ (- k) * 2 ^ (k + 1074)).
    { rewrite <- pow2_split by lia. f_equal. lia. }
    rewrite Pos2Z.inj_mul, Z2Pos.id by exact Hpk.
    intros H. rewrite Hsplit. nia.
Qed.

(** A double that is not above [n / d] is not above the double nearest to
    [n / d]. *)
Lemma nearestDouble_above (n dn md kd : Z) :
  0 < n -> 0 < dn -> md < 2 ^ 53 -> - 1074 <= kd ->
  md * 2 ^ (kd + 1074) * dn <= n * 2 ^ 1074 ->
  nearestDouble n dn = PosInfinity
  \/ exists r, nearestDouble n dn = Finite r
               /\ md * 2 ^ (kd + 1074) * QDen r <= Qnum r * 2 ^ 1074.
Proof.
  intros Hn Hd Hmd Hkd Hle.
  destruct (nearestDouble_grid n dn Hn Hd)
    as (m & k & Hm & Hk & Hfloor & _ & Hbinade & [[Hinf _] | (r & Hr & Hscaled)]);
    [now left |].
  right. exists r. split; [exact Hr |]. rewrite Hscaled.
  apply Z.mul_le_mono_nonneg_r; [lia |].
  pose proof (pow2_pos (k + 1074) ltac:(lia)) as Hpk.
  pose proof (pow2_pos (kd + 1074) ltac:(lia)) as Hpkd.
  destruct (Z_le_gt_dec k kd) as [Hge | Hlt].
  - assert (Hsplit : 2 ^ (kd + 1074) = 2 ^ (kd - k) * 2 ^ (k + 1074)).
    { rewrite <- pow2_split by lia. f_equal. lia. }
    rewrite Hsplit in *.
    assert (md * 2 ^ (kd - k) <= m) by (apply Hfloor; lia). nia.
  - assert (Hsplit : 2 ^ (k + 1074) = 2 ^ (k - kd) * 2 ^ (kd + 1074)).
    { rewrite <- pow2_split by lia. f_equal. lia. }
    assert (Hstep : 2 <= 2 ^ (k - kd)).
    { change 2 with (2 ^ 1) at 1. apply Z.pow_le_mono_r; lia. }
    assert (2 ^ 52 <= m) by (apply Hfloor, Hbinade; lia).
    change (2 ^ 53) with (2 * 2 ^ 52) in Hmd.
    pose proof (pow2_pos 52 ltac:(lia)).
    rewrite Hsplit. nia.
Qed.

(** A double that is not below [n / d] is not below the double nearest to
    [n / d], which is finite then. *)
Lemma nearestDouble_below (n dn md kd : Z) :
  0 < n -> 0 < dn -> md < 2 ^ 53 -> - 1074 <= kd <= 971 ->
  n * 2 ^ 1074 <= md * 2 ^ (kd + 1074) * dn ->
  exists r, nearestDouble n dn = Finite r
            /\ Qnum r * 2 ^ 1074 <= md * 2 ^ (kd + 1074) * QDen r.
Proof.
  intros Hn Hd Hmd Hkd Hle.
  destruct (nearestDouble_grid n dn Hn Hd)
    as (m & k & Hm & Hk & _ & Hceil & Hbinade & Hvalue).
  pose proof (pow2_pos 1074 ltac:(lia)) as Hp.
  pose proof (pow2_pos (k + 1074) ltac:(lia)) as Hpk.
  pose proof (pow2_pos (kd + 1074) ltac:(lia)) as Hpkd.
  assert (Hgrid : m * 2 ^ (k + 1074) <= md * 2 ^ (kd + 1074)).
  { destruct (Z_le_gt_dec k kd) as [Hge | Hlt].
    - assert (Hsplit : 2 ^ (kd + 1074) = 2 ^ (kd - k) * 2 ^ (k + 1074)).
      { rewrite <- pow2_split by lia. f_equal. lia. }
      rewrite Hsplit in *.
      assert (m <= md * 2 ^ (kd - k)) by (apply Hceil; lia). nia.
    - exfalso.
      assert (Hsplit : 2 ^ (k + 1074) = 2 ^ (k - kd) * 2 ^ (kd + 1074)).
      { rewrite <- pow2_split by lia. f_equal. lia. }
      assert (Hstep : 2 <= 2 ^ (k - kd)).
      { change 2 with (2 ^ 1) at 1. apply Z.pow_le_mono_r; lia. }
      pose proof (Hbinade ltac:(lia)) as Hlow. rewrite Hsplit in Hlow.
      change (2 ^ 53) with (2 * 2 ^ 52) in Hmd.
      pose proof (pow2_pos 52 ltac:(lia)). nia. }
  destruct Hvalue as [[_ Hover] | (r & Hr & Hscaled)].
  - exfalso.
    assert (2 ^ (kd + 1074) <= 2 ^ (971 + 1074))
      by (apply Z.pow_le_mono_r; lia).
    assert (Hsplit : 2 ^ 1024 * 2 ^ 1074 = 2 ^ 53 * 2 ^ (971 + 1074)).
    { rewrite <- !pow2_split by lia. reflexivity. }
    pose proof (pow2_pos (971 + 1074) ltac:(lia)).
    rewrite Hsplit in Hover. nia.
  - exists r. split; [exact Hr |]. rewrite Hscaled.
    apply Z.mul_le_mono_nonneg_r; [lia | exact Hgrid].
Qed.

Lemma num_le_iff (a b : Q) : num_le a b = true <-> (a <= b)%Q.
Proof. apply Qle_bool_iff. Qed.

(** Rounding is monotone around a double: a double that is not above a
    number is not above the double nearest to the number. *)
Lemma round64_above (d x : Q) :
  isDouble d -> (d <= x)%Q -> js_le (Finite d) (round64 x) = true.
Proof.
  intros (md & kd & Hmd & Hkd & Hd) Hle.
  pose proof (double_scaled d md kd ltac:(lia) Hd) as Hs.
  pose proof (pow2_pos 1074 ltac:(lia)) as Hp.
  pose proof (pow2_pos (kd + 1074) ltac:(lia)) as Hpkd.
  destruct x as [xn xd]. unfold Qle in Hle. cbn [Qnum Qden] in Hle.
  unfold round64. cbn [Qnum Qden].
  assert (Hdd : 0 < QDen d) by reflexivity.
  destruct xn as [| p | p].
  - apply num_le_iff. unfold Qle. cbn [Qnum Qden]. nia.
  - destruct (nearestDouble_above (Z.pos p) (Z.pos xd) md kd)
      as [-> | (r & -> & Hr)]; try lia.
    + apply (cancel_le _ _ (QDen d) Hdd). nia.
    + reflexivity.
    + apply num_le_iff. unfold Qle.
      apply (cancel_le _ _ (2 ^ 1074) Hp). nia.
  - destruct (nearestDouble_below (Z.pos p) (Z.pos xd) (- md) kd)
      as (r & -> & Hr); try lia.
    + apply (cancel_le _ _ (QDen d) Hdd). nia.
    + apply num_le_iff. unfold Qle. cbn [js_neg Qopp Qnum Qden].
      apply (cancel_le _ _ (2 ^ 1074) Hp). nia.
Qed.



(** Adding 1 to a number does not give less. *)
Lemma js_add_1_above (x : JsNum) :
  isOrdered x -> js_le x (js_add x (integer 1)) = true.
Proof.
  destruct x as [q | | |]; cbn [isOrdered]; intros Hq;
    [| reflexivity | reflexivity | contradiction].
  unfold js_add, integer. apply round64_above; [exact Hq |].
  unfold Qle, Qplus, inject_Z. cbn [Qnum Qden]. nia.
Qed.


(** ** Lists *)

Lemma filter_all {A} (l : list A) : List.filter (fun _ => true) l = l.
Proof. induction l as [| x l IH]; cbn; [reflexivity | now rewrite IH]. Qed.

Lemma filter_filter {A} (p q : A -> bool) (l : list A) :
  List.filter q (List.filter p l) = List.filter (fun x => p x && q x) l.
Proof.
  induction l as [| x l IH]; cbn; [reflexivity |].
  destruct (p x); cbn; [destruct (q x) |]; now rewrite IH.
Qed.


(** ** The sort of the context builder *)









(** ** The context builder *)

Lemma isoDay_addDays t n : isoDay (addDays t n) = isoDay t + n.
Proof.
  unfold isoDay, addDays, MS_PER_DAY. now rewrite Z.div_add by lia.
Qed.

Lemma sumActiveGoalHours_all userId env w :
  sumActiveGoalHours userId None env w
  = (Ok (sumHours (activeGoalsOf w userId)), w).
Proof.
  unfold sumActiveGoalHours, listGoals, bind, get, ret, id_differs.
  now rewrite filter_all.
Qed.


Lemma buildUserContext_run user env w :
  buildUserContext user env w
  = (Ok {| availableHoursLeft :=
             Math_max 0%Q
               (Qminus (user_availableHoursPerWeek user)
                  (sumHours (activeGoalsOf w (user_id user))));
           upcomingTasks :=
             sortByDate
               (List.map summarize
                  (List.filter (isUpcoming (user_id user) (isoDay (env_now env)))
                     (tasks w))) |}, w).
Proof.
  unfold buildUserContext.
  rewrite (bind_ok _ _ env w env w) by reflexivity.
  rewrite isoDay_addDays.
  erewrite bind_ok by reflexivity.
  erewrite bind_ok by apply sumActiveGoalHours_all.
  unfold ret. rewrite filter_filter. reflexivity.
Qed.




(** ** The hour budget *)

Lemma findUserById_run userId env w :
  findUserById userId env w = (Ok (userOf w userId), w).
Proof. reflexivity. Qed.

Lemma updateUser_run id updates env w d :
  users w !! id = Some d ->
  updateUser id updates env w
  = (Ok (mapUser id (applyUserUpdate (env_now env) updates d)),
     set_users (fun m => <[id := applyUserUpdate (env_now env) updates d]> m) w).
Proof.
  intros H. unfold updateUser.
  rewrite (bind_ok _ _ env w env w) by reflexivity.
  rewrite (bind_ok _ _ env w w w) by reflexivity.
  rewrite H. reflexivity.
Qed.

Lemma rejectedWith_throw {A} (e : ApiError) (w : World) st :
  @rejectedWith A (Throw (Api e), w) st <-> status e = st.
Proof.
  unfold rejectedWith. cbn. split.
  - intros (e' & He & Hs). now inversion He; subst.
  - intros Hs. now exists e.
Qed.

Lemma rejectedWith_ok {A} (a : A) (w : World) st :
  ~ rejectedWith (Ok a, w) st.
Proof. intros (e & He & _). discriminate He. Qed.

(** Runs the block at the head of the computation in [H] when the block
    is shown by [tac] to return without touching the store. *)
Ltac run_block H tac :=
  match type of H with
  | _ = bind ?c ?k ?env ?w =>
      let E := fresh "E" in
      assert (exists x, c env w = (Ok x, w)) as [[? ?] E] by tac;
      rewrite (bind_ok c k env w _ w E) in H; clear E; cbv beta iota in H
  end.






(** ** The task date conflict rule *)

Lemma ensureNoTaskConflict_run milestoneId userId date exclude env w :
  ensureNoTaskConflict milestoneId userId date exclude env w
  = match collidingTasks w milestoneId userId date exclude with
    | [] => (Ok tt, w)
    | first :: rest =>
        (Throw (Api {| status := 409; message := TASK_CONFLICT;
                       details :=
                         TaskConflictDetails
                           (List.map task_id
                              (collidingTasks w milestoneId userId date exclude)) |}),
         w)
    end.
Proof.
  unfold ensureNoTaskConflict, listTasksByMilestone, collidingTasks.
  rewrite (bind_ok _ _ env w _ w) by reflexivity.
  rewrite filter_filter.
  destruct (List.filter _ (tasks w)) as [| t l]; reflexivity.
Qed.

Lemma collidingTasks_nonempty w milestoneId userId date exclude :
  collidingTasks w milestoneId userId date exclude <> []
  <-> exists t, In t (tasks w)
                /\ id_differs (task_id t) exclude = true
                /\ task_milestoneId t = milestoneId
                /\ task_userId t = userId
                /\ task_date t = date.
Proof.
  unfold collidingTasks, conflictsWith. split.
  - intros H. destruct (List.filter _ (tasks w)) as [| t l] eqn:E; [easy |].
    assert (Hin : In t (t :: l)) by now left.
    rewrite <- E in Hin. apply filter_In in Hin as [Hin Hc].
    apply andb_prop in Hc as [Hm Hc]. apply andb_prop in Hc as [Hc Hd].
    apply andb_prop in Hc as [Hx Hu].
    apply String.eqb_eq in Hm, Hu. apply Z.eqb_eq in Hd.
    exists t. auto.
  - intros (t & Hin & Hx & Hm & Hu & Hd) E.
    assert (Hf : In t (List.filter
              (fun t => String.eqb (task_milestoneId t) milestoneId
                        && (id_differs (task_id t) exclude
                            && String.eqb (task_userId t) userId
                            && (task_date t =? date))) (tasks w))).
    { apply filter_In. split; [exact Hin |].
      apply String.eqb_eq in Hm, Hu. apply Z.eqb_eq in Hd.
      now rewrite Hm, Hx, Hu, Hd. }
    rewrite E in Hf. destruct Hf.
Qed.

Lemma validateEstimatedHours_run v env w :
  validHours v = true ->
  exists q, validateEstimatedHours v env w = (Ok q, w).
Proof.
  destruct v; try discriminate. cbn. intros H. exists q.
  unfold validateEstimatedHours. now rewrite H.
Qed.

Lemma post_milestone_tasks_run env w userId milestoneId milestone body day :
  String.eqb userId "" = false ->
  assertOwnedMilestone milestoneId userId env w = (Ok milestone, w) ->
  postTaskOtherFieldsOk body = true ->
  validateIsoDate (pt_date body) env w = (Ok day, w) ->
  exists title hours,
    post_milestone_tasks (Some userId) milestoneId body env w
    = bind (ensureNoTaskConflict (ms_id milestone) userId day None)
        (fun _ =>
           createTask {| ct_goalId := ms_goalId milestone;
                         ct_milestoneId := ms_id milestone;
                         ct_userId := userId;
                         ct_title := trim title;
                         ct_description := optional_text (pt_description body);
                         ct_date := day;
                         ct_estimatedHours := hours |}) env w.
Proof.
  intros Hu Hown Hok Hdate.
  unfold postTaskOtherFieldsOk, optionalNullOrString in Hok.
  apply andb_prop in Hok as [Hok Hhours]. apply andb_prop in Hok as [Ht Hdesc].
  apply bool_decide_eq_true in Ht as [title Ht].
  destruct (validateEstimatedHours_run _ env w Hhours) as [hours Hh].
  exists title, hours.
  unfold post_milestone_tasks.
  rewrite (bind_ok _ _ _ _ _ _ (requireUser_ok _ env w Hu)).
  rewrite (bind_ok _ _ _ _ _ _ Hown).
  rewrite Ht. erewrite bind_ok by reflexivity.
  assert (Hd : (if is_undefined (pt_description body) then ret tt
                else assert (null_or_string (pt_description body)) 400
                       [Txt "description must be a string or null."])
                 env w = (Ok tt, w)).
  { destruct (is_undefined (pt_description body)); [reflexivity |].
    cbn in Hdesc. now rewrite Hdesc. }
  rewrite (bind_ok _ _ _ _ _ _ Hd).
  rewrite (bind_ok _ _ _ _ _ _ Hdate).
  rewrite (bind_ok _ _ _ _ _ _ Hh).
  reflexivity.
Qed.

Lemma validateIsoDate_defined v env w day w1 :
  validateIsoDate v env w = (Ok day, w1) -> is_undefined v = false.
Proof. destruct v; [discriminate | reflexivity ..]. Qed.

Lemma getTaskById_run taskId env w :
  getTaskById taskId env w
  = (Ok (List.find (fun t => String.eqb (task_id t) taskId) (tasks w)), w).
Proof. reflexivity. Qed.

Lemma getTaskById_id taskId env w task w1 :
  getTaskById taskId env w = (Ok (Some task), w1) ->
  task_id task = taskId /\ getTaskById (task_id task) env w = (Ok (Some task), w).
Proof.
  rewrite !getTaskById_run. intros H.
  assert (Hf : List.find (fun t => String.eqb (task_id t) taskId) (tasks w)
               = Some task) by congruence.
  apply find_some in Hf as Hf'. destruct Hf' as [_ Hid].
  apply String.eqb_eq in Hid. split; [exact Hid |].
  now rewrite Hid, Hf.
Qed.

Lemma assertOwnedTask_found taskId userId env w task milestone w1 :
  assertOwnedTask taskId userId env w = (Ok (task, milestone), w1) ->
  getTaskById (task_id task) env w = (Ok (Some task), w).
Proof.
  unfold assertOwnedTask. intros H.
  apply bind_inv_ok in H as (found & w2 & Hget & H).
  apply bind_inv_ok in H as (task' & w3 & Hsome & H).
  apply assertSome_inv in Hsome as [-> ->].
  apply bind_inv_ok in H as (m & w4 & _ & H).
  inversion H; subst.
  assert (w2 = w) as -> by (rewrite getTaskById_run in Hget; now inversion Hget).
  now apply getTaskById_id in Hget as [_ Hget].
Qed.

(** As [run_block], for a block that keeps the date already recorded in
    the updates and the flag that an update was given. *)
Ltac run_block_keeping H day tac :=
  match type of H with
  | _ = bind ?c ?k ?env ?w =>
      let E := fresh "E" in
      let Hk := fresh "Hkeep" in
      assert (exists u, c env w = (Ok (u, true), w) /\ ut_date u = Some day)
        as (? & E & Hk) by tac;
      rewrite (bind_ok c k env w _ w E) in H; clear E; cbv beta iota in H
  end.

Lemma patch_task_run env w userId taskId task milestone body day :
  String.eqb userId "" = false ->
  assertOwnedTask taskId userId env w = (Ok (task, milestone), w) ->
  patchTaskOtherFieldsOk body = true ->
  validateIsoDate (pk_date body) env w = (Ok day, w) ->
  exists updates,
    ut_date updates = Some day /\
    patch_task (Some userId) taskId body env w
    = bind (ensureNoTaskConflict (ms_id milestone) userId day
              (Some (task_id task)))
        (fun _ => updateTask (task_id task) updates) env w.
Proof.
  intros Hu Hown Hok Hdate.
  unfold patchTaskOtherFieldsOk, optionalNonblank, optionalNullOrString in Hok.
  apply andb_prop in Hok as [Hok Hdone]. apply andb_prop in Hok as [Hok Hhours].
  apply andb_prop in Hok as [Htitle Hdesc].
  remember (patch_task (Some userId) taskId body env w) as out eqn:Hout.
  unfold patch_task in Hout.
  rewrite (bind_ok _ _ _ _ _ _ (requireUser_ok _ env w Hu)) in Hout.
  rewrite (bind_ok _ _ _ _ _ _ Hown) in Hout. cbv beta iota zeta in Hout.
  run_block Hout
    ltac:(destruct (is_undefined (pk_title body)); [eexists; reflexivity |];
          cbn in Htitle; apply bool_decide_eq_true in Htitle as [x ->];
          eexists; reflexivity).
  run_block Hout
    ltac:(destruct (is_undefined (pk_description body));
          [eexists; reflexivity |];
          cbn in Hdesc; rewrite Hdesc; eexists; reflexivity).
  rewrite (validateIsoDate_defined _ _ _ _ _ Hdate) in Hout.
  rewrite bind_bind in Hout.
  rewrite (bind_ok _ _ _ _ _ _ Hdate) in Hout.
  rewrite bind_bind in Hout.
  pose proof (ensureNoTaskConflict_run (ms_id milestone) userId day
                (Some (task_id task)) env w) as Hens.
  destruct (collidingTasks w (ms_id milestone) userId day (Some (task_id task)))
    as [| c cs] eqn:Ecol.
  - rewrite (bind_ok _ _ _ _ _ _ Hens) in Hout.
    rewrite (bind_ok _ _ env w _ w) in Hout by reflexivity.
    cbv beta iota in Hout.
    run_block_keeping Hout day
      ltac:(destruct (is_undefined (pk_estimatedHours body));
            [eexists; split; reflexivity |];
            cbn in Hhours;
            destruct (validateEstimatedHours_run _ env w Hhours) as [q Hq];
            rewrite (bind_ok _ _ _ _ _ _ Hq); eexists; split; reflexivity).
    run_block_keeping Hout day
      ltac:(destruct (is_undefined (pk_done body));
            [eexists; split; [reflexivity | assumption] |];
            cbn in Hdone; destruct (pk_done body); try discriminate;
            eexists; split; [reflexivity | assumption]).
    rewrite (bind_ok _ _ env w tt w) in Hout by reflexivity.
    eexists. split; [eassumption |].
    rewrite (bind_ok _ _ _ _ _ _ Hens). exact Hout.
  - exists {| ut_title := None; ut_description := None; ut_date := Some day;
              ut_estimatedHours := None; ut_done := None |}.
    split; [reflexivity |].
    rewrite (bind_throw _ _ _ _ _ _ Hens) in Hout.
    rewrite (bind_throw _ _ _ _ _ _ Hens).
    exact Hout.
Qed.

Lemma getMilestoneById_run id env w :
  getMilestoneById id env w
  = (Ok (List.find (fun m => String.eqb (ms_id m) id) (milestones w)), w).
Proof. reflexivity. Qed.

Lemma assertOwnedMilestone_id milestoneId userId env w milestone w1 :
  assertOwnedMilestone milestoneId userId env w = (Ok milestone, w1) ->
  ms_id milestone = milestoneId.
Proof.
  unfold assertOwnedMilestone. intros H.
  apply bind_inv_ok in H as (found & w2 & Hget & H).
  rewrite getMilestoneById_run in Hget. injection Hget as <- <-.
  apply bind_inv_ok in H as (m & w3 & Hsome & H).
  apply assertSome_inv in Hsome as [Hf ->].
  apply bind_inv_ok in H as (g & w4 & _ & H).
  injection H as -> _.
  apply find_some in Hf as [_ Hid]. now apply String.eqb_eq in Hid.
Qed.

Lemma assertOwnedTask_milestone taskId userId env w task milestone w1 :
  assertOwnedTask taskId userId env w = (Ok (task, milestone), w1) ->
  ms_id milestone = task_milestoneId task.
Proof.
  unfold assertOwnedTask. intros H.
  apply bind_inv_ok in H as (found & w2 & Hget & H).
  apply bind_inv_ok in H as (task' & w3 & Hsome & H).
  apply assertSome_inv in Hsome as [-> ->].
  apply bind_inv_ok in H as (m & w4 & Hm & H).
  inversion H; subst.
  now apply assertOwnedMilestone_id in Hm.
Qed.

Lemma updateTask_run id updates env w t :
  getTaskById id env w = (Ok (Some t), w) ->
  updateTask id updates env w
  = (Ok (applyTaskUpdate (env_now env) updates t),
     set_tasks
       (List.map (fun x => if String.eqb (task_id x) id
                           then applyTaskUpdate (env_now env) updates x
                           else x)) w).
Proof.
  intros H. unfold updateTask.
  rewrite (bind_ok _ _ env w env w) by reflexivity.
  rewrite (bind_ok _ _ _ _ _ _ H).
  rewrite (bind_ok _ _ env w tt _) by reflexivity. reflexivity.
Qed.

Lemma id_differs_some id x :
  id_differs id (Some x) = true <-> id <> x.
Proof.
  unfold id_differs. rewrite negb_true_iff. split.
  - intros H ->. now rewrite String.eqb_refl in H.
  - intros H. now apply String.eqb_neq.
Qed.

Lemma find_retouched (retouch : TaskRecord -> TaskRecord) (id : string)
    (ts : list TaskRecord) (t : TaskRecord) :
  (forall x, task_id (retouch x) = task_id x) ->
  List.find (fun x => String.eqb (task_id x) id) ts = Some t ->
  List.find (fun x => String.eqb (task_id x) id)
    (List.map (fun x => if String.eqb (task_id x) id then retouch x else x) ts)
  = Some (retouch t).
Proof.
  intros Hid. induction ts as [| x ts IH]; [discriminate |].
  cbn [List.find List.map].
  destruct (String.eqb (task_id x) id) eqn:E.
  - intros [= <-]. now rewrite Hid, E.
  - rewrite E. exact IH.
Qed.

(** C2. For a well-formed request by the owner: creating a task, or
    updating a task with a date, is rejected with 409 exactly when another
    task of the same milestone and the same user already has that date,
    the updated task itself being left out of the comparison by its id.
    The error carries the ids of the colliding tasks and the store is left
    as it was.  Otherwise the write proceeds: the new task is stored at
    the end of the tasks, with that date; the updated task is rewritten
    in place with that date, under its id, milestone and user, the other
    tasks are left as they were, and the task read back is the one
    returned. *)
Theorem date_conflict_iff_rejected (env : Env) (w : World) (userId : string) :
  String.eqb userId "" = false ->
  (forall milestoneId milestone body day,
      assertOwnedMilestone milestoneId userId env w = (Ok milestone, w) ->
      postTaskOtherFieldsOk body = true ->
      validateIsoDate (pt_date body) env w = (Ok day, w) ->
      let out := post_milestone_tasks (Some userId) milestoneId body env w in
      let colliding := collidingTasks w milestoneId userId day None in
      (rejectedWith out 409 <->
         exists t, In t (tasks w)
                   /\ task_milestoneId t = milestoneId
                   /\ task_userId t = userId
                   /\ task_date t = day)
      /\ (colliding <> [] ->
          out = (Throw (Api {| status := 409;
                               message :=
                                 [Txt "Task date conflicts with an existing scheduled task or calendar event."];
                               details :=
                                 TaskConflictDetails
                                   (List.map task_id colliding) |}), w))
      /\ (colliding = [] ->
          exists t, out = (Ok t, set_tasks (fun ts => ts ++ [t]) w)
                    /\ task_milestoneId t = milestoneId
                    /\ task_userId t = userId
                    /\ task_date t = day))
  /\ (forall taskId task milestone body day,
      assertOwnedTask taskId userId env w = (Ok (task, milestone), w) ->
      patchTaskOtherFieldsOk body = true ->
      validateIsoDate (pk_date body) env w = (Ok day, w) ->
      let out := patch_task (Some userId) taskId body env w in
      let colliding :=
        collidingTasks w (task_milestoneId task) userId day
          (Some (task_id task)) in
      (rejectedWith out 409 <->
         exists t, In t (tasks w)
                   /\ task_id t <> task_id task
                   /\ task_milestoneId t = task_milestoneId task
                   /\ task_userId t = userId
                   /\ task_date t = day)
      /\ (colliding <> [] ->
          out = (Throw (Api {| status := 409;
                               message :=
                                 [Txt "Task date conflicts with an existing scheduled task or calendar event."];
                               details :=
                                 TaskConflictDetails
                                   (List.map task_id colliding) |}), w))
      /\ (colliding = [] ->
          exists t retouch,
            out = (Ok t,
                   set_tasks
                     (List.map (fun x =>
                        if String.eqb (task_id x) (task_id task)
                        then retouch x else x)) w)
            /\ t = retouch task
            /\ (forall x, task_date (retouch x) = day
                          /\ task_id (retouch x) = task_id x
                          /\ task_milestoneId (retouch x) = task_milestoneId x
                          /\ task_userId (retouch x) = task_userId x)
            /\ List.find (fun x => String.eqb (task_id x) (task_id task))
                 (tasks (snd out)) = Some t
            /\ task_id t = task_id task
            /\ task_date t = day)).
Proof.
  intros Hu. split.
  - intros milestoneId milestone body day Hown Hok Hdate out colliding.
    destruct (post_milestone_tasks_run env w userId milestoneId milestone body
                day Hu Hown Hok Hdate) as (title & hours & Hrun).
    pose proof (assertOwnedMilestone_id _ _ _ _ _ _ Hown) as Hid.
    rewrite Hid in Hrun.
    pose proof (ensureNoTaskConflict_run milestoneId userId day None env w)
      as Hens.
    pose proof (collidingTasks_nonempty w milestoneId userId day None) as Hne.
    subst out colliding. rewrite Hrun. clear Hrun.
    destruct (collidingTasks w milestoneId userId day None) as [| c cs].
    + rewrite (bind_ok _ _ _ _ _ _ Hens).
      unfold createTask, bind, ask, modify, ret. cbn.
      split; [| split].
      * split.
        -- intros H. now apply rejectedWith_ok in H.
        -- intros (t & Hin & Hm & Hus & Hd). exfalso.
           apply (proj2 Hne); [| reflexivity]. exists t. auto.
      * intros H. now contradiction H.
      * intros _. eexists. split; [reflexivity |]. auto.
    + rewrite (bind_throw _ _ _ _ _ _ Hens).
      split; [| split].
      * rewrite rejectedWith_throw. cbn. split; [| reflexivity].
        intros _. destruct (proj1 Hne ltac:(discriminate))
          as (t & Hin & _ & Hm & Hus & Hd).
        exists t. auto.
      * reflexivity.
      * discriminate.
  - intros taskId task milestone body day Hown Hok Hdate out colliding.
    destruct (patch_task_run env w userId taskId task milestone body day
                Hu Hown Hok Hdate) as (updates & Hupd & Hrun).
    pose proof (assertOwnedTask_milestone _ _ _ _ _ _ _ Hown) as Hid.
    rewrite Hid in Hrun.
    pose proof (ensureNoTaskConflict_run (task_milestoneId task) userId day
                  (Some (task_id task)) env w) as Hens.
    pose proof (collidingTasks_nonempty w (task_milestoneId task) userId day
                  (Some (task_id task))) as Hne.
    subst out colliding. rewrite Hrun. clear Hrun.
    destruct (collidingTasks w (task_milestoneId task) userId day
                (Some (task_id task))) as [| c cs].
    + rewrite (bind_ok _ _ _ _ _ _ Hens).
      rewrite (updateTask_run _ _ _ _ _ (assertOwnedTask_found _ _ _ _ _ _ _ Hown)).
      split; [| split].
      * split.
        -- intros H. now apply rejectedWith_ok in H.
        -- intros (t & Hin & Hx & Hm & Hus & Hd). exfalso.
           apply (proj2 Hne); [| reflexivity]. exists t.
           rewrite id_differs_some. auto.
      * intros H. now contradiction H.
      * intros _.
        pose proof (assertOwnedTask_found _ _ _ _ _ _ _ Hown) as Hfound.
        rewrite getTaskById_run in Hfound. injection Hfound as Hfound.
        eexists _, (applyTaskUpdate (env_now env) updates).
        split; [reflexivity |]. split; [reflexivity |].
        split; [intros x; cbn; now rewrite Hupd |].
        split; [| cbn; now rewrite Hupd].
        cbn [snd tasks set_tasks]. now apply find_retouched.
    + rewrite (bind_throw _ _ _ _ _ _ Hens).
      split; [| split].
      * rewrite rejectedWith_throw. cbn. split; [| reflexivity].
        intros _. destruct (proj1 Hne ltac:(discriminate))
          as (t & Hin & Hx & Hm & Hus & Hd).
        exists t. rewrite id_differs_some in Hx. auto.
      * reflexivity.
      * discriminate.
Qed.

(** Scenario C: a second task on 2025-11-17 under the sample milestone is
    rejected with the id of the first; giving the first task its own date
    again is accepted. *)
Lemma date_conflict_witness :
  post_milestone_tasks (Some "u1") "m1" taskOnThe17th (sampleEnv FetchFailed)
    sampleWorld
  = (Throw (Api {| status := 409; message := TASK_CONFLICT;
                   details := TaskConflictDetails ["t1"] |}), sampleWorld)
  /\ exists t,
       fst (patch_task (Some "u1") "t1" keepThe17th (sampleEnv FetchFailed)
              sampleWorld) = Ok t
       /\ task_id t = "t1" /\ task_date t = 20409.
Proof.
  destruct (date_conflict_iff_rejected (sampleEnv FetchFailed) sampleWorld
              "u1" eq_refl) as [Hcreate Hupdate].
  split.
  - apply (Hcreate "m1" sampleMilestone taskOnThe17th 20409
             eq_refl eq_refl eq_refl).
    vm_compute. discriminate.
  - destruct (Hupdate "t1" sampleTask sampleMilestone keepThe17th 20409
                eq_refl eq_refl eq_refl) as (_ & _ & Hwritten).
    destruct (Hwritten eq_refl) as (t & retouch & Hout & _ & _ & _ & Hid & Hd).
    exists t. rewrite Hout. auto.
Defined.

(** ** The agent session *)

Lemma appendChatMessage_inv input env w u w1 :
  appendChatMessage input env w = (Ok u, w1) ->
  exists c d,
    chats w !! ci_chatId input = Some c
    /\ sessions w !! ci_sessionId input = Some d
    /\ sessions w1
       = <[ci_sessionId input := applySessionUpdate (env_now env) noSessionUpdate d]>
           (sessions w)
    /\ chatMessages w1
       = chatMessages w
         ++ [{| cm_chatId := ci_chatId input;
                cm_sessionId := ci_sessionId input;
                cm_sender := ci_sender input;
                cm_message := ci_message input;
                cm_createdAt := env_now env |}]
    /\ previews w1 = previews w.
Proof.
  unfold appendChatMessage. intros H.
  apply bind_inv_ok in H as (env' & w2 & Hask & H).
  injection Hask as <- <-.
  apply bind_inv_ok in H as ([] & w2 & Hmod & H).
  injection Hmod as <-.
  apply bind_inv_ok in H as ([] & w3 & Htc & H).
  unfold touchChat in Htc.
  apply bind_inv_ok in Htc as (w0 & w4 & Hget & Htc).
  injection Hget as <- <-.
  cbn [chats set_chatMessages] in Htc.
  destruct (chats w !! ci_chatId input) as [c |] eqn:Ec; [| discriminate].
  injection Htc as <-.
  unfold touchSession in H.
  apply bind_inv_ok in H as (w0 & w4 & Hget & H).
  injection Hget as <- <-.
  cbn [sessions set_chats set_chatMessages] in H.
  destruct (sessions w !! ci_sessionId input) as [d |] eqn:Ed; [| discriminate].
  inversion H; subst; clear H.
  exists c, d. cbn. repeat split; auto.
Qed.

Lemma invokeAgentService_inv rq env w resp w1 :
  invokeAgentService rq env w = (Ok resp, w1) ->
  env_fetch env rq = FetchOk resp
  /\ w1 = set_agentCalls (fun sent => sent ++ [rq]) w.
Proof.
  unfold invokeAgentService. intros H.
  apply bind_inv_ok in H as (url & w2 & Hurl & H).
  assert (w2 = w) as ->.
  { unfold getAgentServiceUrl, bind, ask, ret, throwApi, throw in Hurl.
    destruct (env_agentUrl env) as [u0 |]; [| discriminate].
    destruct (String.eqb u0 ""); [discriminate |]. now injection Hurl. }
  apply bind_inv_ok in H as (env' & w2 & Hask & H).
  injection Hask as <- <-.
  apply bind_inv_ok in H as ([] & w2 & Hmod & H).
  injection Hmod as <-.
  destruct (env_fetch env rq) as [| st text | | data]; try discriminate.
  - destruct (st =? 503); discriminate.
  - injection H as <- <-. auto.
Qed.

Lemma upsertGoalPreview_inv input env w rec w1 :
  upsertGoalPreview input env w = (Ok rec, w1) ->
  let id := default (env_newPreviewId env) (givenId (ug_id input)) in
  gp_id rec = id
  /\ (exists p, previews w1 !! id = Some p /\ gp_data p = ug_data input)
  /\ sessions w1 = sessions w
  /\ chatMessages w1 = chatMessages w.
Proof.
  unfold upsertGoalPreview. intros H.
  apply bind_inv_ok in H as (env' & w2 & Hask & H).
  injection Hask as <- <-.
  destruct (givenId (ug_id input)) as [id |]; cbn [default].
  - apply bind_inv_ok in H as (w0 & w2 & Hget & H).
    injection Hget as <- <-.
    apply bind_inv_ok in H as ([] & w2 & Hmod & H).
    injection Hmod as <-. injection H as <- <-.
    cbn. split; [reflexivity |]. split; [| auto].
    eexists. rewrite lookup_insert_eq. split; [reflexivity |].
    destruct (previews w !! id); reflexivity.
  - apply bind_inv_ok in H as ([] & w2 & Hmod & H).
    injection Hmod as <-. injection H as <- <-.
    cbn. split; [reflexivity |]. split; [| auto].
    eexists. rewrite lookup_insert_eq. split; reflexivity.
Qed.

Lemma updateSession_inv id updates env w rec w1 :
  updateSession id updates env w = (Ok rec, w1) ->
  exists d,
    sessions w !! id = Some d
    /\ rec = mapSession id (applySessionUpdate (env_now env) updates d)
    /\ sessions w1 = <[id := applySessionUpdate (env_now env) updates d]> (sessions w)
    /\ chatMessages w1 = chatMessages w
    /\ previews w1 = previews w.
Proof.
  unfold updateSession. intros H.
  apply bind_inv_ok in H as (env' & w2 & Hask & H).
  injection Hask as <- <-.
  apply bind_inv_ok in H as (w0 & w2 & Hget & H).
  injection Hget as <- <-.
  destruct (sessions w !! id) as [d |] eqn:Ed; [| discriminate].
  apply bind_inv_ok in H as ([] & w2 & Hmod & H).
  injection Hmod as <-. injection H as <- <-.
  exists d. cbn. repeat split; auto.
Qed.

Lemma sessionOf_id w id s : sessionOf w id = Some s -> session_id s = id.
Proof.
  unfold sessionOf. intros H. apply fmap_Some in H as (d & _ & ->). reflexivity.
Qed.

Lemma post_session_message_inv auth body env w r w' :
  post_session_message auth body env w = (Ok r, w') ->
  exists s resp d',
    turnOn env w auth body s resp
    /\ session_sessionActive s = true
    /\ sessions w' !! session_id s = Some d'
    /\ sd_state d'
       = Some (default (session_state s) (rp_state resp ≫= rs_state))
    /\ sd_iteration d'
       = Some (default (js_add (session_iteration s) 1)
                 (rp_state resp ≫= rs_iteration))
    /\ sd_goalPreviewId d'
       = match rp_state resp ≫= rs_goalPreviewId with
         | Some id => Some id
         | None =>
             if actionIs resp "save_preview"
             then Some (savedPreviewId env resp)
             else session_goalPreviewId s
         end
    /\ sd_sessionActive d'
       = Some (if actionIs resp "finalize_goal" then false
               else default (session_sessionActive s)
                      (rp_state resp ≫= rs_sessionActive))
    /\ sd_context d'
       = Some (default (turnContext (mb_context body) s) (rp_context resp))
    /\ (if actionIs resp "save_preview"
        then exists a p,
               rp_action resp = Some a
               /\ previews w' !! savedPreviewId env resp = Some p
               /\ gp_data p = previewPayloadOf a
        else previews w' = previews w)
    /\ mr_action r = rp_action resp
    /\ mr_state r
       = {| st_state := session_state (mapSession (session_id s) d');
            st_iteration := session_iteration (mapSession (session_id s) d');
            st_sessionActive :=
              session_sessionActive (mapSession (session_id s) d');
            st_goalPreviewId :=
              session_goalPreviewId (mapSession (session_id s) d') |}.
Proof.
  unfold post_session_message. intros H.
  apply bind_inv_ok in H as (userId & wa & Hreq & H).
  apply requireUser_inv in Hreq as (Hauth & Hu & Hwa). subst auth wa.
  apply bind_inv_ok in H as (sessionId & wb & Hsid & H).
  apply assertSome_inv in Hsid as [Hsid Hwb]. subst wb.
  apply bind_inv_ok in H as (text & wc & Htext & H).
  apply assertSome_inv in Htext as [Htext Hwc]. subst wc.
  apply bind_inv_ok in H as ([] & wd & Hpu & H).
  assert (wd = w).
  { destruct (is_undefined (mb_userId body)).
    - now inversion Hpu.
    - now apply assert_inv in Hpu as [_ Hwd]. }
  subst wd. clear Hpu.
  apply bind_inv_ok in H as (found & we & Hfind & H).
  inversion Hfind; subst found we; clear Hfind.
  apply bind_inv_ok in H as (s & wf & Hs & H).
  apply assertSome_inv in Hs as [Hs Hwf]. subst wf.
  apply bind_inv_ok in H as ([] & wg & Hown & H).
  apply assert_inv in Hown as [Hown Hwg]. subst wg.
  apply bind_inv_ok in H as ([] & wh & Hact & H).
  apply assert_inv in Hact as [Hact Hwh]. subst wh.
  pose proof (sessionOf_id _ _ _ Hs) as Hid.
  unfold agentTurn in H. cbv zeta in H.
  apply bind_inv_ok in H as ([] & w1 & Happ1 & H).
  apply appendChatMessage_inv in Happ1
    as (c1 & d1 & _ & Hd1 & Hs1 & Hm1 & Hp1).
  cbn [ci_chatId ci_sessionId ci_sender ci_message] in *.
  apply bind_inv_ok in H as (resp & w2 & Hinv & H).
  apply invokeAgentService_inv in Hinv as [Hfetch Hw2]. subst w2.
  apply bind_inv_ok in H as ([] & w2 & Happ2 & H).
  apply appendChatMessage_inv in Happ2
    as (c2 & d2 & _ & Hd2 & Hs2 & Hm2 & Hp2).
  cbn [ci_chatId ci_sessionId ci_sender ci_message
       set_agentCalls sessions chats chatMessages previews] in *.
  apply bind_inv_ok in H as (goalPreviewId & w3 & Hprev & H).
  apply bind_inv_ok in H as (updated & w4 & Hupd & H).
  apply updateSession_inv in Hupd as (d3 & Hd3 & Hrec & Hs4 & Hm4 & Hp4).
  subst updated. inversion H; subst r w4; clear H.
  assert (Hblock :
    sessions w3 = sessions w2
    /\ goalPreviewId
       = (if actionIs resp "save_preview"
          then Some (savedPreviewId env resp)
          else session_goalPreviewId s)
    /\ (if actionIs resp "save_preview"
        then exists a p,
               rp_action resp = Some a
               /\ previews w3 !! savedPreviewId env resp = Some p
               /\ gp_data p = previewPayloadOf a
        else previews w3 = previews w)).
  { unfold actionIs, savedPreviewId.
    destruct (rp_action resp) as [a |].
    - destruct (String.eqb (act_type a) "save_preview").
      + apply bind_inv_ok in Hprev as (rec & w5 & Hup & Hret).
        inversion Hret; subst; clear Hret.
        apply upsertGoalPreview_inv in Hup as (Hgid & (p & Hp & Hdata) & Hs3 & _).
        cbn [ug_id ug_data] in *.
        split; [exact Hs3 |]. split; [now rewrite Hgid |].
        exists a, p. auto.
      + inversion Hprev; subst; clear Hprev.
        split; [reflexivity |]. split; [reflexivity |]. congruence.
    - inversion Hprev; subst; clear Hprev.
      split; [reflexivity |]. split; [reflexivity |]. congruence. }
  destruct Hblock as (Hs3 & Hgp & Hprevs).
  exists s, resp, (applySessionUpdate (env_now env)
    {| us_state := Some (default (session_state s) (rp_state resp ≫= rs_state));
       us_iteration := Some (default (js_add (session_iteration s) 1) (rp_state resp ≫= rs_iteration));
       us_goalPreviewId := Some match rp_state resp ≫= rs_goalPreviewId with
                                | Some id => Some id
                                | None => goalPreviewId
                                end;
       us_sessionActive := Some (if actionIs resp "finalize_goal" then false
          else default (session_sessionActive s) (rp_state resp ≫= rs_sessionActive));
       us_context := Some (default (turnContext (mb_context body) s) (rp_context resp)) |} d3).
  split.
  { exists userId, sessionId, text. auto. }
  split; [exact Hact |].
  split. { rewrite Hs4. apply lookup_insert_eq. }
  cbn [applySessionUpdate sd_state sd_iteration sd_goalPreviewId
       sd_sessionActive sd_context us_state us_iteration us_goalPreviewId
       us_sessionActive us_context].
  split; [reflexivity |]. split; [reflexivity |].
  split. { rewrite Hgp. reflexivity. }
  split; [reflexivity |]. split; [reflexivity |].
  split.
  { destruct (actionIs resp "save_preview").
    - destruct Hprevs as (a & p & Ha & Hp & Hdata). exists a, p.
      rewrite Hp4. auto.
    - rewrite Hp4. exact Hprevs. }
  split; reflexivity.
Qed.

(** A message that names an inactive session is rejected and writes
    nothing; the rejection is the 409 of the finalized session once the
    request passes the checks that come first. *)
Lemma message_to_inactive_session
    (env : Env) (w : World) (auth : option string) (body : MessageBody)
    (sessionId : string) (s : SessionStateRecord) :
  nonblank_string (mb_sessionId body) = Some sessionId ->
  sessionOf w sessionId = Some s ->
  session_sessionActive s = false ->
  exists e,
    post_session_message auth body env w = (Throw (Api e), w)
    /\ (status e = 400 \/ status e = 401 \/ status e = 409)
    /\ (auth = Some (session_userId s) ->
        String.eqb (session_userId s) "" = false ->
        is_Some (nonblank_string (mb_message body)) ->
        mb_userId body = JUndefined \/ mb_userId body = JStr (session_userId s) ->
        e = {| status := 409; message := sessionFinalized sessionId;
               details := NoDetails |}).
Proof.
  intros Hsid Hs Hinactive.
  unfold post_session_message, bind, requireUser, assertSome, assert, ret,
    throwApi, throw, findSessionById, get.
  rewrite Hsid.
  destruct auth as [userId |]; cycle 1.
  { eexists. split; [reflexivity |]. split; [cbn; auto |]. discriminate. }
  unfold bind.
  destruct (String.eqb userId "") eqn:Eu; cbn [negb].
  { eexists. split; [reflexivity |]. split; [cbn; auto |].
    intros [= ->]. congruence. }
  cbv beta iota.
  destruct (nonblank_string (mb_message body)) as [text |] eqn:Etext; cycle 1.
  { eexists. split; [reflexivity |]. split; [cbn; auto |].
    intros _ _ [x Hx]. discriminate. }
  destruct (is_undefined (mb_userId body)) eqn:Eundef;
    [| destruct (is_string (mb_userId body) userId) eqn:Epu]; cbn.
  all: rewrite ?Hs; cbn.
  3: { eexists. split; [reflexivity |]. split; [cbn; auto |].
       intros [= ->] _ _ [Hb | Hb]; rewrite Hb in *; cbn in *;
         [discriminate | now rewrite String.eqb_refl in Epu]. }
  all: destruct (String.eqb (session_userId s) userId) eqn:Eown; cbn.
  all: rewrite ?Hinactive; cbn.
  all: eexists; (split; [reflexivity |]); (split; [cbn; auto |]).
  all: try reflexivity.
  all: intros [= ->]; now rewrite String.eqb_refl in Eown.
Qed.

(** *** What a request leaves untouched *)

Lemma readOnly_ret {A} (a : A) : readOnly (ret a).
Proof. intros env w out w' H. now inversion H. Qed.

Lemma readOnly_throwApi {A} st msg d : readOnly (@throwApi A st msg d).
Proof. intros env w out w' H. now inversion H. Qed.

Lemma readOnly_bind {A B} (c : M A) (k : A -> M B) :
  readOnly c -> (forall a, readOnly (k a)) -> readOnly (bind c k).
Proof.
  intros Hc Hk env w out w'. unfold bind.
  destruct (c env w) as [[a | f] w1] eqn:E; intros H.
  - apply Hc in E. subst w1. now apply Hk in H.
  - apply Hc in E. now inversion H; subst.
Qed.

Lemma readOnly_assert c st msg : readOnly (assert c st msg).
Proof.
  unfold assert. destruct c; [apply readOnly_ret | apply readOnly_throwApi].
Qed.

Lemma readOnly_assertSome {A} (o : option A) st msg :
  readOnly (assertSome o st msg).
Proof.
  unfold assertSome. destruct o; [apply readOnly_ret | apply readOnly_throwApi].
Qed.

Lemma readOnly_get : readOnly get.
Proof. intros env w out w' H. now inversion H. Qed.

Lemma readOnly_ask : readOnly ask.
Proof. intros env w out w' H. now inversion H. Qed.

Create HintDb frames.
#[local] Hint Resolve readOnly_ret readOnly_throwApi readOnly_assert
  readOnly_assertSome readOnly_get readOnly_ask : frames.

(** Splits a sequence into its steps and closes the steps that only read. *)
Ltac read_only :=
  repeat first
    [ solve [auto with frames]
    | apply readOnly_bind; [| intros ?] ].

Lemma readOnly_requireUser auth : readOnly (requireUser auth).
Proof. unfold requireUser. destruct auth; read_only. Qed.

Lemma readOnly_getAgentServiceUrl : readOnly getAgentServiceUrl.
Proof.
  unfold getAgentServiceUrl. read_only.
  match goal with env : Env |- _ =>
    destruct (env_agentUrl env) as [u |]; [destruct (String.eqb u "") |]
  end; read_only.
Qed.

(** The agent call writes nothing to the store: it leaves the world as it
    was when the URL is not configured, and adds the request to the
    requests sent otherwise. *)
Lemma invokeAgentService_frame rq env w out w' :
  invokeAgentService rq env w = (out, w') ->
  w' = w \/ w' = set_agentCalls (fun sent => sent ++ [rq]) w.
Proof.
  unfold invokeAgentService. intros H.
  apply bind_inv in H as [(e & H & _) | (url & w1 & H1 & H)];
    [apply readOnly_getAgentServiceUrl in H; now left |].
  apply readOnly_getAgentServiceUrl in H1. subst w1. right.
  unfold bind, ask, modify in H.
  destruct (env_fetch env rq) as [| st text | | data];
    [| destruct (st =? 503) | |]; now inversion H.
Qed.

#[local] Hint Resolve readOnly_requireUser readOnly_getAgentServiceUrl
  : frames.

Lemma keepsSession_readOnly env k {A} (c : M A) :
  readOnly c -> keepsSession env k c.
Proof. intros Hc w out w' H. apply Hc in H. now subst. Qed.

Lemma keepsSession_bind env k {A B} (c : M A) (f : A -> M B) :
  keepsSession env k c -> (forall a, keepsSession env k (f a)) ->
  keepsSession env k (bind c f).
Proof.
  intros Hc Hf w out w' H. apply bind_inv in H as [(e & H & _) | (a & w1 & H1 & H2)].
  - now apply Hc in H.
  - apply Hc in H1. apply Hf in H2. congruence.
Qed.

Lemma keepsSession_modify env k (g : World -> World) :
  (forall w, sessions (g w) !! k = sessions w !! k) ->
  keepsSession env k (modify g).
Proof. intros Hg w out w' H. inversion H; subst. apply Hg. Qed.

Lemma keepsSession_appendChatMessage env k input :
  k <> ci_sessionId input -> keepsSession env k (appendChatMessage input).
Proof.
  intros Hne. unfold appendChatMessage, touchChat, touchSession.
  apply keepsSession_bind; [apply keepsSession_readOnly, readOnly_ask |].
  intros env0. cbv zeta. apply keepsSession_bind.
  { apply keepsSession_modify. reflexivity. }
  intros _. apply keepsSession_bind.
  { apply keepsSession_bind; [apply keepsSession_readOnly, readOnly_get |].
    intros w0. destruct (chats w0 !! ci_chatId input).
    - apply keepsSession_modify. reflexivity.
    - apply keepsSession_readOnly. intros ? ? ? ? H. now inversion H. }
  intros _. apply keepsSession_bind; [apply keepsSession_readOnly, readOnly_get |].
  intros w0. destruct (sessions w0 !! ci_sessionId input).
  - apply keepsSession_modify. intros w. cbn.
    now rewrite lookup_insert_ne by congruence.
  - apply keepsSession_readOnly. intros ? ? ? ? H. now inversion H.
Qed.

Lemma keepsSession_upsertGoalPreview env k input :
  keepsSession env k (upsertGoalPreview input).
Proof.
  unfold upsertGoalPreview.
  apply keepsSession_bind; [apply keepsSession_readOnly, readOnly_ask |].
  intros env0. destruct (givenId (ug_id input)).
  - apply keepsSession_bind; [apply keepsSession_readOnly, readOnly_get |].
    intros w0. apply keepsSession_bind; [now apply keepsSession_modify |].
    intros u. apply keepsSession_readOnly, readOnly_ret.
  - apply keepsSession_bind; [now apply keepsSession_modify |].
    intros u. apply keepsSession_readOnly, readOnly_ret.
Qed.

Lemma keepsSession_updateSession env k id updates :
  k <> id -> keepsSession env k (updateSession id updates).
Proof.
  intros Hne. unfold updateSession.
  apply keepsSession_bind; [apply keepsSession_readOnly, readOnly_ask |].
  intros env0.
  apply keepsSession_bind; [apply keepsSession_readOnly, readOnly_get |].
  intros w0. destruct (sessions w0 !! id).
  - apply keepsSession_bind.
    + apply keepsSession_modify. intros w. cbn.
      now rewrite lookup_insert_ne by congruence.
    + intros u. apply keepsSession_readOnly, readOnly_ret.
  - apply keepsSession_readOnly, readOnly_throwApi.
Qed.

Lemma keepsSession_invokeAgentService env k rq :
  keepsSession env k (invokeAgentService rq).
Proof.
  intros w out w' H. apply invokeAgentService_frame in H as [-> | ->];
    reflexivity.
Qed.

Lemma keepsSession_agentTurn env k userId text override s :
  k <> session_id s -> keepsSession env k (agentTurn userId text override s).
Proof.
  intros Hne. unfold agentTurn. cbv zeta.
  apply keepsSession_bind; [now apply keepsSession_appendChatMessage |].
  intros _. apply keepsSession_bind;
    [apply keepsSession_invokeAgentService |].
  intros resp. apply keepsSession_bind;
    [now apply keepsSession_appendChatMessage |].
  intros _. apply keepsSession_bind.
  { destruct (rp_action resp) as [a |];
      [| apply keepsSession_readOnly, readOnly_ret].
    destruct (String.eqb (act_type a) "save_preview");
      [| apply keepsSession_readOnly, readOnly_ret].
    apply keepsSession_bind; [apply keepsSession_upsertGoalPreview |].
    intros rec. apply keepsSession_readOnly, readOnly_ret. }
  intros gp. apply keepsSession_bind;
    [now apply keepsSession_updateSession |].
  intros updated. apply keepsSession_readOnly, readOnly_ret.
Qed.

Lemma post_session_message_keeps_inactive env auth body w out w' k s :
  post_session_message auth body env w = (out, w') ->
  sessionOf w k = Some s ->
  session_sessionActive s = false ->
  sessions w' !! k = sessions w !! k.
Proof.
  intros H Hs Hinactive. unfold post_session_message in H.
  apply bind_inv in H as [(e & H & _) | (userId & w1 & H1 & H)];
    [apply readOnly_requireUser in H; now subst |].
  apply readOnly_requireUser in H1. subst w1.
  apply bind_inv in H as [(e & H & _) | (sessionId & w1 & H1 & H)];
    [apply readOnly_assertSome in H; now subst |].
  apply readOnly_assertSome in H1. subst w1.
  apply bind_inv in H as [(e & H & _) | (text & w1 & H1 & H)];
    [apply readOnly_assertSome in H; now subst |].
  apply readOnly_assertSome in H1. subst w1.
  assert (Hro : readOnly
            (if is_undefined (mb_userId body) then ret tt
             else assert (is_string (mb_userId body) userId) 401
                    [Txt "Unauthorized."])).
  { destruct (is_undefined (mb_userId body));
      [apply readOnly_ret | apply readOnly_assert]. }
  apply bind_inv in H as [(e & H & _) | ([] & w1 & H1 & H)];
    [apply Hro in H; now subst |].
  apply Hro in H1. subst w1. clear Hro.
  apply bind_inv in H as [(e & H & _) | (found & w1 & H1 & H)];
    [discriminate H |].
  inversion H1; subst found w1; clear H1.
  apply bind_inv in H as [(e & H & _) | (s0 & w1 & H1 & H)];
    [apply readOnly_assertSome in H; now subst |].
  apply assertSome_inv in H1 as [Hs0 Hw1]. subst w1.
  apply bind_inv in H as [(e & H & _) | ([] & w1 & H1 & H)];
    [apply readOnly_assert in H; now subst |].
  apply readOnly_assert in H1. subst w1.
  apply bind_inv in H as [(e & H & _) | ([] & w1 & H1 & H)];
    [apply readOnly_assert in H; now subst |].
  apply assert_inv in H1 as [Hact Hw1]. subst w1.
  apply (keepsSession_agentTurn env k) in H; [exact H |].
  rewrite (sessionOf_id _ _ _ Hs0). intros ->. congruence.
Qed.

Lemma keepsSession_ask env k {A} (f : Env -> M A) :
  keepsSession env k (f env) -> keepsSession env k (bind ask f).
Proof. intros Hf w out w' H. unfold bind, ask in H. now apply Hf in H. Qed.

Lemma readOnly_buildUserContext user : readOnly (buildUserContext user).
Proof.
  intros env w out w' H. rewrite buildUserContext_run in H. now inversion H.
Qed.

Lemma readOnly_findLatestActiveSession userId :
  readOnly (findLatestActiveSession userId).
Proof.
  unfold findLatestActiveSession. apply readOnly_bind; [apply readOnly_get |].
  intros w. destruct (List.filter _ _); apply readOnly_ret.
Qed.

Lemma keepsSession_createSession env k input :
  k <> env_newSessionId env -> keepsSession env k (createSession input).
Proof.
  intros Hne. unfold createSession. apply keepsSession_ask. cbv zeta.
  apply keepsSession_bind; [now apply keepsSession_modify |].
  intros u. apply keepsSession_bind.
  - apply keepsSession_modify. intros w. cbn.
    now rewrite lookup_insert_ne by congruence.
  - intros u'. apply keepsSession_readOnly, readOnly_ret.
Qed.

Lemma keepsSession_get_session_latest env k auth :
  k <> env_newSessionId env -> keepsSession env k (get_session_latest auth).
Proof.
  intros Hne. unfold get_session_latest.
  apply keepsSession_bind; [apply keepsSession_readOnly, readOnly_requireUser |].
  intros userId. apply keepsSession_bind;
    [apply keepsSession_readOnly, readOnly_findLatestActiveSession |].
  intros [session |]; [apply keepsSession_readOnly, readOnly_ret |].
  apply keepsSession_bind.
  { apply keepsSession_readOnly. unfold findUserById.
    apply readOnly_bind; [apply readOnly_get | intros; apply readOnly_ret]. }
  intros found. apply keepsSession_bind;
    [apply keepsSession_readOnly, readOnly_assertSome |].
  intros user. apply keepsSession_bind;
    [apply keepsSession_readOnly, readOnly_buildUserContext |].
  intros context. apply keepsSession_bind;
    [now apply keepsSession_createSession |].
  intros session. apply keepsSession_readOnly, readOnly_ret.
Qed.

Lemma sessionStep_keeps_inactive w w' k s :
  sessionStep w w' ->
  sessionOf w k = Some s ->
  session_sessionActive s = false ->
  sessions w' !! k = sessions w !! k.
Proof.
  intros Hstep Hs Hinactive. destruct Hstep as [env auth out w' Hfresh H | env auth body out w' H].
  - apply (keepsSession_get_session_latest env k) in H; [exact H |].
    intros ->. unfold sessionOf in Hs. rewrite Hfresh in Hs. discriminate Hs.
  - eapply post_session_message_keeps_inactive; eassumption.
Qed.

Lemma lifecycle_keeps_inactive w w' k s :
  lifecycle w w' ->
  sessionOf w k = Some s ->
  session_sessionActive s = false ->
  sessionOf w' k = Some s.
Proof.
  intros Hlife Hs Hinactive.
  induction Hlife as [w | w w1 w2 Hstep _ IH]; [exact Hs |].
  apply IH. unfold sessionOf.
  rewrite (sessionStep_keeps_inactive _ _ _ _ Hstep Hs Hinactive).
  exact Hs.
Qed.

Lemma turnOn_functional env w auth body s1 resp1 s2 resp2 :
  turnOn env w auth body s1 resp1 -> turnOn env w auth body s2 resp2 ->
  s1 = s2 /\ resp1 = resp2.
Proof.
  intros (u1 & i1 & t1 & Ha1 & Hi1 & Ht1 & Hs1 & Hf1)
         (u2 & i2 & t2 & Ha2 & Hi2 & Ht2 & Hs2 & Hf2).
  assert (u1 = u2) by congruence. assert (i1 = i2) by congruence.
  assert (t1 = t2) by congruence. subst.
  assert (s1 = s2) by congruence. subst. split; [reflexivity | congruence].
Qed.

Lemma actionIs_exclusive resp a b :
  actionIs resp a = true -> String.eqb a b = false -> actionIs resp b = false.
Proof.
  unfold actionIs. destruct (rp_action resp) as [x |]; [| reflexivity].
  intros Ha Hab. apply String.eqb_eq in Ha. now rewrite Ha.
Qed.

(** What a successful turn leaves behind, for the session it was on and
    the answer the agent gave. *)
Lemma successful_turn env w auth body s resp r w' :
  turnOn env w auth body s resp ->
  post_session_message auth body env w = (Ok r, w') ->
  session_sessionActive s = true
  /\ exists s',
      sessionOf w' (session_id s) = Some s'
      /\ session_state s'
         = default (session_state s) (rp_state resp ≫= rs_state)
      /\ session_iteration s'
         = default (js_add (session_iteration s) 1)
             (rp_state resp ≫= rs_iteration)
      /\ session_goalPreviewId s'
         = match rp_state resp ≫= rs_goalPreviewId with
           | Some id => Some id
           | None =>
               if actionIs resp "save_preview"
               then Some (savedPreviewId env resp)
               else session_goalPreviewId s
           end
      /\ session_sessionActive s'
         = (if actionIs resp "finalize_goal" then false
            else default (session_sessionActive s)
                   (rp_state resp ≫= rs_sessionActive))
      /\ session_context s'
         = nullish_or
             (default (turnContext (mb_context body) s) (rp_context resp))
             (JObj [])
      /\ (if actionIs resp "save_preview"
          then exists a p,
                 rp_action resp = Some a
                 /\ previews w' !! savedPreviewId env resp = Some p
                 /\ gp_data p = previewPayloadOf a
          else previews w' = previews w)
      /\ mr_action r = rp_action resp
      /\ st_sessionActive (mr_state r) = session_sessionActive s'
      /\ st_iteration (mr_state r) = session_iteration s'.
Proof.
  intros Hturn H.
  apply post_session_message_inv in H
    as (s0 & resp0 & d' & Hturn0 & Hact & Hd' & Hst & Hit & Hgp & Hsa & Hctx
        & Hprev & Hmra & Hmrs).
  destruct (turnOn_functional _ _ _ _ _ _ _ _ Hturn Hturn0) as [<- <-].
  split; [exact Hact |].
  exists (mapSession (session_id s) d'). unfold sessionOf. rewrite Hd'.
  split; [reflexivity |]. cbn [mapSession session_state session_iteration
    session_goalPreviewId session_sessionActive session_context].
  rewrite Hst, Hit, Hgp, Hsa, Hctx. cbn [default].
  repeat split; try assumption; try reflexivity.
  - rewrite Hmrs. cbn [st_sessionActive mapSession session_sessionActive].
    now rewrite Hsa.
  - rewrite Hmrs. cbn [st_iteration mapSession session_iteration].
    now rewrite Hit.
Qed.

Lemma truthy_not_nullish v : truthy v = true -> is_nullish v = false.
Proof. destruct v; cbn; congruence. Qed.

Lemma nullish_or_object v : is_nullish (nullish_or v (JObj [])) = false.
Proof. destruct v; reflexivity. Qed.

Lemma nullish_or_id v : is_nullish v = false -> nullish_or v (JObj []) = v.
Proof. unfold nullish_or. now intros ->. Qed.

Lemma mapSession_context_defined id d :
  is_nullish (session_context (mapSession id d)) = false.
Proof. apply nullish_or_object. Qed.

Lemma turnContext_defined override s :
  is_nullish (turnContext override s) = false.
Proof.
  unfold turnContext.
  destruct (truthy override) eqn:E; cbn [andb];
    [destruct (typeof_object override) |]; auto using nullish_or_object.
  now apply truthy_not_nullish.
Qed.

Lemma turnContext_prior override id d :
  truthy override && typeof_object override = false ->
  turnContext override (mapSession id d) = session_context (mapSession id d).
Proof.
  unfold turnContext. intros ->. apply nullish_or_id, mapSession_context_defined.
Qed.

(** C3. After a successful turn whose agent response has the action type
    [finalize_goal], the stored session has [sessionActive = false],
    whatever [sessionActive] the state of the response carries (the
    response is arbitrary here), the reply reports it so, and no goal
    preview was written. *)
Theorem finalize_goal_closes_session
    (env : Env) (w : World) (auth : option string) (body : MessageBody)
    (s : SessionStateRecord) (resp : AgentServiceResponse)
    (r : MessageReply) (w' : World) :
  turnOn env w auth body s resp ->
  post_session_message auth body env w = (Ok r, w') ->
  actionIs resp "finalize_goal" = true ->
  (exists s', sessionOf w' (session_id s) = Some s'
              /\ session_sessionActive s' = false)
  /\ st_sessionActive (mr_state r) = false
  /\ previews w' = previews w.
Proof.
  intros Hturn H Hfin.
  destruct (successful_turn _ _ _ _ _ _ _ _ Hturn H)
    as (_ & s' & Hs' & _ & _ & _ & Hsa & _ & Hprev & _ & Hmr & _).
  rewrite Hfin in Hsa.
  rewrite (actionIs_exclusive _ _ "save_preview" Hfin eq_refl) in Hprev.
  split; [exists s'; auto |]. split; [congruence | exact Hprev].
Qed.

(** C4, as the code has it.  After a successful turn a field that the
    agent response omits falls back as follows: [state] and
    [goalPreviewId] to the prior session's values, [goalPreviewId] to the
    id of the preview just saved when the action is [save_preview] (and
    that preview is stored); [iteration] to the double-precision sum of
    the prior iteration and 1, which is the prior iteration plus one for
    an integer iteration of magnitude below [2 ^ 53]; [sessionActive] to
    the prior value unless the action is [finalize_goal], and to false
    when it is; [context] to the context override of the request when
    the request carries one, to the prior session's context otherwise. *)
Theorem omitted_fields_fall_back
    (env : Env) (w : World) (auth : option string) (body : MessageBody)
    (s : SessionStateRecord) (resp : AgentServiceResponse)
    (r : MessageReply) (w' : World) :
  turnOn env w auth body s resp ->
  post_session_message auth body env w = (Ok r, w') ->
  exists s',
    sessionOf w' (session_id s) = Some s'
    /\ (rp_state resp ≫= rs_state = None ->
        session_state s' = session_state s)
    /\ (rp_state resp ≫= rs_iteration = None ->
        session_iteration s' = js_add (session_iteration s) 1
        /\ forall n : Z,
             - 2 ^ 53 <= n < 2 ^ 53 -> session_iteration s = n ->
             session_iteration s' = (n + 1)%Z)
    /\ (rp_state resp ≫= rs_goalPreviewId = None ->
        actionIs resp "save_preview" = false ->
        session_goalPreviewId s' = session_goalPreviewId s)
    /\ (rp_state resp ≫= rs_goalPreviewId = None ->
        actionIs resp "save_preview" = true ->
        session_goalPreviewId s' = Some (savedPreviewId env resp)
        /\ is_Some (previews w' !! savedPreviewId env resp))
    /\ (rp_state resp ≫= rs_sessionActive = None ->
        actionIs resp "finalize_goal" = false ->
        session_sessionActive s' = session_sessionActive s)
    /\ (rp_state resp ≫= rs_sessionActive = None ->
        actionIs resp "finalize_goal" = true ->
        session_sessionActive s' = false)
    /\ (rp_context resp = None ->
        truthy (mb_context body) && typeof_object (mb_context body) = false ->
        session_context s' = session_context s)
    /\ (rp_context resp = None ->
        truthy (mb_context body) && typeof_object (mb_context body) = true ->
        session_context s' = mb_context body).
Proof.
  intros Hturn H.
  destruct (successful_turn _ _ _ _ _ _ _ _ Hturn H)
    as (_ & s' & Hs' & Hst & Hit & Hgp & Hsa & Hctx & Hprev & _).
  exists s'. split; [exact Hs' |].
  split. { intros E. now rewrite Hst, E. }
  split.
  { intros E. rewrite Hit, E. cbn [default]. split; [reflexivity |].
    intros n Hn ->. now apply js_add_integer. }
  split. { intros E Hsave. now rewrite Hgp, E, Hsave. }
  split.
  { intros E Hsave. rewrite Hgp, E, Hsave. split; [reflexivity |].
    rewrite Hsave in Hprev. destruct Hprev as (a & p & _ & Hp & _).
    now exists p. }
  split. { intros E Hfin. now rewrite Hsa, E, Hfin. }
  split. { intros E Hfin. now rewrite Hsa, Hfin. }
  split.
  - intros E Hno. rewrite Hctx, E. cbn [default].
    destruct Hturn as (u & i & t & _ & _ & _ & Hs & _).
    unfold sessionOf in Hs. apply fmap_Some in Hs as (d & _ & ->).
    rewrite (turnContext_prior _ _ _ Hno).
    apply nullish_or_id, mapSession_context_defined.
  - intros E Hyes. rewrite Hctx, E. cbn [default].
    rewrite (nullish_or_id _ (turnContext_defined _ _)).
    unfold turnContext. now rewrite Hyes.
Qed.

(** C5, as the code has it.  After a successful turn the iteration is the
    number the agent supplied, whatever it is, or, when the agent omitted
    it, the double-precision sum of the prior iteration and 1, which is
    the prior iteration plus one for an integer iteration of magnitude
    below [2 ^ 53]; so it does not decrease when the agent omits it, or
    supplies a number that is not below the prior one.  The reply carries
    the stored iteration. *)
Theorem iteration_follows_agent
    (env : Env) (w : World) (auth : option string) (body : MessageBody)
    (s : SessionStateRecord) (resp : AgentServiceResponse)
    (r : MessageReply) (w' : World) :
  turnOn env w auth body s resp ->
  post_session_message auth body env w = (Ok r, w') ->
  exists s',
    sessionOf w' (session_id s) = Some s'
    /\ st_iteration (mr_state r) = session_iteration s'
    /\ (rp_state resp ≫= rs_iteration = None ->
        session_iteration s' = js_add (session_iteration s) 1)
    /\ (rp_state resp ≫= rs_iteration = None ->
        isOrdered (session_iteration s) ->
        js_le (session_iteration s) (session_iteration s') = true)
    /\ (forall n : Z,
          rp_state resp ≫= rs_iteration = None ->
          - 2 ^ 53 <= n < 2 ^ 53 -> session_iteration s = n ->
          session_iteration s' = (n + 1)%Z)
    /\ (forall x : JsNum,
          rp_state resp ≫= rs_iteration = Some x ->
          session_iteration s' = x)
    /\ (forall x : JsNum,
          rp_state resp ≫= rs_iteration = Some x ->
          js_le (session_iteration s) x = true ->
          js_le (session_iteration s) (session_iteration s') = true).
Proof.
  intros Hturn H.
  destruct (successful_turn _ _ _ _ _ _ _ _ Hturn H)
    as (_ & s' & Hs' & _ & Hit & _ & _ & _ & _ & _ & _ & Hst).
  exists s'. split; [exact Hs' |]. split; [exact Hst |].
  split. { intros E. now rewrite Hit, E. }
  split.
  { intros E Hord. rewrite Hit, E. cbn [default].
    now apply js_add_1_above. }
  split.
  { intros n E Hn Hs. rewrite Hit, E, Hs. cbn [default].
    now apply js_add_integer. }
  split. { intros x E. now rewrite Hit, E. }
  intros x E Hle. now rewrite Hit, E.
Qed.

Lemma appendChatMessage_run input env w c d :
  chats w !! ci_chatId input = Some c ->
  sessions w !! ci_sessionId input = Some d ->
  exists w1,
    appendChatMessage input env w = (Ok tt, w1)
    /\ sessions w1
       = <[ci_sessionId input := applySessionUpdate (env_now env) noSessionUpdate d]>
           (sessions w)
    /\ chatMessages w1
       = chatMessages w
         ++ [{| cm_chatId := ci_chatId input;
                cm_sessionId := ci_sessionId input;
                cm_sender := ci_sender input;
                cm_message := ci_message input;
                cm_createdAt := env_now env |}]
    /\ previews w1 = previews w
    /\ users w1 = users w /\ goals w1 = goals w /\ tasks w1 = tasks w.
Proof.
  intros Hc Hd. unfold appendChatMessage, touchChat, touchSession.
  rewrite (bind_ok _ _ env w env w) by reflexivity. cbv zeta.
  erewrite bind_ok by reflexivity.
  erewrite bind_ok; cycle 1.
  { erewrite bind_ok by reflexivity. cbn [chats set_chatMessages].
    rewrite Hc. reflexivity. }
  erewrite bind_ok by reflexivity.
  cbn [sessions set_chats set_chatMessages]. rewrite Hd.
  eexists. split; [reflexivity |]. cbn. repeat split; reflexivity.
Qed.

Lemma invokeAgentService_fails rq env w :
  agentCallFails env rq ->
  exists e w',
    invokeAgentService rq env w = (Throw (Api e), w')
    /\ (w' = w \/ w' = set_agentCalls (fun sent => sent ++ [rq]) w).
Proof.
  unfold agentCallFails, invokeAgentService, getAgentServiceUrl, bind, ask,
    modify, ret, throwApi, throw.
  destruct (env_agentUrl env) as [url |]; [| do 2 eexists; split; eauto].
  destruct (String.eqb url "") eqn:Eurl; [do 2 eexists; split; eauto |].
  destruct (env_fetch env rq) as [| st text | | data]; intros H.
  - do 2 eexists; split; eauto.
  - destruct (st =? 503); do 2 eexists; split; eauto.
  - do 2 eexists; split; eauto.
  - subst url. discriminate Eurl.
Qed.

(** C10. When the agent call of an accepted message fails, the request is
    rejected with the error of the call, the transcript has grown by
    exactly the user's message, no preview was written, and the session
    keeps its state, iteration, goalPreviewId, sessionActive and context
    (only its [updatedAt] moved, with the append). *)
Theorem failed_agent_call_records_only_the_message
    (env : Env) (w : World) (userId : string) (body : MessageBody)
    (sessionId text : string) (s : SessionStateRecord) :
  String.eqb userId "" = false ->
  nonblank_string (mb_sessionId body) = Some sessionId ->
  nonblank_string (mb_message body) = Some text ->
  mb_userId body = JUndefined \/ mb_userId body = JStr userId ->
  sessionOf w sessionId = Some s ->
  session_userId s = userId ->
  session_sessionActive s = true ->
  is_Some (chats w !! session_chatId s) ->
  agentCallFails env
    (agentPayloadOf s userId text (turnContext (mb_context body) s)) ->
  exists e w' s',
    post_session_message (Some userId) body env w = (Throw (Api e), w')
    /\ chatMessages w'
       = chatMessages w
         ++ [{| cm_chatId := session_chatId s; cm_sessionId := sessionId;
                cm_sender := sender_user; cm_message := text;
                cm_createdAt := env_now env |}]
    /\ previews w' = previews w
    /\ sessionOf w' sessionId = Some s'
    /\ session_state s' = session_state s
    /\ session_iteration s' = session_iteration s
    /\ session_goalPreviewId s' = session_goalPreviewId s
    /\ session_sessionActive s' = session_sessionActive s
    /\ session_context s' = session_context s
    /\ users w' = users w /\ goals w' = goals w /\ tasks w' = tasks w.
Proof.
  intros Hu Hsid Htext Hpu Hs Hown Hact [c Hc] Hfail.
  pose proof (sessionOf_id _ _ _ Hs) as Hid.
  unfold sessionOf in Hs. apply fmap_Some in Hs as (d & Hd & Hsd).
  destruct (appendChatMessage_run
              {| ci_chatId := session_chatId s; ci_sessionId := session_id s;
                 ci_sender := sender_user; ci_message := text |} env w c d)
    as (w1 & Happ & Hs1 & Hm1 & Hp1 & Hu1 & Hg1 & Ht1);
    [exact Hc | cbn; now rewrite Hid |].
  cbn [ci_chatId ci_sessionId ci_sender ci_message] in *.
  destruct (invokeAgentService_fails _ env w1 Hfail) as (e & w2 & He & Hw2).
  exists e, w2, (mapSession sessionId (applySessionUpdate (env_now env) noSessionUpdate d)).
  assert (Hsame : chatMessages w2 = chatMessages w1
                  /\ previews w2 = previews w1
                  /\ sessions w2 = sessions w1
                  /\ users w2 = users w1 /\ goals w2 = goals w1
                  /\ tasks w2 = tasks w1)
    by (destruct Hw2 as [-> | ->]; repeat split).
  destruct Hsame as (-> & -> & Hs2 & -> & -> & ->).
  split.
  - unfold post_session_message.
    rewrite (bind_ok _ _ _ _ _ _ (requireUser_ok _ env w Hu)).
    rewrite Hsid, Htext. do 2 (erewrite bind_ok by reflexivity).
    erewrite bind_ok; cycle 1.
    { destruct Hpu as [-> | ->]; cbn; [| rewrite String.eqb_refl]; reflexivity. }
    erewrite bind_ok by reflexivity.
    unfold sessionOf. rewrite Hd. cbn [fmap option_fmap option_map].
    rewrite <- Hsd. erewrite bind_ok by reflexivity.
    rewrite Hown, String.eqb_refl. erewrite bind_ok by reflexivity.
    rewrite Hact. erewrite bind_ok by reflexivity.
    unfold agentTurn. cbv zeta.
    rewrite (bind_ok _ _ _ _ _ _ Happ).
    rewrite (bind_throw _ _ _ _ _ _ He). reflexivity.
  - rewrite Hid in *. unfold sessionOf. rewrite Hs2, Hs1, lookup_insert_eq.
    subst s. cbn. repeat split; auto.
Qed.

(** *** The claims on the session *)

Lemma sampleTurn answer :
  turnOn (sampleEnv (FetchOk answer)) sampleWorld (Some "u1") sampleMessage
    sampleSession answer.
Proof.
  exists "u1", "s1", "Add a testing milestone next week.". repeat split.
Qed.

(** Scenario E: the agent answers with [finalize_goal] and
    [state.sessionActive = true]; the stored session is inactive. *)
Lemma finalize_goal_witness :
  exists s',
    sessionOf
      (snd (post_session_message (Some "u1") sampleMessage
              (sampleEnv (FetchOk replyFinalizingYetActive)) sampleWorld))
      "s1" = Some s'
    /\ session_sessionActive s' = false.
Proof.
  destruct (post_session_message (Some "u1") sampleMessage
              (sampleEnv (FetchOk replyFinalizingYetActive)) sampleWorld)
    as [[r | f] w'] eqn:E.
  - exact (proj1 (finalize_goal_closes_session _ _ _ _ _ _ r w'
                    (sampleTurn replyFinalizingYetActive) E eq_refl)).
  - vm_compute in E. discriminate E.
Defined.

(** C4 fails as stated.  With a context override in the request and a
    reply that omits the context, the stored context is the override, not
    the prior session's; with a [finalize_goal] action and a reply that
    omits [sessionActive], the stored flag is false, not the prior true;
    with a reply that omits the iteration on a session at iteration
    [2 ^ 53], the stored iteration is [2 ^ 53], not [2 ^ 53 + 1]. *)
Lemma omitted_fields_counterexample :
  let out1 := post_session_message (Some "u1") sampleMessageWithContext
                (sampleEnv (FetchOk replyOmittingAll)) sampleWorld in
  let out2 := post_session_message (Some "u1") sampleMessage
                (sampleEnv (FetchOk replyFinalizingOnly)) sampleWorld in
  let out3 := post_session_message (Some "u1") sampleMessage
                (sampleEnv (FetchOk replyOmittingAll)) worldAtIteration2p53 in
  (exists r, fst out1 = Ok r)
  /\ rp_context replyOmittingAll = None
  /\ session_context <$> sessionOf sampleWorld "s1" = Some sampleContext
  /\ session_context <$> sessionOf (snd out1) "s1"
     = Some (JObj [("focus", JStr "testing")])
  /\ session_context <$> sessionOf (snd out1) "s1"
     <> session_context <$> sessionOf sampleWorld "s1"
  /\ (exists r, fst out2 = Ok r)
  /\ rp_state replyFinalizingOnly ≫= rs_sessionActive = None
  /\ session_sessionActive <$> sessionOf sampleWorld "s1" = Some true
  /\ session_sessionActive <$> sessionOf (snd out2) "s1" = Some false
  /\ (exists r, fst out3 = Ok r)
  /\ rp_state replyOmittingAll ≫= rs_iteration = None
  /\ session_iteration <$> sessionOf worldAtIteration2p53 "s1"
     = Some (integer (2 ^ 53))
  /\ session_iteration <$> sessionOf (snd out3) "s1"
     = Some (integer (2 ^ 53))
  /\ session_iteration <$> sessionOf (snd out3) "s1"
     <> Some (integer (2 ^ 53 + 1)).
Proof.
  vm_compute. repeat split; eauto; discriminate.
Qed.

(** Scenario D: a [save_preview] action with the iteration omitted, on a
    session at iteration 0: the iteration is 1 and the session points at
    the new preview, which is stored. *)
Lemma omitted_fields_witness :
  exists s',
    sessionOf
      (snd (post_session_message (Some "u1") sampleMessage
              (sampleEnv (FetchOk replySavingPreview)) sampleWorld))
      "s1" = Some s'
    /\ session_iteration s' = 1
    /\ session_goalPreviewId s' = Some "p1".
Proof.
  destruct (post_session_message (Some "u1") sampleMessage
              (sampleEnv (FetchOk replySavingPreview)) sampleWorld)
    as [[r | f] w'] eqn:E.
  - destruct (omitted_fields_fall_back _ _ _ _ _ _ r w'
                (sampleTurn replySavingPreview) E)
      as (s' & Hs' & _ & Hit & _ & Hgp & _).
    exists s'. split; [exact Hs' |]. split.
    + apply (proj2 (Hit eq_refl) 0); [lia | reflexivity].
    + exact (proj1 (Hgp eq_refl eq_refl)).
  - vm_compute in E. discriminate E.
Defined.

(** C5 fails as stated.  On a session at iteration 5 the agent supplies
    the iteration 0; the turn succeeds and the stored iteration is 0. *)
Lemma iteration_counterexample :
  let out := post_session_message (Some "u1") sampleMessage
               (sampleEnv (FetchOk replyWithIteration0)) worldAtIteration5 in
  (exists r, fst out = Ok r)
  /\ session_iteration <$> sessionOf worldAtIteration5 "s1"
     = Some (integer 5)
  /\ session_iteration <$> sessionOf (snd out) "s1" = Some (integer 0)
  /\ ~ (forall before after,
          session_iteration <$> sessionOf worldAtIteration5 "s1" = Some before ->
          session_iteration <$> sessionOf (snd out) "s1" = Some after ->
          js_le before after = true).
Proof.
  vm_compute. repeat split; eauto.
  intros H. specialize (H _ _ eq_refl eq_refl). discriminate H.
Qed.

(** The agent omits the iteration on a session at iteration 0: it is 1. *)
Lemma iteration_witness :
  exists s',
    sessionOf
      (snd (post_session_message (Some "u1") sampleMessage
              (sampleEnv (FetchOk replyOmittingAll)) sampleWorld))
      "s1" = Some s'
    /\ session_iteration s' = 1.
Proof.
  destruct (post_session_message (Some "u1") sampleMessage
              (sampleEnv (FetchOk replyOmittingAll)) sampleWorld)
    as [[r | f] w'] eqn:E.
  - destruct (iteration_follows_agent _ _ _ _ _ _ r w'
                (sampleTurn replyOmittingAll) E)
      as (s' & Hs' & _ & _ & _ & Hit & _).
    exists s'. split; [exact Hs' |].
    apply (Hit 0 eq_refl); [lia | reflexivity].
  - vm_compute in E. discriminate E.
Defined.

(** The agent supplies the iteration 0.5: it is stored and sent back as
    it is. *)
Example iteration_of_one_half :
  let out := post_session_message (Some "u1") sampleMessage
               (sampleEnv (FetchOk replyWithIterationHalf)) sampleWorld in
  session_iteration <$> sessionOf (snd out) "s1" = Some (Finite (1 # 2))
  /\ (st_iteration ∘ mr_state) <$> (match fst out with
                                     | Ok r => Some r
                                     | Throw _ => None
                                     end)
     = Some (Finite (1 # 2)).
Proof. vm_compute. split; reflexivity. Qed.

(** The outcome of a message that names an inactive session does not
    depend on the environment of the request. *)
Lemma message_to_inactive_session_anywhere
    (env env2 : Env) (w : World) (auth : option string) (body : MessageBody)
    (sessionId : string) (s : SessionStateRecord) :
  nonblank_string (mb_sessionId body) = Some sessionId ->
  sessionOf w sessionId = Some s ->
  session_sessionActive s = false ->
  post_session_message auth body env2 w = post_session_message auth body env w.
Proof.
  intros Hsid Hs Hinactive.
  unfold post_session_message, bind, requireUser, assertSome, assert, ret,
    throwApi, throw, findSessionById, get.
  rewrite Hsid.
  destruct auth as [userId |]; [| reflexivity].
  unfold bind.
  destruct (String.eqb userId ""); cbn [negb]; [reflexivity |].
  cbv beta iota.
  destruct (nonblank_string (mb_message body)) as [text |]; [| reflexivity].
  destruct (is_undefined (mb_userId body));
    [| destruct (is_string (mb_userId body) userId)]; cbn.
  all: rewrite ?Hs; cbn.
  3: reflexivity.
  all: destruct (String.eqb (session_userId s) userId); cbn.
  all: rewrite ?Hinactive; reflexivity.
Qed.

(** C7. A message that names a session whose [sessionActive] is false is
    rejected and leaves the world as it was: nothing is appended to the
    transcript, no request is sent to the agent, the session is not
    updated.  The error is the 409 of the finalized session whenever the
    request is otherwise acceptable (it comes from the owner, with a
    text); a request that fails an earlier check gets that check's 400 or
    401.  A retry, at any time and whatever the agent would answer, meets
    the same rejection. *)
Theorem inactive_session_rejects_message
    (env : Env) (w : World) (auth : option string) (body : MessageBody)
    (sessionId : string) (s : SessionStateRecord) :
  nonblank_string (mb_sessionId body) = Some sessionId ->
  sessionOf w sessionId = Some s ->
  session_sessionActive s = false ->
  exists e w',
    post_session_message auth body env w = (Throw (Api e), w')
    /\ chatMessages w' = chatMessages w
    /\ agentCalls w' = agentCalls w
    /\ sessions w' = sessions w
    /\ previews w' = previews w
    /\ w' = w
    /\ (status e = 400 \/ status e = 401 \/ status e = 409)
    /\ (auth = Some (session_userId s) ->
        String.eqb (session_userId s) "" = false ->
        is_Some (nonblank_string (mb_message body)) ->
        mb_userId body = JUndefined \/ mb_userId body = JStr (session_userId s) ->
        e = {| status := 409;
               message :=
                 [Txt "Session '"; Txt sessionId;
                  Txt "' is finalized and cannot accept new messages."];
               details := NoDetails |})
    /\ (forall env2,
          post_session_message auth body env2 w' = (Throw (Api e), w')).
Proof.
  intros Hsid Hs Hinactive.
  destruct (message_to_inactive_session env w auth body sessionId s
              Hsid Hs Hinactive) as (e & He & Hst & H409).
  exists e, w. split; [exact He |]. do 5 (split; [reflexivity |]).
  split; [exact Hst |]. split; [exact H409 |].
  intros env2. rewrite <- He.
  now apply (message_to_inactive_session_anywhere env env2 w auth body
               sessionId s).
Qed.

Lemma inactive_session_witness :
  post_session_message (Some "u1") sampleMessage
    (sampleEnv (FetchOk replyOmittingAll)) worldWithClosedSession
  = (Throw (Api {| status := 409; message := sessionFinalized "s1";
                   details := NoDetails |}), worldWithClosedSession)
  /\ agentCalls worldWithClosedSession = [].
Proof.
  destruct (inactive_session_rejects_message
              (sampleEnv (FetchOk replyOmittingAll)) worldWithClosedSession
              (Some "u1") sampleMessage "s1" closedSession
              eq_refl eq_refl eq_refl)
    as (e & w' & He & _ & _ & _ & _ & Hw & _ & H409 & _).
  split; [| reflexivity].
  rewrite He, Hw.
  rewrite (H409 eq_refl eq_refl (ex_intro _ _ eq_refl) (or_introl eq_refl)).
  reflexivity.
Defined.

(** A message made of a no-break space (U+00A0) is blank: the request is
    rejected with 400, and the session is not looked at. *)
Example message_of_no_break_space :
  nonblank_string (JStr noBreakSpace) = None
  /\ post_session_message (Some "u1")
       {| mb_sessionId := JStr "s1"; mb_message := JStr noBreakSpace;
          mb_context := JUndefined; mb_userId := JUndefined |}
       (sampleEnv (FetchOk replyOmittingAll)) worldWithClosedSession
     = (Throw (Api {| status := 400; message := [Txt "message is required."];
                      details := NoDetails |}), worldWithClosedSession).
Proof. split; reflexivity. Qed.

(** An accepted message reaches the agent once, after the text of the
    user has been filed. *)
Example accepted_message_calls_agent :
  agentCalls
    (snd (post_session_message (Some "u1") sampleMessage
            (sampleEnv (FetchOk replyOmittingAll)) sampleWorld))
  = [agentPayloadOf sampleSession "u1" "Add a testing milestone next week."
       sampleContext].
Proof. vm_compute. reflexivity. Qed.

(** C6 fails as stated.  A session created by [session:latest] and then
    answered by the agent with the state [finalized], without a finalize
    action, is reachable, has the state [finalized] and is still active;
    the next message to it is accepted. *)
Lemma finalized_state_counterexample :
  lifecycle worldBeforeSession worldWithFinalizedState
  /\ session_state <$> sessionOf worldWithFinalizedState "s2"
     = Some "finalized"
  /\ session_sessionActive <$> sessionOf worldWithFinalizedState "s2"
     = Some true
  /\ exists r,
       fst (post_session_message (Some "u1") messageToNewSession
              (sampleEnv (FetchOk replyOmittingAll)) worldWithFinalizedState)
       = Ok r.
Proof.
  split; [| vm_compute; repeat split; eauto].
  eapply rtc_l.
  - eapply (step_latest _ (sampleEnv FetchFailed) (Some "u1")).
    + reflexivity.
    + apply surjective_pairing.
  - apply rtc_once.
    eapply (step_message _ (sampleEnv (FetchOk replyWithFinalizedState))
              (Some "u1") messageToNewSession).
    apply surjective_pairing.
Qed.

(** C6, as the code has it.  A turn whose action is [finalize_goal] leaves
    the session inactive, and an inactive session is never written again:
    through any sequence of [session:latest] and [session:message]
    requests it stays as it is, [sessionActive] false, and every message
    that names it is rejected without a write. *)
Theorem inactive_session_stays_inactive :
  (forall env w auth body s resp r w1 w2,
      turnOn env w auth body s resp ->
      post_session_message auth body env w = (Ok r, w1) ->
      actionIs resp "finalize_goal" = true ->
      lifecycle w1 w2 ->
      exists s1,
        sessionOf w1 (session_id s) = Some s1
        /\ session_sessionActive s1 = false
        /\ sessionOf w2 (session_id s) = Some s1)
  /\ (forall w w' sessionId s,
      lifecycle w w' ->
      sessionOf w sessionId = Some s ->
      session_sessionActive s = false ->
      sessionOf w' sessionId = Some s
      /\ forall env auth body,
           nonblank_string (mb_sessionId body) = Some sessionId ->
           exists e,
             post_session_message auth body env w' = (Throw (Api e), w')).
Proof.
  split.
  - intros env w auth body s resp r w1 w2 Hturn H Hfin Hlife.
    destruct (successful_turn _ _ _ _ _ _ _ _ Hturn H)
      as (_ & s1 & Hs1 & _ & _ & _ & Hsa & _).
    rewrite Hfin in Hsa. exists s1. split; [exact Hs1 |].
    split; [exact Hsa |].
    exact (lifecycle_keeps_inactive _ _ _ _ Hlife Hs1 Hsa).
  - intros w w' sessionId s Hlife Hs Hinactive.
    pose proof (lifecycle_keeps_inactive _ _ _ _ Hlife Hs Hinactive) as Hkeep.
    split; [exact Hkeep |].
    intros env auth body Hsid.
    destruct (message_to_inactive_session env w' auth body sessionId s
                Hsid Hkeep Hinactive) as (e & He & _).
    now exists e.
Qed.

(** The closed sample session survives a further message untouched, and
    the session that a [finalize_goal] action closed is inactive. *)
Lemma inactive_session_stays_witness :
  sessionOf
    (snd (post_session_message (Some "u1") sampleMessage
            (sampleEnv (FetchOk replyOmittingAll)) worldWithClosedSession))
    "s1" = Some closedSession
  /\ exists s1,
       sessionOf
         (snd (post_session_message (Some "u1") sampleMessage
                 (sampleEnv (FetchOk replyFinalizingYetActive)) sampleWorld))
         "s1" = Some s1
       /\ session_sessionActive s1 = false.
Proof.
  destruct inactive_session_stays_inactive as [Henter Hstay].
  split.
  - apply (Hstay worldWithClosedSession _ "s1" closedSession);
      [| reflexivity | reflexivity].
    apply rtc_once.
    eapply (step_message _ (sampleEnv (FetchOk replyOmittingAll))
              (Some "u1") sampleMessage).
    apply surjective_pairing.
  - destruct (post_session_message (Some "u1") sampleMessage
                (sampleEnv (FetchOk replyFinalizingYetActive)) sampleWorld)
      as [[r | f] w'] eqn:E.
    + destruct (Henter _ _ _ _ _ _ r w' w'
                  (sampleTurn replyFinalizingYetActive) E eq_refl
                  (rtc_refl _ _)) as (s1 & Hs1 & Hsa & _).
      exists s1. split; [exact Hs1 | exact Hsa].
    + vm_compute in E. discriminate E.
Defined.

(** The agent is unreachable: the message of the user is in the
    transcript, and the session is where it was. *)
Lemma failed_agent_call_witness :
  exists e w' s',
    post_session_message (Some "u1") sampleMessage (sampleEnv FetchFailed)
      sampleWorld = (Throw (Api e), w')
    /\ List.map cm_message (chatMessages w')
       = ["Add a testing milestone next week."]
    /\ previews w' = ∅
    /\ sessionOf w' "s1" = Some s'
    /\ session_iteration s' = 0
    /\ session_sessionActive s' = true.
Proof.
  destruct (failed_agent_call_records_only_the_message
              (sampleEnv FetchFailed) sampleWorld "u1" sampleMessage "s1"
              "Add a testing milestone next week." sampleSession
              eq_refl eq_refl eq_refl (or_introl eq_refl) eq_refl eq_refl
              eq_refl (ex_intro _ _ eq_refl) I)
    as (e & w' & s' & He & Hm & Hp & Hs' & _ & Hit & _ & Hsa & _).
  exists e, w', s'. split; [exact He |]. split; [now rewrite Hm |].
  split; [exact Hp |]. split; [exact Hs' |]. split; [exact Hit | exact Hsa].
Defined.

(** ** Scenarios *)

(** Scenario A: 25 hours against a budget of 20 and no goal. *)
Example scenario_A :
  post_goals (Some "u1") goalOf25Hours (sampleEnv FetchFailed) worldOfNewUser
  = (Throw (Api {| status := 409;
                   message := insufficientWithNewGoal 20%Q 25%Q;
                   details := BudgetDetails 20%Q 25%Q [] |}),
     worldOfNewUser).
Proof. vm_compute. reflexivity. Qed.

(** Scenario B: 15 more hours on top of an active goal of 10. *)
Example scenario_B :
  post_goals (Some "u1") goalOf15Hours (sampleEnv FetchFailed) sampleWorld
  = (Throw (Api {| status := 409;
                   message := insufficientWithNewGoal 20%Q 25%Q;
                   details :=
                     BudgetDetails 20%Q 25%Q
                       [{| gs_goalId := "g1"; gs_title := "Portfolio";
                           gs_weeklyHours := 10%Q |}] |}),
     sampleWorld).
Proof. vm_compute. reflexivity. Qed.

(** The context of the sample user on 2025-11-10: ten hours are left, and
    the task of 2025-11-17, the seventh day after, is upcoming. *)
Example sample_context :
  buildUserContext sampleUser (sampleEnv FetchFailed) sampleWorld
  = (Ok {| availableHoursLeft := 10%Q;
           upcomingTasks :=
             [{| ts_id := "t1"; ts_title := "Integration test";
                 ts_goalId := "g1"; ts_milestoneId := "m1";
                 ts_date := 20409; ts_estimatedHours := 4%Q;
                 ts_done := false |}] |}, sampleWorld).
Proof. vm_compute. reflexivity. Qed.

(** One day earlier the task is not upcoming yet. *)
Example sample_context_day_before :
  match fst (buildUserContext sampleUser
               {| env_now := 20401 * MS_PER_DAY;
                  env_parseDate := fun _ => None;
                  env_agentUrl := None;
                  env_fetch := fun _ => FetchFailed;
                  env_newGoalId := ""; env_newTaskId := "";
                  env_newSessionId := ""; env_newChatId := "";
                  env_newPreviewId := "" |} sampleWorld) with
  | Ok context => upcomingTasks context
  | Throw _ => [summarize sampleTask]
  end = [].
Proof. vm_compute. reflexivity. Qed.

(** * Further properties *)

(** ** Goal previews *)

(** X1. [upsertGoalPreview] always returns: the record it returns is the
    one [findGoalPreviewById] then finds under its id, which is the id of
    the input when it gives a non-empty one and a generated id otherwise;
    every other preview, the sessions, the transcript and the resources
    are untouched. *)
Theorem upsertGoalPreview_then_find
    (input : UpsertGoalPreviewInput) (env : Env) (w : World) :
  exists rec w',
    upsertGoalPreview input env w = (Ok rec, w')
    /\ findGoalPreviewById (gp_id rec) env w' = (Ok (Some rec), w')
    /\ gp_id rec = default (env_newPreviewId env) (givenId (ug_id input))
    /\ gp_data rec = nullish_or (ug_data input) (JObj [])
    /\ (forall k, k <> gp_id rec -> previews w' !! k = previews w !! k)
    /\ sessions w' = sessions w
    /\ chatMessages w' = chatMessages w
    /\ sameResources w w'.
Proof.
  unfold upsertGoalPreview, findGoalPreviewById.
  rewrite (bind_ok _ _ env w env w) by reflexivity. cbv zeta.
  destruct (givenId (ug_id input)) as [id |]; cbn [default].
  - rewrite (bind_ok _ _ env w w w) by reflexivity.
    erewrite bind_ok by reflexivity.
    eexists _, _. split; [reflexivity |].
    cbn [gp_id mapPreview].
    split.
    { erewrite bind_ok by reflexivity. unfold ret. cbn [previews set_previews].
      now rewrite lookup_insert_eq. }
    split; [reflexivity |]. split.
    { destruct (previews w !! id); reflexivity. }
    split.
    { intros k Hk. cbn. now rewrite lookup_insert_ne by congruence. }
    repeat split; reflexivity.
  - erewrite bind_ok by reflexivity.
    eexists _, _. split; [reflexivity |].
    cbn [gp_id mapPreview].
    split.
    { erewrite bind_ok by reflexivity. unfold ret. cbn [previews set_previews].
      now rewrite lookup_insert_eq. }
    split; [reflexivity |]. split; [reflexivity |].
    split.
    { intros k Hk. cbn. now rewrite lookup_insert_ne by congruence. }
    repeat split; reflexivity.
Qed.

(** X2. Upserting under the id of a stored preview replaces its payload
    and its [updatedAt] only: the stored preview keeps its user, its
    session and its [createdAt], whatever user and session the input
    names, and no preview is added. *)
Theorem upsertGoalPreview_in_place
    (input : UpsertGoalPreviewInput) (env : Env) (w : World)
    (id : string) (d : GoalPreviewRecord) :
  givenId (ug_id input) = Some id ->
  previews w !! id = Some d ->
  exists rec w',
    upsertGoalPreview input env w = (Ok rec, w')
    /\ gp_id rec = id
    /\ gp_userId rec = gp_userId d
    /\ gp_sessionId rec = gp_sessionId d
    /\ gp_createdAt rec = gp_createdAt d
    /\ gp_updatedAt rec = env_now env
    /\ gp_data rec = nullish_or (ug_data input) (JObj [])
    /\ dom (previews w') = dom (previews w).
Proof.
  intros Hid Hd. unfold upsertGoalPreview.
  rewrite (bind_ok _ _ env w env w) by reflexivity. cbv zeta.
  rewrite Hid. rewrite (bind_ok _ _ env w w w) by reflexivity.
  rewrite Hd. erewrite bind_ok by reflexivity.
  eexists _, _. split; [reflexivity |]. cbn.
  repeat split; try reflexivity.
  rewrite dom_insert_L.
  apply subseteq_union_1_L, singleton_subseteq_l, elem_of_dom. eauto.
Qed.

(** Another user and session send a new payload for the stored preview: it
    stays the preview of the first. *)
Lemma upsertGoalPreview_in_place_witness :
  exists rec w',
    upsertGoalPreview previewUpdate (sampleEnv FetchFailed) worldWithPreview
    = (Ok rec, w')
    /\ gp_userId rec = "u1" /\ gp_sessionId rec = "s1"
    /\ dom (previews w') = dom (previews worldWithPreview).
Proof.
  destruct (upsertGoalPreview_in_place previewUpdate (sampleEnv FetchFailed)
              worldWithPreview "p9" samplePreview eq_refl eq_refl)
    as (rec & w' & Hrun & _ & Hu & Hs & _ & _ & _ & Hdom).
  exists rec, w'. auto.
Defined.

(** X3. Upserting with no id, or with the empty id, stores a new preview
    under the generated id, for the user and session of the input; when
    that id is fresh the store holds one preview more and every preview
    it held is still there. *)
Theorem upsertGoalPreview_creates
    (input : UpsertGoalPreviewInput) (env : Env) (w : World) :
  ug_id input = None \/ ug_id input = Some "" ->
  previews w !! env_newPreviewId env = None ->
  exists rec w',
    upsertGoalPreview input env w = (Ok rec, w')
    /\ gp_id rec = env_newPreviewId env
    /\ gp_userId rec = ug_userId input
    /\ gp_sessionId rec = ug_sessionId input
    /\ gp_createdAt rec = env_now env
    /\ size (previews w') = S (size (previews w))
    /\ (forall k d, previews w !! k = Some d -> previews w' !! k = Some d).
Proof.
  intros Hid Hfresh. unfold upsertGoalPreview.
  rewrite (bind_ok _ _ env w env w) by reflexivity. cbv zeta.
  assert (givenId (ug_id input) = None) as ->
    by (destruct Hid as [-> | ->]; reflexivity).
  erewrite bind_ok by reflexivity.
  eexists _, _. split; [reflexivity |]. cbn.
  repeat split; try reflexivity.
  - now apply map_size_insert_None.
  - intros k d Hk. rewrite lookup_insert_ne; [exact Hk |]. congruence.
Qed.

(** The first preview of the sample world gets the generated id. *)
Lemma upsertGoalPreview_creates_witness :
  exists rec w',
    upsertGoalPreview previewWithoutId (sampleEnv FetchFailed) sampleWorld
    = (Ok rec, w')
    /\ gp_id rec = "p1"
    /\ size (previews w') = 1%nat.
Proof.
  destruct (upsertGoalPreview_creates previewWithoutId (sampleEnv FetchFailed)
              sampleWorld (or_introl eq_refl) eq_refl)
    as (rec & w' & Hrun & Hid & _ & _ & _ & Hsize & _).
  exists rec, w'. auto.
Defined.


(** ** Users *)

(** X4. [updateUser] on an id that is not stored fails with 404 and writes
    nothing; on a stored id it returns the user that [findUserById] then
    finds, with the email and [createdAt] of the stored document,
    [updatedAt] set to now, each of [name], [profileImageUrl], [timezone],
    [availableHoursPerWeek] and [googleSub] replaced when the update gives
    it and kept when the update leaves it out, and every other user and
    collection untouched. *)
Theorem updateUser_outcome
    (id : string) (updates : UpdateUserInput) (env : Env) (w : World) :
  match users w !! id with
  | None =>
      updateUser id updates env w
      = (Throw (Api {| status := 404; message := [Txt "User not found."];
                       details := NoDetails |}), w)
  | Some d =>
      exists u d' w',
        updateUser id updates env w = (Ok u, w')
        /\ findUserById id env w' = (Ok (Some u), w')
        /\ users w' !! id = Some d'
        /\ u = mapUser id d'
        /\ user_id u = id
        /\ user_email u = ud_email d
        /\ user_createdAt u = ud_createdAt d
        /\ user_updatedAt u = env_now env
        /\ ud_email d' = ud_email d
        /\ ud_createdAt d' = ud_createdAt d
        /\ ud_updatedAt d' = env_now env
        /\ ud_name d'
           = match uu_name updates with
             | Some name => Some name
             | None => ud_name d
             end
        /\ ud_profileImageUrl d'
           = match uu_profileImageUrl updates with
             | Some url => url
             | None => ud_profileImageUrl d
             end
        /\ ud_timezone d'
           = match uu_timezone updates with
             | Some timezone => Some timezone
             | None => ud_timezone d
             end
        /\ ud_availableHoursPerWeek d'
           = match uu_availableHoursPerWeek updates with
             | Some hours => Some hours
             | None => ud_availableHoursPerWeek d
             end
        /\ ud_googleSub d'
           = match uu_googleSub updates with
             | Some sub => Some sub
             | None => ud_googleSub d
             end
        /\ (uu_name updates = None ->
            user_name u = user_name (mapUser id d))
        /\ (uu_profileImageUrl updates = None ->
            user_profileImageUrl u = user_profileImageUrl (mapUser id d))
        /\ (uu_timezone updates = None ->
            user_timezone u = user_timezone (mapUser id d))
        /\ (uu_availableHoursPerWeek updates = None ->
            user_availableHoursPerWeek u
            = user_availableHoursPerWeek (mapUser id d))
        /\ (uu_googleSub updates = None ->
            user_googleSub u = user_googleSub (mapUser id d))
        /\ (forall k, k <> id -> users w' !! k = users w !! k)
        /\ goals w' = goals w /\ milestones w' = milestones w
        /\ tasks w' = tasks w
        /\ sessions w' = sessions w /\ chats w' = chats w
        /\ chatMessages w' = chatMessages w
        /\ previews w' = previews w
        /\ agentCalls w' = agentCalls w
  end.
Proof.
  destruct (users w !! id) as [d |] eqn:Ed.
  - rewrite (updateUser_run _ _ _ _ _ Ed).
    eexists _, (applyUserUpdate (env_now env) updates d), _.
    split; [reflexivity |].
    split.
    { unfold findUserById, userOf.
      rewrite (bind_ok _ _ env _ _ _) by reflexivity.
      unfold ret. cbn [users set_users]. now rewrite lookup_insert_eq. }
    split; [cbn [users set_users]; apply lookup_insert_eq |].
    cbn. repeat split; try reflexivity.
    1-5: now intros ->.
    intros k Hk. now rewrite lookup_insert_ne by congruence.
  - unfold updateUser.
    rewrite (bind_ok _ _ env w env w) by reflexivity.
    rewrite (bind_ok _ _ env w w w) by reflexivity.
    now rewrite Ed.
Qed.

(** ** Sessions *)

(** The session that [createSession] returns is the one it stored. *)
Lemma createSession_stores
    (input : CreateSessionInput) (env : Env) (w : World) :
  is_nullish (cs_context input) = false ->
  exists s w',
    createSession input env w = (Ok s, w')
    /\ findSessionById (session_id s) env w' = (Ok (Some s), w')
    /\ session_id s = env_newSessionId env
    /\ session_userId s = cs_userId input
    /\ session_iteration s = 0
    /\ session_sessionActive s = true
    /\ session_goalPreviewId s = None
    /\ (exists c, chats w' !! session_chatId s = Some c
                  /\ chat_userId c = cs_userId input)
    /\ (forall k, k <> session_id s -> sessions w' !! k = sessions w !! k)
    /\ chatMessages w' = chatMessages w
    /\ previews w' = previews w
    /\ sameResources w w'.
Proof.
  intros Hctx. unfold createSession.
  rewrite (bind_ok _ _ env w env w) by reflexivity. cbv zeta.
  erewrite bind_ok by reflexivity. erewrite bind_ok by reflexivity.
  eexists _, _. split; [reflexivity |]. cbn [session_id].
  split.
  { unfold findSessionById, sessionOf.
    erewrite bind_ok by reflexivity. unfold ret.
    cbn [sessions set_sessions set_chats]. rewrite lookup_insert_eq.
    unfold mapSession, nullish_or. cbn. now rewrite Hctx. }
  cbn. repeat split; try reflexivity.
  - eexists. rewrite lookup_insert_eq. split; reflexivity.
  - intros k Hk. now rewrite lookup_insert_ne by congruence.
Qed.

(** X5. [createSession] returns the session that [findSessionById] then
    finds under the generated id: of the user of the input, at iteration
    0, active, with no preview, and with a chat of that user stored for
    it; every other session, the transcript, the previews and the
    resources are untouched. *)
Theorem createSession_then_find
    (input : CreateSessionInput) (env : Env) (w : World) :
  is_nullish (cs_context input) = false ->
  exists s w',
    createSession input env w = (Ok s, w')
    /\ findSessionById (session_id s) env w' = (Ok (Some s), w')
    /\ session_id s = env_newSessionId env
    /\ session_userId s = cs_userId input
    /\ session_iteration s = 0
    /\ session_sessionActive s = true
    /\ session_goalPreviewId s = None
    /\ (exists c, chats w' !! session_chatId s = Some c
                  /\ chat_userId c = cs_userId input)
    /\ (forall k, k <> session_id s -> sessions w' !! k = sessions w !! k)
    /\ chatMessages w' = chatMessages w
    /\ previews w' = previews w
    /\ sameResources w w'.
Proof. exact (createSession_stores input env w). Qed.

(** X6. [updateSession] on an id that is not stored fails with 404 and
    writes nothing; on a stored id it returns the session that
    [findSessionById] then finds, which keeps its user, its chat and its
    [createdAt], has [updatedAt] set to now and keeps every field the
    update leaves out; every other session is untouched. *)
Theorem updateSession_outcome
    (id : string) (updates : UpdateSessionInput) (env : Env) (w : World) :
  match sessions w !! id with
  | None =>
      updateSession id updates env w
      = (Throw (Api {| status := 404; message := [Txt "Session not found."];
                       details := NoDetails |}), w)
  | Some d =>
      exists s w',
        updateSession id updates env w = (Ok s, w')
        /\ findSessionById id env w' = (Ok (Some s), w')
        /\ session_userId s = sd_userId d
        /\ session_chatId s = sd_chatId d
        /\ session_createdAt s = sd_createdAt d
        /\ session_updatedAt s = env_now env
        /\ (us_state updates = None ->
            session_state s = session_state (mapSession id d))
        /\ (us_iteration updates = None ->
            session_iteration s = session_iteration (mapSession id d))
        /\ (us_goalPreviewId updates = None ->
            session_goalPreviewId s = session_goalPreviewId (mapSession id d))
        /\ (us_sessionActive updates = None ->
            session_sessionActive s = session_sessionActive (mapSession id d))
        /\ (us_context updates = None ->
            session_context s = session_context (mapSession id d))
        /\ (forall k, k <> id -> sessions w' !! k = sessions w !! k)
        /\ chatMessages w' = chatMessages w
        /\ previews w' = previews w
        /\ sameResources w w'
  end.
Proof.
  destruct (sessions w !! id) as [d |] eqn:Ed.
  - unfold updateSession.
    rewrite (bind_ok _ _ env w env w) by reflexivity.
    rewrite (bind_ok _ _ env w w w) by reflexivity.
    rewrite Ed. erewrite bind_ok by reflexivity.
    eexists _, _. split; [reflexivity |].
    split.
    { unfold findSessionById, sessionOf.
      erewrite bind_ok by reflexivity. unfold ret.
      cbn [sessions set_sessions]. now rewrite lookup_insert_eq. }
    cbn. repeat split; try reflexivity;
      try (intros ->; reflexivity).
    intros k Hk. now rewrite lookup_insert_ne by congruence.
  - unfold updateSession.
    rewrite (bind_ok _ _ env w env w) by reflexivity.
    rewrite (bind_ok _ _ env w w w) by reflexivity.
    now rewrite Ed.
Qed.

(** The session created for the sample user is found under [s2]. *)
Lemma createSession_then_find_witness :
  exists s w',
    createSession sampleSessionInput (sampleEnv FetchFailed) worldBeforeSession
    = (Ok s, w')
    /\ findSessionById "s2" (sampleEnv FetchFailed) w' = (Ok (Some s), w').
Proof.
  destruct (createSession_then_find sampleSessionInput (sampleEnv FetchFailed)
              worldBeforeSession eq_refl)
    as (s & w' & Hrun & Hfind & Hid & _).
  exists s, w'. split; [exact Hrun |]. rewrite Hid in Hfind. exact Hfind.
Defined.


Lemma laterSession_fold_in l x :
  In (fold_left laterSession l x) (x :: l).
Proof.
  revert x. induction l as [| y l IH]; intros x; [now left |].
  cbn [fold_left]. destruct (IH (laterSession x y)) as [H | H].
  - rewrite <- H. unfold laterSession.
    destruct (sd_updatedAt (snd x) <? sd_updatedAt (snd y));
      [right; now left | now left].
  - right. now right.
Qed.

Lemma laterSession_fold_max l x y :
  In y (x :: l) ->
  sd_updatedAt (snd y) <= sd_updatedAt (snd (fold_left laterSession l x)).
Proof.
  revert x y. induction l as [| z l IH]; intros x y Hy.
  - destruct Hy as [<- | []]. cbn. lia.
  - cbn [fold_left].
    assert (Hx : sd_updatedAt (snd x)
                 <= sd_updatedAt (snd (laterSession x z))
                 /\ sd_updatedAt (snd z)
                    <= sd_updatedAt (snd (laterSession x z))).
    { unfold laterSession.
      destruct (sd_updatedAt (snd x) <? sd_updatedAt (snd z)) eqn:E; lia. }
    pose proof (IH (laterSession x z) (laterSession x z) (or_introl eq_refl))
      as Hfold.
    destruct Hy as [<- | [<- | Hy]]; [lia | lia |].
    apply IH. now right.
Qed.

Lemma activeSessions_in userId (m : gmap string SessionDoc) id d :
  In (id, d) (List.filter (isActiveSessionOf userId) (map_to_list m))
  <-> m !! id = Some d /\ activeSessionDocOf userId d.
Proof.
  rewrite filter_In, <- list_elem_of_In, elem_of_map_to_list.
  unfold isActiveSessionOf, activeSessionDocOf. cbn [snd].
  split; intros [Hm H]; (split; [exact Hm |]).
  - apply andb_prop in H as [Hu Ha]. apply String.eqb_eq in Hu.
    split; [exact Hu |]. destruct (sd_sessionActive d) as [[] |];
      congruence.
  - destruct H as [-> ->]. now rewrite String.eqb_refl.
Qed.

(** What [findLatestActiveSession] finds. *)
Lemma findLatestActiveSession_finds
    (userId : string) (env : Env) (w : World) :
  exists r,
    findLatestActiveSession userId env w = (Ok r, w)
    /\ (r = None <->
        forall id d, sessions w !! id = Some d -> ~ activeSessionDocOf userId d)
    /\ (forall s, r = Some s ->
        exists d,
          sessions w !! session_id s = Some d
          /\ s = mapSession (session_id s) d
          /\ activeSessionDocOf userId d
          /\ forall id' d',
               sessions w !! id' = Some d' ->
               activeSessionDocOf userId d' ->
               sd_updatedAt d' <= sd_updatedAt d).
Proof.
  unfold findLatestActiveSession.
  rewrite (bind_ok _ _ env w w w) by reflexivity.
  pose proof (activeSessions_in userId (sessions w)) as Hin.
  destruct (List.filter (isActiveSessionOf userId) (map_to_list (sessions w)))
    as [| first rest].
  - eexists. split; [reflexivity |]. split.
    + split; [| reflexivity]. intros _ id d Hd Hact.
      now apply (proj2 (Hin id d)).
    + discriminate.
  - eexists. split; [reflexivity |]. split.
    + split; [discriminate |]. intros Hnone. exfalso.
      destruct first as [id d].
      destruct (proj1 (Hin id d)) as [Hd Hact]; [now left |].
      exact (Hnone id d Hd Hact).
    + intros s [= <-]. cbn [session_id mapSession].
      pose proof (laterSession_fold_in rest first) as Hfound.
      destruct (fold_left laterSession rest first) as [id d] eqn:Efold.
      cbn [fst snd].
      destruct (proj1 (Hin id d) Hfound) as [Hd Hact].
      exists d. split; [exact Hd |]. split; [reflexivity |].
      split; [exact Hact |].
      intros id' d' Hd' Hact'.
      pose proof (laterSession_fold_max rest first (id', d')
                    (proj2 (Hin id' d') (conj Hd' Hact'))) as Hmax.
      now rewrite Efold in Hmax.
Qed.

(** X7. [findLatestActiveSession] reads and never writes.  It returns
    nothing exactly when the user has no active session; otherwise it
    returns a stored active session of that user, and no active session
    of the user was updated later. *)
Theorem findLatestActiveSession_spec
    (userId : string) (env : Env) (w : World) :
  exists r,
    findLatestActiveSession userId env w = (Ok r, w)
    /\ (r = None <->
        forall id d, sessions w !! id = Some d -> ~ activeSessionDocOf userId d)
    /\ (forall s, r = Some s ->
        exists d,
          sessions w !! session_id s = Some d
          /\ s = mapSession (session_id s) d
          /\ activeSessionDocOf userId d
          /\ forall id' d',
               sessions w !! id' = Some d' ->
               activeSessionDocOf userId d' ->
               sd_updatedAt d' <= sd_updatedAt d).
Proof. exact (findLatestActiveSession_finds userId env w). Qed.



(** X8. [session:latest] by a user who has an active session answers 200
    with an active session of theirs that none of their active sessions
    was updated after, and writes nothing. *)
Theorem get_session_latest_returns_active
    (userId : string) (env : Env) (w : World) :
  String.eqb userId "" = false ->
  (exists id d, sessions w !! id = Some d /\ activeSessionDocOf userId d) ->
  exists s d,
    get_session_latest (Some userId) env w = (Ok (200, s), w)
    /\ sessions w !! session_id s = Some d
    /\ s = mapSession (session_id s) d
    /\ activeSessionDocOf userId d
    /\ forall id' d',
         sessions w !! id' = Some d' ->
         activeSessionDocOf userId d' ->
         sd_updatedAt d' <= sd_updatedAt d.
Proof.
  intros Hu (id0 & d0 & Hd0 & Hact0).
  destruct (findLatestActiveSession_finds userId env w)
    as (r & Hrun & Hnone & Hsome).
  destruct r as [s |].
  - destruct (Hsome s eq_refl) as (d & Hd & Hs & Hact & Hmax).
    exists s, d. split; [| auto].
    unfold get_session_latest.
    rewrite (bind_ok _ _ _ _ _ _ (requireUser_ok _ env w Hu)).
    now rewrite (bind_ok _ _ _ _ _ _ Hrun).
  - exfalso. exact (proj1 Hnone eq_refl id0 d0 Hd0 Hact0).
Qed.

(** The sample user has an active session: it is returned. *)
Lemma get_session_latest_returns_active_witness :
  exists s,
    get_session_latest (Some "u1") (sampleEnv FetchFailed) sampleWorld
    = (Ok (200, s), sampleWorld).
Proof.
  destruct (get_session_latest_returns_active "u1" (sampleEnv FetchFailed)
              sampleWorld eq_refl)
    as (s & d & Hrun & _).
  - exists "s1", (sampleSessionDoc 0 true).
    split; [reflexivity | split; reflexivity].
  - eauto.
Defined.

(** X9. [session:latest] by a stored user with no active session answers
    201 with a new session of theirs, stored under the generated id, in
    state [plan_generated], at iteration 0 and active; asked again, at any
    time, it answers 200 with that same session and writes nothing. *)
Theorem get_session_latest_creates_once
    (userId : string) (user : UserRecord) (env : Env) (w : World) :
  String.eqb userId "" = false ->
  userOf w userId = Some user ->
  (forall id d, sessions w !! id = Some d -> ~ activeSessionDocOf userId d) ->
  exists s w1,
    get_session_latest (Some userId) env w = (Ok (201, s), w1)
    /\ session_id s = env_newSessionId env
    /\ session_userId s = userId
    /\ session_state s = "plan_generated"
    /\ session_iteration s = 0
    /\ session_sessionActive s = true
    /\ sessionOf w1 (session_id s) = Some s
    /\ forall env2,
         get_session_latest (Some userId) env2 w1 = (Ok (200, s), w1).
Proof.
  intros Hu Huser Hnone.
  destruct (findLatestActiveSession_finds userId env w)
    as (r & Hrun & Hrnone & _).
  apply (proj2 Hrnone) in Hnone as Hr. subst r.
  unfold get_session_latest.
  rewrite (bind_ok _ _ _ _ _ _ (requireUser_ok _ env w Hu)).
  rewrite (bind_ok _ _ _ _ _ _ Hrun).
  rewrite (bind_ok _ _ _ _ _ _ (findUserById_run _ env w)).
  rewrite Huser. erewrite bind_ok by reflexivity.
  rewrite (bind_ok _ _ _ _ _ _ (buildUserContext_run user env w)).
  destruct (createSession_stores
              {| cs_userId := userId;
                 cs_context :=
                   contextToJs
                     {| availableHoursLeft :=
                          Math_max 0%Q
                            (Qminus (user_availableHoursPerWeek user)
                               (sumHours (activeGoalsOf w (user_id user))));
                        upcomingTasks :=
                          sortByDate
                            (List.map summarize
                               (List.filter
                                  (isUpcoming (user_id user)
                                     (isoDay (env_now env))) (tasks w))) |} |}
              env w eq_refl)
    as (s & w1 & Hcreate & Hfind & Hid & Hsu & Hit & Hsa & _ & _ & Hother & _).
  rewrite (bind_ok _ _ _ _ _ _ Hcreate).
  assert (Hstored : sessionOf w1 (session_id s) = Some s).
  { unfold findSessionById in Hfind.
    rewrite (bind_ok _ _ _ w1 w1 w1) in Hfind by reflexivity.
    unfold ret in Hfind. congruence. }
  assert (Hstate : session_state s = "plan_generated").
  { unfold createSession in Hcreate.
    rewrite (bind_ok _ _ env w env w) in Hcreate by reflexivity.
    cbv zeta in Hcreate.
    erewrite bind_ok in Hcreate by reflexivity.
    erewrite bind_ok in Hcreate by reflexivity.
    unfold ret in Hcreate. injection Hcreate as <- _. reflexivity. }
  exists s, w1. split; [reflexivity |].
  cbn [cs_userId] in Hsu.
  repeat (split; [assumption |]).
  intros env2.
  destruct (findLatestActiveSession_finds userId env2 w1)
    as (r2 & Hrun2 & Hnone2 & Hsome2).
  unfold sessionOf in Hstored.
  apply fmap_Some in Hstored as (d & Hd & Hsd).
  assert (Hactive : activeSessionDocOf userId d).
  { split.
    - rewrite <- Hsu, Hsd. reflexivity.
    - rewrite Hsd in Hsa. cbn in Hsa.
      unfold createSession in Hcreate.
      rewrite (bind_ok _ _ env w env w) in Hcreate by reflexivity.
      cbv zeta in Hcreate.
      erewrite bind_ok in Hcreate by reflexivity.
      erewrite bind_ok in Hcreate by reflexivity.
      unfold ret in Hcreate. injection Hcreate as _ <-.
      rewrite Hid in Hd. cbn in Hd. rewrite lookup_insert_eq in Hd.
      injection Hd as <-. reflexivity. }
  destruct r2 as [s2 |].
  - destruct (Hsome2 s2 eq_refl) as (d2 & Hd2 & Hs2 & Hact2 & _).
    destruct (decide (session_id s2 = session_id s)) as [Heq | Hne].
    + assert (d2 = d) by congruence. subst d2.
      assert (s2 = s) by congruence. subst s2.
      rewrite (bind_ok _ _ _ _ _ _ (requireUser_ok _ env2 w1 Hu)).
      now rewrite (bind_ok _ _ _ _ _ _ Hrun2).
    + exfalso. rewrite (Hother _ Hne) in Hd2.
      exact (Hnone _ _ Hd2 Hact2).
  - exfalso. exact (proj1 Hnone2 eq_refl _ _ Hd Hactive).
Qed.

(** The sample user gets a session with the first request and the same
    one with the second. *)
Lemma get_session_latest_creates_once_witness :
  exists s w1,
    get_session_latest (Some "u1") (sampleEnv FetchFailed) worldBeforeSession
    = (Ok (201, s), w1)
    /\ get_session_latest (Some "u1") (sampleEnv FetchFailed) w1
       = (Ok (200, s), w1).
Proof.
  destruct (get_session_latest_creates_once "u1" sampleUser
              (sampleEnv FetchFailed) worldBeforeSession eq_refl eq_refl)
    as (s & w1 & Hrun & _ & _ & _ & _ & _ & _ & Hagain).
  - intros id d Hd. cbn in Hd. now rewrite lookup_empty in Hd.
  - exists s, w1. auto.
Defined.


(** ** The transcript *)

(** X10. [appendChatMessage] puts the message at the end of the transcript
     whatever its outcome.  It succeeds exactly when the chat and the
     session are stored; its failures are not [ApiError]s; when the chat
     is missing the sessions and chats are untouched; it touches no
     other session, no preview and no resource. *)
Theorem appendChatMessage_outcome
    (input : ChatMessageInput) (env : Env) (w : World) :
  let out := appendChatMessage input env w in
  chatMessages (snd out)
  = chatMessages w
    ++ [{| cm_chatId := ci_chatId input; cm_sessionId := ci_sessionId input;
           cm_sender := ci_sender input; cm_message := ci_message input;
           cm_createdAt := env_now env |}]
  /\ (fst out = Ok tt <->
      is_Some (chats w !! ci_chatId input)
      /\ is_Some (sessions w !! ci_sessionId input))
  /\ (forall f, fst out = Throw f -> exists what, f = Untyped what)
  /\ (chats w !! ci_chatId input = None ->
      sessions (snd out) = sessions w /\ chats (snd out) = chats w)
  /\ (forall k, k <> ci_sessionId input ->
                sessions (snd out) !! k = sessions w !! k)
  /\ previews (snd out) = previews w
  /\ sameResources w (snd out).
Proof.
  unfold appendChatMessage, touchChat, touchSession, bind, ask, get, modify,
    ret, throw. cbn.
  destruct (chats w !! ci_chatId input) as [c |] eqn:Ec; cbn.
  - destruct (sessions w !! ci_sessionId input) as [d |] eqn:Ed; cbn.
    + repeat split; eauto; try discriminate.
      intros k Hk. now rewrite lookup_insert_ne by congruence.
    + repeat split; eauto; try discriminate.
      * intros [_ [x Hx]]. discriminate Hx.
      * intros f [= <-]. eauto.
  - repeat split; eauto; try discriminate.
    + intros [[x Hx] _]. discriminate Hx.
    + intros f [= <-]. eauto.
Qed.

(** *** Requests that only converse *)

Lemma conversationOnly_refl w : conversationOnly w w.
Proof. split; [unfold transcriptGrows; reflexivity | repeat split]. Qed.

Lemma conversationOnly_trans w1 w2 w3 :
  conversationOnly w1 w2 -> conversationOnly w2 w3 -> conversationOnly w1 w3.
Proof.
  intros [Hp1 (Hu1 & Hg1 & Hm1 & Ht1)] [Hp2 (Hu2 & Hg2 & Hm2 & Ht2)].
  split; [unfold transcriptGrows in *; etransitivity; eassumption |].
  repeat split; congruence.
Qed.

Lemma respects_readOnly (R : World -> World -> Prop) {A} (c : M A) :
  (forall w, R w w) -> readOnly c -> respects R c.
Proof. intros Hrefl Hc env w out w' H. apply Hc in H. subst. apply Hrefl. Qed.

Lemma respects_bind (R : World -> World -> Prop) {A B}
    (c : M A) (k : A -> M B) :
  (forall w1 w2 w3, R w1 w2 -> R w2 w3 -> R w1 w3) ->
  respects R c -> (forall a, respects R (k a)) -> respects R (bind c k).
Proof.
  intros Htrans Hc Hk env w out w' H.
  apply bind_inv in H as [(f & H & _) | (a & w1 & H1 & H2)].
  - now apply Hc in H.
  - apply Hc in H1. apply Hk in H2. eapply Htrans; eassumption.
Qed.

Lemma respects_modify (R : World -> World -> Prop) (g : World -> World) :
  (forall w, R w (g w)) -> respects R (modify g).
Proof. intros Hg env w out w' H. inversion H; subst. apply Hg. Qed.

Lemma readOnly_throw {A} f : readOnly (@throw A f).
Proof. intros env w out w' H. now inversion H. Qed.

(** Splits a sequence into its steps; closes those that only read and
    those that write outside the transcript and the resources. *)
Ltac conversing :=
  repeat first
    [ apply respects_bind; [exact conversationOnly_trans | | intros ?]
    | apply respects_readOnly;
        [exact conversationOnly_refl
        | solve [auto using readOnly_throw with frames | read_only]]
    | apply respects_modify; intros ?;
        solve [split; [unfold transcriptGrows; reflexivity | repeat split]] ].

Lemma conversing_appendChatMessage input :
  respects conversationOnly (appendChatMessage input).
Proof.
  unfold appendChatMessage, touchChat, touchSession. conversing.
  - apply respects_modify. intros w. split; [| repeat split].
    unfold transcriptGrows. cbn. now apply prefix_app_r.
  - match goal with w0 : World |- _ =>
      destruct (chats w0 !! ci_chatId input)
    end; conversing.
  - match goal with w0 : World |- _ =>
      destruct (sessions w0 !! ci_sessionId input)
    end; conversing.
Qed.

Lemma conversing_upsertGoalPreview input :
  respects conversationOnly (upsertGoalPreview input).
Proof.
  unfold upsertGoalPreview. conversing.
  destruct (givenId (ug_id input)); conversing.
Qed.

Lemma conversing_updateSession id updates :
  respects conversationOnly (updateSession id updates).
Proof.
  unfold updateSession. conversing.
  match goal with w0 : World |- _ => destruct (sessions w0 !! id) end;
    conversing.
Qed.

Lemma conversing_createSession input :
  respects conversationOnly (createSession input).
Proof. unfold createSession. conversing. Qed.

Lemma conversing_agentTurn userId text override s :
  respects conversationOnly (agentTurn userId text override s).
Proof.
  unfold agentTurn. cbv zeta.
  apply respects_bind;
    [exact conversationOnly_trans | apply conversing_appendChatMessage |].
  intros _. apply respects_bind; [exact conversationOnly_trans | |].
  { intros env w out w' H.
    apply invokeAgentService_frame in H as [-> | ->];
      (split; [unfold transcriptGrows; reflexivity | repeat split]). }
  intros resp. apply respects_bind;
    [exact conversationOnly_trans | apply conversing_appendChatMessage |].
  intros _. apply respects_bind; [exact conversationOnly_trans | |].
  { destruct (rp_action resp) as [a |]; [| conversing].
    destruct (String.eqb (act_type a) "save_preview"); [| conversing].
    apply respects_bind;
      [exact conversationOnly_trans | apply conversing_upsertGoalPreview |].
    intros rec. conversing. }
  intros gp. apply respects_bind;
    [exact conversationOnly_trans | apply conversing_updateSession |].
  intros updated. conversing.
Qed.

Lemma conversing_post_session_message auth body :
  respects conversationOnly (post_session_message auth body).
Proof.
  unfold post_session_message, findSessionById.
  apply respects_bind; [exact conversationOnly_trans | conversing |].
  intros userId.
  apply respects_bind; [exact conversationOnly_trans | conversing |].
  intros sessionId.
  apply respects_bind; [exact conversationOnly_trans | conversing |].
  intros text.
  apply respects_bind; [exact conversationOnly_trans | |].
  { destruct (is_undefined (mb_userId body)); conversing. }
  intros _.
  apply respects_bind; [exact conversationOnly_trans | conversing |].
  intros found.
  apply respects_bind; [exact conversationOnly_trans | conversing |].
  intros s.
  apply respects_bind; [exact conversationOnly_trans | conversing |].
  intros _.
  apply respects_bind; [exact conversationOnly_trans | conversing |].
  intros _. apply conversing_agentTurn.
Qed.

Lemma conversing_get_session_latest auth :
  respects conversationOnly (get_session_latest auth).
Proof.
  unfold get_session_latest.
  apply respects_bind; [exact conversationOnly_trans | conversing |].
  intros userId.
  apply respects_bind; [exact conversationOnly_trans | |].
  { apply respects_readOnly;
      [exact conversationOnly_refl | apply readOnly_findLatestActiveSession]. }
  intros [s |]; [conversing |].
  apply respects_bind; [exact conversationOnly_trans | |].
  { unfold findUserById. conversing. }
  intros found.
  apply respects_bind; [exact conversationOnly_trans | conversing |].
  intros user.
  apply respects_bind; [exact conversationOnly_trans | |].
  { apply respects_readOnly;
      [exact conversationOnly_refl | apply readOnly_buildUserContext]. }
  intros context.
  apply respects_bind;
    [exact conversationOnly_trans | apply conversing_createSession |].
  intros s. conversing.
Qed.

(** X11. Over any sequence of [session:latest] and [session:message]
     requests, whatever their callers, bodies and outcomes, the
     transcript only grows at its end, and users, goals, milestones and
     tasks stay as they were. *)
Theorem lifecycle_only_converses (w w' : World) :
  lifecycle w w' ->
  chatMessages w `prefix_of` chatMessages w'
  /\ users w' = users w /\ goals w' = goals w
  /\ milestones w' = milestones w /\ tasks w' = tasks w.
Proof.
  intros Hlife.
  assert (H : conversationOnly w w').
  { induction Hlife as [w | w w1 w2 Hstep _ IH];
      [apply conversationOnly_refl |].
    eapply conversationOnly_trans; [| exact IH].
    destruct Hstep as [env auth out w1 _ H | env auth body out w1 H].
    - exact (conversing_get_session_latest auth env w out w1 H).
    - exact (conversing_post_session_message auth body env w out w1 H). }
  exact H.
Qed.

(** A turn on the sample session leaves the users and the tasks alone. *)
Lemma lifecycle_only_converses_witness :
  users
    (snd (post_session_message (Some "u1") sampleMessage
            (sampleEnv (FetchOk replyOmittingAll)) sampleWorld))
  = users sampleWorld
  /\ tasks
       (snd (post_session_message (Some "u1") sampleMessage
               (sampleEnv (FetchOk replyOmittingAll)) sampleWorld))
     = tasks sampleWorld.
Proof.
  destruct (lifecycle_only_converses sampleWorld
              (snd (post_session_message (Some "u1") sampleMessage
                      (sampleEnv (FetchOk replyOmittingAll)) sampleWorld)))
    as (_ & Hu & _ & _ & Ht).
  - apply rtc_once.
    eapply (step_message _ (sampleEnv (FetchOk replyOmittingAll))
              (Some "u1") sampleMessage).
    apply surjective_pairing.
  - auto.
Defined.


(** ** Checks that fail *)

Lemma assert_throws c st msg env w f w' :
  assert c st msg env w = (Throw f, w') ->
  w' = w /\ c = false
  /\ f = Api {| status := st; message := msg; details := NoDetails |}.
Proof.
  unfold assert, ret, throwApi, throw. destruct c; [discriminate |].
  intros H. inversion H; subst. auto.
Qed.

Lemma assertSome_throws {A} (o : option A) st msg env w f w' :
  assertSome o st msg env w = (Throw f, w') ->
  w' = w /\ o = None
  /\ f = Api {| status := st; message := msg; details := NoDetails |}.
Proof.
  unfold assertSome, ret, throwApi, throw. destruct o; [discriminate |].
  intros H. inversion H; subst. auto.
Qed.

Lemma requireUser_throws auth env w f w' :
  requireUser auth env w = (Throw f, w') ->
  w' = w /\ exists e, f = Api e /\ status e = 401.
Proof.
  unfold requireUser, bind, assert, ret, throwApi, throw.
  destruct auth as [u |].
  - destruct (String.eqb u ""); cbn; [| discriminate].
    intros H. inversion H; subst. eauto.
  - intros H. inversion H; subst. eauto.
Qed.

(** ** Who is served *)

(** A message request either is turned away by a check, with nothing
    written, or reaches the turn: then the caller is authenticated and
    the session named in the body is stored, theirs and active. *)
Lemma post_session_message_cases auth body env w out w' :
  post_session_message auth body env w = (out, w') ->
  (exists e, out = Throw (Api e) /\ w' = w
             /\ (status e = 400 \/ status e = 401 \/ status e = 409))
  \/ (exists userId sessionId text s,
        auth = Some userId
        /\ String.eqb userId "" = false
        /\ nonblank_string (mb_sessionId body) = Some sessionId
        /\ nonblank_string (mb_message body) = Some text
        /\ (mb_userId body = JUndefined \/ mb_userId body = JStr userId)
        /\ sessionOf w sessionId = Some s
        /\ session_userId s = userId
        /\ session_sessionActive s = true
        /\ agentTurn userId text (mb_context body) s env w = (out, w')).
Proof.
  intros H. unfold post_session_message in H.
  apply bind_inv in H as [(f & H & ->) | (userId & w1 & H1 & H)].
  { left. apply requireUser_throws in H as (-> & e & -> & He).
    exists e. auto. }
  apply requireUser_inv in H1 as (-> & Hu & ->).
  apply bind_inv in H as [(f & H & ->) | (sessionId & w1 & H1 & H)].
  { left. apply assertSome_throws in H as (-> & _ & ->).
    eexists. repeat split. cbn. auto. }
  apply assertSome_inv in H1 as (Hsid & ->).
  apply bind_inv in H as [(f & H & ->) | (text & w1 & H1 & H)].
  { left. apply assertSome_throws in H as (-> & _ & ->).
    eexists. repeat split. cbn. auto. }
  apply assertSome_inv in H1 as (Htext & ->).
  apply bind_inv in H as [(f & H & ->) | (u & w1 & H1 & H)].
  { left. destruct (is_undefined (mb_userId body)); [discriminate H |].
    apply assert_throws in H as (-> & _ & ->).
    eexists. repeat split. cbn. auto. }
  assert (Hpu : (mb_userId body = JUndefined \/ mb_userId body = JStr userId)
                /\ w1 = w).
  { destruct (mb_userId body) as [| | b | q | x | l | l];
      cbn [is_undefined is_string] in H1;
      try (apply assert_inv in H1 as [? _]; discriminate).
    - inversion H1. auto.
    - apply assert_inv in H1 as [Hx ->]. apply String.eqb_eq in Hx.
      subst. auto. }
  destruct Hpu as [Hpu ->]. clear H1.
  apply bind_inv in H as [(f & H & ->) | (found & w1 & H1 & H)].
  { discriminate H. }
  unfold findSessionById, bind, get, ret in H1. inversion H1; subst found w1.
  clear H1.
  apply bind_inv in H as [(f & H & ->) | (s & w1 & H1 & H)].
  { left. apply assertSome_throws in H as (-> & _ & ->).
    eexists. repeat split. cbn. auto. }
  apply assertSome_inv in H1 as (Hs & ->).
  apply bind_inv in H as [(f & H & ->) | (u1 & w1 & H1 & H)].
  { left. apply assert_throws in H as (-> & _ & ->).
    eexists. repeat split. cbn. auto. }
  apply assert_inv in H1 as (Hown & ->). apply String.eqb_eq in Hown.
  apply bind_inv in H as [(f & H & ->) | (u2 & w1 & H1 & H)].
  { left. apply assert_throws in H as (-> & _ & ->).
    eexists. repeat split. cbn. auto. }
  apply assert_inv in H1 as (Hact & ->).
  right. exists userId, sessionId, text, s. repeat split; auto.
Qed.

(** X12. A [session:message] request that succeeds, or that changes the
     store at all, comes from an authenticated caller, names a stored
     session that belongs to that caller and is active, and carries no
     [userId] other than the caller's. *)
Theorem only_the_owner_is_served
    (auth : option string) (body : MessageBody) (env : Env) (w : World)
    (out : Result MessageReply) (w' : World) :
  post_session_message auth body env w = (out, w') ->
  w' <> w \/ (exists r, out = Ok r) ->
  exists userId sessionId s,
    auth = Some userId
    /\ (mb_userId body = JUndefined \/ mb_userId body = JStr userId)
    /\ nonblank_string (mb_sessionId body) = Some sessionId
    /\ sessionOf w sessionId = Some s
    /\ session_userId s = userId
    /\ session_sessionActive s = true.
Proof.
  intros H Hserved.
  apply post_session_message_cases in H
    as [(e & -> & -> & _)
       | (userId & sessionId & text & s & Ha & _ & Hsid & _ & Hpu & Hs & Hown
          & Hact & _)].
  - destruct Hserved as [Hw | [r Hr]]; [now contradiction Hw | discriminate Hr].
  - exists userId, sessionId, s. repeat split; assumption.
Qed.

(** The sample turn succeeds: the session it names is the caller's and
    active. *)
Lemma only_the_owner_is_served_witness :
  exists s,
    sessionOf sampleWorld "s1" = Some s
    /\ session_userId s = "u1"
    /\ session_sessionActive s = true.
Proof.
  destruct (post_session_message (Some "u1") sampleMessage
              (sampleEnv (FetchOk replyOmittingAll)) sampleWorld)
    as [out w'] eqn:E.
  destruct (only_the_owner_is_served _ _ _ _ _ _ E)
    as (userId & sessionId & s & Ha & _ & Hsid & Hs & Hown & Hact).
  - right. vm_compute in E. inversion E. eauto.
  - inversion Ha; subst userId. vm_compute in Hsid. inversion Hsid.
    subst sessionId. eauto.
Defined.


(** ** The transcript of a turn *)

Lemma appendChatMessage_appends input env w out w1 :
  appendChatMessage input env w = (out, w1) ->
  chatMessages w1
  = chatMessages w
    ++ [{| cm_chatId := ci_chatId input; cm_sessionId := ci_sessionId input;
           cm_sender := ci_sender input; cm_message := ci_message input;
           cm_createdAt := env_now env |}]
  /\ (out = Ok tt ->
      is_Some (chats w1 !! ci_chatId input)
      /\ is_Some (sessions w1 !! ci_sessionId input)).
Proof.
  unfold appendChatMessage, touchChat, touchSession, bind, ask, get, modify,
    ret, throw. cbn.
  destruct (chats w !! ci_chatId input) as [c |] eqn:Ec; cbn.
  - destruct (sessions w !! ci_sessionId input) as [d |] eqn:Ed; cbn;
      intros H; inversion H; subst; cbn; (split; [reflexivity |]).
    + intros _. rewrite !lookup_insert_eq. split; eexists; reflexivity.
    + discriminate.
  - intros H; inversion H; subst; cbn. split; [reflexivity | discriminate].
Qed.

Lemma upsertGoalPreview_returns input env w :
  exists rec w1,
    upsertGoalPreview input env w = (Ok rec, w1)
    /\ sessions w1 = sessions w /\ chatMessages w1 = chatMessages w.
Proof.
  unfold upsertGoalPreview, bind, ask, get, modify, ret.
  destruct (givenId (ug_id input)); eexists _, _; repeat split.
Qed.

Lemma updateSession_returns id updates env w d :
  sessions w !! id = Some d ->
  exists w1,
    updateSession id updates env w
    = (Ok (mapSession id (applySessionUpdate (env_now env) updates d)), w1)
    /\ chatMessages w1 = chatMessages w.
Proof.
  intros Hd. unfold updateSession, bind, ask, get, modify, ret.
  rewrite Hd. eexists. split; reflexivity.
Qed.

(** A turn that comes back has put the text of the user and the reply of
    the agent in the transcript, in that order; a turn that fails has put
    the text of the user there and nothing else. *)
Lemma agentTurn_transcript userId text override s env w out w' :
  agentTurn userId text override s env w = (out, w') ->
  let said sender message :=
    {| cm_chatId := session_chatId s; cm_sessionId := session_id s;
       cm_sender := sender; cm_message := message;
       cm_createdAt := env_now env |} in
  match out with
  | Ok r =>
      chatMessages w'
      = chatMessages w ++ [said sender_user text; said sender_agent (mr_reply r)]
      /\ mr_sessionId r = session_id s
  | Throw _ => chatMessages w' = chatMessages w ++ [said sender_user text]
  end.
Proof.
  unfold agentTurn. cbv zeta. intros H.
  apply bind_inv in H as [(f & H & ->) | ([] & w1 & H1 & H)].
  { now apply appendChatMessage_appends in H as [H _]. }
  apply appendChatMessage_appends in H1 as [Hm1 Hhere].
  destruct (Hhere eq_refl) as [[c Hc] [d Hd]].
  cbn [ci_chatId ci_sessionId ci_sender ci_message] in *.
  apply bind_inv in H as [(f & H & ->) | (resp & w2 & H2 & H)].
  { now apply invokeAgentService_frame in H as [-> | ->]. }
  apply invokeAgentService_inv in H2 as [_ Hw2].
  assert (Hsent : chats w2 = chats w1 /\ sessions w2 = sessions w1
                  /\ chatMessages w2 = chatMessages w1)
    by (subst w2; repeat split).
  destruct Hsent as (Hc2 & Hd2 & Hm2). clear Hw2.
  rewrite <- Hc2 in Hc. rewrite <- Hd2 in Hd. rewrite <- Hm2 in Hm1.
  destruct (appendChatMessage_run
              {| ci_chatId := session_chatId s; ci_sessionId := session_id s;
                 ci_sender := sender_agent; ci_message := rp_reply resp |}
              env w2 c d Hc Hd) as (w3 & Happ & Hs3 & Hm3 & _).
  cbn [ci_chatId ci_sessionId ci_sender ci_message] in *.
  rewrite (bind_ok _ _ _ _ _ _ Happ) in H.
  apply bind_inv in H as [(f & H & ->) | (gp & w4 & H4 & H)].
  { exfalso. destruct (rp_action resp) as [a |]; [| discriminate H].
    destruct (String.eqb (act_type a) "save_preview"); [| discriminate H].
    apply bind_inv in H as [(f' & H & _) | (rec & w4 & _ & H)];
      [| discriminate H].
    match type of H with upsertGoalPreview ?i _ _ = _ =>
      destruct (upsertGoalPreview_returns i env w3) as (rec & w4 & Hup & _)
    end.
    congruence. }
  assert (Hkeep : sessions w4 = sessions w3
                  /\ chatMessages w4 = chatMessages w3).
  { destruct (rp_action resp) as [a |]; [| now inversion H4].
    destruct (String.eqb (act_type a) "save_preview"); [| now inversion H4].
    apply bind_inv_ok in H4 as (rec & w5 & Hup & Hret).
    inversion Hret; subst.
    match type of Hup with upsertGoalPreview ?i _ _ = _ =>
      destruct (upsertGoalPreview_returns i env w3) as (rec' & w4' & Hup' & Hk)
    end.
    rewrite Hup in Hup'. inversion Hup'; subst. exact Hk. }
  destruct Hkeep as [Hs4 Hm4].
  assert (Hd4 : is_Some (sessions w4 !! session_id s)).
  { rewrite Hs4, Hs3, lookup_insert_eq. eauto. }
  destruct Hd4 as [d4 Hd4].
  match type of H with bind (updateSession _ ?u) _ _ _ = _ =>
    destruct (updateSession_returns (session_id s) u env w4 d4 Hd4)
      as (w5 & Hupd & Hm5)
  end.
  rewrite (bind_ok _ _ _ _ _ _ Hupd) in H. inversion H; subst out w'.
  cbn [mr_reply mr_sessionId mapSession session_id].
  split; [| reflexivity].
  rewrite Hm5, Hm4, Hm3, Hm1, <- app_assoc. reflexivity.
Qed.

(** X13. What a [session:message] request adds to the transcript: when
     it succeeds, the text of the user and then the reply that the
     response carries, and nothing else; when it fails, nothing or the
     text of the user alone.  Every message added is stamped now and
     filed under the session named in the body and under its chat. *)
Theorem message_transcript
    (auth : option string) (body : MessageBody) (env : Env) (w : World)
    (out : Result MessageReply) (w' : World) :
  post_session_message auth body env w = (out, w') ->
  exists added,
    chatMessages w' = chatMessages w ++ added
    /\ (forall m, m ∈ added ->
          cm_createdAt m = env_now env
          /\ nonblank_string (mb_sessionId body) = Some (cm_sessionId m)
          /\ (session_chatId <$> sessionOf w (cm_sessionId m))
             = Some (cm_chatId m))
    /\ match out with
       | Ok r =>
           exists text,
             nonblank_string (mb_message body) = Some text
             /\ List.map (fun m => (cm_sender m, cm_message m)) added
                = [(sender_user, text); (sender_agent, mr_reply r)]
       | Throw _ =>
           added = []
           \/ exists text,
                nonblank_string (mb_message body) = Some text
                /\ List.map (fun m => (cm_sender m, cm_message m)) added
                   = [(sender_user, text)]
       end.
Proof.
  intros H.
  apply post_session_message_cases in H
    as [(e & -> & -> & _)
       | (userId & sessionId & text & s & _ & _ & Hsid & Htext & _ & Hs & _
          & _ & H)].
  { exists []. rewrite app_nil_r. split; [reflexivity |].
    split; [| now left]. intros m Hm. now apply elem_of_nil in Hm. }
  pose proof (sessionOf_id _ _ _ Hs) as Hid.
  apply agentTurn_transcript in H. cbv zeta in H.
  assert (Hstamp : forall sender message m,
            m = {| cm_chatId := session_chatId s; cm_sessionId := session_id s;
                   cm_sender := sender; cm_message := message;
                   cm_createdAt := env_now env |} ->
            cm_createdAt m = env_now env
            /\ nonblank_string (mb_sessionId body) = Some (cm_sessionId m)
            /\ (session_chatId <$> sessionOf w (cm_sessionId m))
               = Some (cm_chatId m)).
  { intros sender message m ->. cbn. rewrite Hid, Hs. auto. }
  destruct out as [r | f].
  - destruct H as [H _]. eexists. split; [exact H |]. split.
    + intros m Hm. apply elem_of_cons in Hm as [Hm | Hm];
        [| apply list_elem_of_singleton in Hm]; eapply Hstamp; exact Hm.
    + exists text. split; [exact Htext | reflexivity].
  - eexists. split; [exact H |]. split.
    + intros m Hm. apply list_elem_of_singleton in Hm. eapply Hstamp; exact Hm.
    + right. exists text. split; [exact Htext | reflexivity].
Qed.

(** The sample turn adds two messages. *)
Lemma message_transcript_witness :
  exists w',
    snd (post_session_message (Some "u1") sampleMessage
           (sampleEnv (FetchOk replyOmittingAll)) sampleWorld) = w'
    /\ List.length (chatMessages w') = 2%nat.
Proof.
  destruct (post_session_message (Some "u1") sampleMessage
              (sampleEnv (FetchOk replyOmittingAll)) sampleWorld)
    as [[r | f] w'] eqn:E; [| vm_compute in E; discriminate E].
  destruct (message_transcript _ _ _ _ _ _ E)
    as (added & Hw' & _ & text & _ & Hadded).
  exists w'. split; [reflexivity |].
  rewrite Hw'. apply (f_equal (@List.length _)) in Hadded.
  rewrite length_map in Hadded. rewrite length_app, Hadded. reflexivity.
Defined.


(** ** The requests to the agent *)

Lemma sameCalls_refl w : sameCalls w w.
Proof. reflexivity. Qed.

Lemma sameCalls_trans w1 w2 w3 :
  sameCalls w1 w2 -> sameCalls w2 w3 -> sameCalls w1 w3.
Proof. unfold sameCalls. congruence. Qed.

Lemma calls_appendChatMessage input :
  respects sameCalls (appendChatMessage input).
Proof.
  intros env w out w'.
  unfold appendChatMessage, touchChat, touchSession, bind, ask, get, modify,
    ret, throw. cbn.
  destruct (chats w !! ci_chatId input) as [c |]; cbn;
    [destruct (sessions w !! ci_sessionId input) as [d |]; cbn |];
    intros H; inversion H; reflexivity.
Qed.

Lemma calls_upsertGoalPreview input :
  respects sameCalls (upsertGoalPreview input).
Proof.
  intros env w out w'. unfold upsertGoalPreview, bind, ask, get, modify, ret.
  destruct (givenId (ug_id input)); intros H; inversion H; reflexivity.
Qed.

Lemma calls_updateSession id updates :
  respects sameCalls (updateSession id updates).
Proof.
  intros env w out w'.
  unfold updateSession, bind, ask, get, modify, ret, throwApi, throw.
  destruct (sessions w !! id); intros H; inversion H; reflexivity.
Qed.

(** What a turn sends to the agent. *)
Lemma agentTurn_calls userId text override s env w out w' :
  agentTurn userId text override s env w = (out, w') ->
  let rq := agentPayloadOf s userId text (turnContext override s) in
  match out with
  | Ok _ => agentCalls w' = agentCalls w ++ [rq]
  | Throw _ =>
      agentCalls w' = agentCalls w \/ agentCalls w' = agentCalls w ++ [rq]
  end.
Proof.
  unfold agentTurn. cbv zeta. intros H.
  apply bind_inv in H as [(f & H & ->) | ([] & w1 & H1 & H)].
  { left. exact (calls_appendChatMessage _ _ _ _ _ H). }
  apply calls_appendChatMessage in H1. unfold sameCalls in H1.
  apply bind_inv in H as [(f & H & ->) | (resp & w2 & H2 & H)].
  { apply invokeAgentService_frame in H as [-> | ->];
      [left | right]; cbn; now rewrite ?H1. }
  apply invokeAgentService_inv in H2 as [_ Hw2].
  assert (Hsent : agentCalls w2
                  = agentCalls w
                    ++ [agentPayloadOf s userId text (turnContext override s)])
    by (subst w2; cbn; now rewrite H1).
  clear Hw2 H1.
  assert (Hrest : sameCalls w2 w').
  { match type of H with
    | ?c env w2 = _ => assert (Hc : respects sameCalls c)
    end; [| exact (Hc _ _ _ _ H)].
    apply respects_bind;
      [exact sameCalls_trans | apply calls_appendChatMessage |].
    intros _. apply respects_bind; [exact sameCalls_trans | |].
    { destruct (rp_action resp) as [a |];
        [| apply respects_readOnly; [exact sameCalls_refl | apply readOnly_ret]].
      destruct (String.eqb (act_type a) "save_preview");
        [| apply respects_readOnly; [exact sameCalls_refl | apply readOnly_ret]].
      apply respects_bind;
        [exact sameCalls_trans | apply calls_upsertGoalPreview |].
      intros rec. apply respects_readOnly;
        [exact sameCalls_refl | apply readOnly_ret]. }
    intros gp. apply respects_bind;
      [exact sameCalls_trans | apply calls_updateSession |].
    intros updated. apply respects_readOnly;
      [exact sameCalls_refl | apply readOnly_ret]. }
  unfold sameCalls in Hrest. rewrite Hrest, Hsent.
  destruct out; [reflexivity | now right].
Qed.

(** X24. What a [session:message] request sends to the agent: either
     nothing, and then the request does not succeed; or one request,
     sent after the text of the user has been filed, which carries the
     id of the session, the caller, the text, the context of the turn
     and the state, iteration and [goalPreviewId] of the stored session,
     which is active and belongs to the caller.  So a request that
     succeeds has sent exactly that one. *)
Theorem message_reaches_agent_once
    (auth : option string) (body : MessageBody) (env : Env) (w : World)
    (out : Result MessageReply) (w' : World) :
  post_session_message auth body env w = (out, w') ->
  (agentCalls w' = agentCalls w /\ forall r, out <> Ok r)
  \/ exists userId sessionId text s,
       auth = Some userId
       /\ nonblank_string (mb_sessionId body) = Some sessionId
       /\ nonblank_string (mb_message body) = Some text
       /\ sessionOf w sessionId = Some s
       /\ session_userId s = userId
       /\ session_sessionActive s = true
       /\ agentCalls w'
          = agentCalls w
            ++ [{| rq_sessionId := sessionId;
                   rq_userId := userId;
                   rq_message := text;
                   rq_context := turnContext (mb_context body) s;
                   rq_state :=
                     {| st_state := session_state s;
                        st_iteration := session_iteration s;
                        st_sessionActive := true;
                        st_goalPreviewId := session_goalPreviewId s |} |}]
       /\ exists rest,
            chatMessages w'
            = chatMessages w
              ++ {| cm_chatId := session_chatId s; cm_sessionId := sessionId;
                    cm_sender := sender_user; cm_message := text;
                    cm_createdAt := env_now env |} :: rest.
Proof.
  intros H.
  apply post_session_message_cases in H
    as [(e & -> & -> & _)
       | (userId & sessionId & text & s & Hauth & _ & Hsid & Htext & _ & Hs
          & Hown & Hact & H)].
  { left. split; [reflexivity | intros r; discriminate]. }
  pose proof (sessionOf_id _ _ _ Hs) as Hid.
  pose proof (agentTurn_calls _ _ _ _ _ _ _ _ H) as Hcalls.
  pose proof (agentTurn_transcript _ _ _ _ _ _ _ _ H) as Hsaid.
  cbv zeta in Hcalls, Hsaid.
  unfold agentPayloadOf in Hcalls. rewrite Hid, Hact in Hcalls.
  rewrite Hid in Hsaid.
  destruct out as [r | f].
  - right. exists userId, sessionId, text, s.
    do 6 (split; [assumption |]). split; [exact Hcalls |].
    destruct Hsaid as [Hsaid _]. eexists. rewrite Hsaid. reflexivity.
  - destruct Hcalls as [Hcalls | Hcalls].
    + left. split; [exact Hcalls | intros r; discriminate].
    + right. exists userId, sessionId, text, s.
      do 6 (split; [assumption |]). split; [exact Hcalls |].
      exists []. exact Hsaid.
Qed.

(** The sample turn sends one request. *)
Lemma message_reaches_agent_once_witness :
  List.length
    (agentCalls
       (snd (post_session_message (Some "u1") sampleMessage
               (sampleEnv (FetchOk replyOmittingAll)) sampleWorld)))
  = 1%nat.
Proof.
  destruct (post_session_message (Some "u1") sampleMessage
              (sampleEnv (FetchOk replyOmittingAll)) sampleWorld)
    as [[r | f] w'] eqn:E; [| vm_compute in E; discriminate E].
  destruct (message_reaches_agent_once _ _ _ _ _ _ E)
    as [[_ Hno] | (userId & sessionId & text & s & _ & _ & _ & _ & _ & _
                   & Hcalls & _)].
  - now destruct (Hno r).
  - cbn [snd]. rewrite Hcalls, length_app. reflexivity.
Defined.

(** ** The answer of a failed agent call *)

(** X14. When the agent service answers an accepted message with a status
     that is not a success, the client reads that status and the text
     of the agent ([Agent service error.] for an empty text), except for
     503, which is answered with the message of an unavailable agent. *)
Theorem agent_status_reaches_client
    (env : Env) (w : World) (userId : string) (body : MessageBody)
    (sessionId text : string) (s : SessionStateRecord)
    (url reason : string) (st : Z) :
  String.eqb userId "" = false ->
  nonblank_string (mb_sessionId body) = Some sessionId ->
  nonblank_string (mb_message body) = Some text ->
  mb_userId body = JUndefined \/ mb_userId body = JStr userId ->
  sessionOf w sessionId = Some s ->
  session_userId s = userId ->
  session_sessionActive s = true ->
  is_Some (chats w !! session_chatId s) ->
  env_agentUrl env = Some url ->
  String.eqb url "" = false ->
  env_fetch env (agentPayloadOf s userId text (turnContext (mb_context body) s))
  = FetchNotOk st reason ->
  fst (post_session_message (Some userId) body env w)
  = Throw (Api
      (if st =? 503
       then {| status := 503; message := AGENT_UNAVAILABLE;
               details := NoDetails |}
       else {| status := st;
               message := [Txt (if String.eqb reason ""
                                then "Agent service error." else reason)];
               details := NoDetails |})).
Proof.
  intros Hu Hsid Htext Hpu Hs Hown Hact [c Hc] Hurl Hurl' Hfetch.
  pose proof (sessionOf_id _ _ _ Hs) as Hid.
  unfold sessionOf in Hs. apply fmap_Some in Hs as (d & Hd & Hsd).
  destruct (appendChatMessage_run
              {| ci_chatId := session_chatId s; ci_sessionId := session_id s;
                 ci_sender := sender_user; ci_message := text |} env w c d)
    as (w1 & Happ & _); [exact Hc | cbn; now rewrite Hid |].
  unfold post_session_message.
  rewrite (bind_ok _ _ _ _ _ _ (requireUser_ok _ env w Hu)).
  rewrite Hsid, Htext. do 2 (erewrite bind_ok by reflexivity).
  erewrite bind_ok; cycle 1.
  { destruct Hpu as [-> | ->]; cbn; [| rewrite String.eqb_refl]; reflexivity. }
  erewrite bind_ok by reflexivity.
  unfold sessionOf. rewrite Hd. cbn [fmap option_fmap option_map].
  rewrite <- Hsd. erewrite bind_ok by reflexivity.
  rewrite Hown, String.eqb_refl. erewrite bind_ok by reflexivity.
  rewrite Hact. erewrite bind_ok by reflexivity.
  unfold agentTurn. cbv zeta.
  rewrite (bind_ok _ _ _ _ _ _ Happ).
  erewrite bind_throw; [reflexivity |].
  unfold invokeAgentService, getAgentServiceUrl, bind, ask, ret, throwApi,
    throw.
  rewrite Hurl, Hurl', Hfetch. destruct (st =? 503); reflexivity.
Qed.

(** The agent answers 404 with a text of its own: the client reads that
    status and that text. *)
Lemma agent_status_reaches_client_witness :
  fst (post_session_message (Some "u1") sampleMessage
         (sampleEnv (FetchNotOk 404 "no such agent")) sampleWorld)
  = Throw (Api {| status := 404; message := [Txt "no such agent"];
                  details := NoDetails |}).
Proof.
  exact (agent_status_reaches_client
           (sampleEnv (FetchNotOk 404 "no such agent")) sampleWorld "u1"
           sampleMessage "s1" "Add a testing milestone next week."
           sampleSession _ "no such agent" 404
           eq_refl eq_refl eq_refl (or_introl eq_refl) eq_refl eq_refl
           eq_refl (ex_intro _ _ eq_refl) eq_refl eq_refl eq_refl).
Defined.


(** ** Requests on users, goals and tasks *)

(** Closes a goal on a computation that only reads: splits sequences and
    goes through the cases of a test. *)
Ltac reads_only :=
  repeat first
    [ solve [auto using readOnly_throw with frames]
    | apply readOnly_bind; [| intros ?]
    | match goal with
      | |- readOnly (match ?x with _ => _ end) => destruct x
      end ].

Lemma readOnly_findUserById id : readOnly (findUserById id).
Proof. unfold findUserById. reads_only. Qed.

Lemma readOnly_listGoals userId st : readOnly (listGoals userId st).
Proof. unfold listGoals. reads_only. Qed.

Lemma readOnly_sumActiveGoalHours userId ex :
  readOnly (sumActiveGoalHours userId ex).
Proof.
  unfold sumActiveGoalHours.
  apply readOnly_bind; [apply readOnly_listGoals | intros ?; reads_only].
Qed.

Lemma readOnly_collectActiveGoalSummaries userId ex :
  readOnly (collectActiveGoalSummaries userId ex).
Proof.
  unfold collectActiveGoalSummaries.
  apply readOnly_bind; [apply readOnly_listGoals | intros ?; reads_only].
Qed.

Lemma readOnly_assertOwnedGoal goalId userId :
  readOnly (assertOwnedGoal goalId userId).
Proof. unfold assertOwnedGoal, getGoalById. reads_only. Qed.

Lemma readOnly_assertOwnedMilestone milestoneId userId :
  readOnly (assertOwnedMilestone milestoneId userId).
Proof.
  unfold assertOwnedMilestone, getMilestoneById. reads_only.
Qed.

Lemma readOnly_assertOwnedTask taskId userId :
  readOnly (assertOwnedTask taskId userId).
Proof.
  unfold assertOwnedTask, getTaskById. reads_only.
Qed.

Lemma readOnly_validateIsoDate v : readOnly (validateIsoDate v).
Proof. unfold validateIsoDate. reads_only. Qed.

Lemma readOnly_validateEstimatedHours v : readOnly (validateEstimatedHours v).
Proof. unfold validateEstimatedHours. reads_only. Qed.

Lemma readOnly_ensureNoTaskConflict milestoneId userId date ex :
  readOnly (ensureNoTaskConflict milestoneId userId date ex).
Proof. unfold ensureNoTaskConflict, listTasksByMilestone. reads_only. Qed.

#[local] Hint Resolve readOnly_findUserById readOnly_sumActiveGoalHours
  readOnly_collectActiveGoalSummaries readOnly_assertOwnedMilestone
  readOnly_assertOwnedTask readOnly_validateIsoDate
  readOnly_validateEstimatedHours readOnly_ensureNoTaskConflict : frames.

Lemma atomic_readOnly {A} (c : M A) : readOnly c -> atomic c.
Proof. intros Hc env w f w' H. now apply Hc in H. Qed.

Lemma atomic_bind {A B} (c : M A) (k : A -> M B) :
  readOnly c -> (forall a, atomic (k a)) -> atomic (bind c k).
Proof.
  intros Hc Hk env w f w' H.
  apply bind_inv in H as [(f' & H & _) | (a & w1 & H1 & H2)].
  - now apply Hc in H.
  - apply Hc in H1. subst w1. now apply Hk in H2.
Qed.

Lemma atomic_updateUser id updates : atomic (updateUser id updates).
Proof.
  intros env w f w'. unfold updateUser, bind, ask, get, modify, ret, throwApi,
    throw.
  destruct (users w !! id); intros H; now inversion H.
Qed.

Lemma atomic_createGoal input : atomic (createGoal input).
Proof. intros env w f w' H. discriminate H. Qed.

Lemma atomic_createTask input : atomic (createTask input).
Proof. intros env w f w' H. discriminate H. Qed.

Lemma atomic_updateTask id updates : atomic (updateTask id updates).
Proof.
  intros env w f w'. unfold updateTask, getTaskById, bind, ask, get, modify,
    ret, throwApi, throw.
  destruct (find _ (tasks w)); intros H; now inversion H.
Qed.

(** Goes through the checks of a handler up to its write. *)
Ltac checks_first :=
  repeat first
    [ simple apply atomic_updateUser
    | simple apply atomic_createGoal
    | simple apply atomic_createTask
    | simple apply atomic_updateTask
    | apply atomic_bind; [solve [reads_only] | intros ?]
    | match goal with
      | |- atomic (match ?x with _ => _ end) => destruct x
      end
    | apply atomic_readOnly; solve [reads_only] ].

Lemma atomic_patch_me auth body : atomic (patch_me auth body).
Proof. unfold patch_me. checks_first. Qed.

Lemma atomic_post_goals auth body : atomic (post_goals auth body).
Proof. unfold post_goals. checks_first. Qed.

Lemma atomic_post_milestone_tasks auth milestoneId body :
  atomic (post_milestone_tasks auth milestoneId body).
Proof. unfold post_milestone_tasks. checks_first. Qed.

Lemma atomic_patch_task auth taskId body :
  atomic (patch_task auth taskId body).
Proof. unfold patch_task. checks_first. Qed.


(** ** What a request on a resource touches *)

(** Splits a conjunction and closes the parts at hand. *)
Ltac conjuncts :=
  repeat match goal with |- _ /\ _ => split end;
  try reflexivity; try assumption.

Lemma bind_readOnly_ok {A B} (c : M A) (k : A -> M B) env w b w' :
  readOnly c ->
  bind c k env w = (Ok b, w') ->
  exists a, c env w = (Ok a, w) /\ k a env w = (Ok b, w').
Proof.
  intros Hc H. apply bind_inv_ok in H as (a & w1 & H1 & H2).
  pose proof (Hc _ _ _ _ H1) as ->. eauto.
Qed.

Lemma assertOwnedMilestone_inv milestoneId userId env w m w1 :
  assertOwnedMilestone milestoneId userId env w = (Ok m, w1) ->
  ms_id m = milestoneId /\ ownedMilestone w userId m.
Proof.
  intros H. pose proof (assertOwnedMilestone_id _ _ _ _ _ _ H) as Hid.
  split; [exact Hid |].
  unfold assertOwnedMilestone in H.
  apply bind_inv_ok in H as (found & w2 & Hget & H).
  rewrite getMilestoneById_run in Hget. injection Hget as <- <-.
  apply bind_inv_ok in H as (m' & w3 & Hsome & H).
  apply assertSome_inv in Hsome as [Hf ->].
  apply bind_inv_ok in H as (g & w4 & Hg & H).
  inversion H; subst m' w4. clear H.
  unfold ownedMilestone. rewrite Hid. split; [exact Hf |].
  unfold assertOwnedGoal in Hg.
  apply bind_inv_ok in Hg as (found & w2 & Hget & Hg).
  unfold getGoalById, bind, get, ret in Hget. inversion Hget; subst found w2.
  apply bind_inv_ok in Hg as (g' & w3 & Hsome & Hg).
  apply assertSome_inv in Hsome as [Hfg ->].
  apply bind_inv_ok in Hg as (u & w4 & Hown & Hg).
  apply assert_inv in Hown as [Hown ->]. inversion Hg; subst g'.
  apply String.eqb_eq in Hown. subst w1. eexists. split; eassumption.
Qed.

(** What a task creation touches, whatever its outcome. *)
Lemma post_milestone_tasks_touches
    (auth : option string) (milestoneId : string) (body : PostTaskBody)
    (env : Env) (w : World) (out : Result TaskRecord) (w' : World) :
  post_milestone_tasks auth milestoneId body env w = (out, w') ->
  match out with
  | Throw _ => w' = w
  | Ok t =>
      exists userId m,
        auth = Some userId
        /\ ms_id m = milestoneId
        /\ ownedMilestone w userId m
        /\ tasks w' = tasks w ++ [t]
        /\ task_id t = env_newTaskId env
        /\ task_userId t = userId
        /\ task_milestoneId t = milestoneId
        /\ task_goalId t = ms_goalId m
        /\ users w' = users w /\ goals w' = goals w
        /\ milestones w' = milestones w
        /\ sameConversation w w'
  end.
Proof.
  intros H. destruct out as [t | f];
    [| exact (atomic_post_milestone_tasks _ _ _ _ _ _ _ H)].
  unfold post_milestone_tasks in H.
  apply bind_inv_ok in H as (userId & w1 & Hu & H).
  apply requireUser_inv in Hu as (-> & _ & ->).
  apply bind_readOnly_ok in H as (m & Hm & H); [| reads_only].
  apply assertOwnedMilestone_inv in Hm as [Hid Hown].
  do 5 (apply bind_readOnly_ok in H as (? & _ & H); [| reads_only]).
  unfold createTask, bind, ask, modify, ret in H. inversion H; subst t w'.
  exists userId, m. unfold sameConversation. cbn. conjuncts.
Qed.

(** X15. [POST /v1/milestones/:milestoneId/tasks]: a request that fails
     writes nothing.  One that succeeds comes from an authenticated
     caller who owns the goal of the stored milestone; it adds the
     returned task at the end of the tasks, under the generated id, for
     that caller, milestone and goal, and changes nothing else. *)
Theorem post_milestone_tasks_footprint
    (auth : option string) (milestoneId : string) (body : PostTaskBody)
    (env : Env) (w : World) (out : Result TaskRecord) (w' : World) :
  post_milestone_tasks auth milestoneId body env w = (out, w') ->
  match out with
  | Throw _ => w' = w
  | Ok t =>
      exists userId m,
        auth = Some userId
        /\ ms_id m = milestoneId
        /\ ownedMilestone w userId m
        /\ tasks w' = tasks w ++ [t]
        /\ task_id t = env_newTaskId env
        /\ task_userId t = userId
        /\ task_milestoneId t = milestoneId
        /\ task_goalId t = ms_goalId m
        /\ users w' = users w /\ goals w' = goals w
        /\ milestones w' = milestones w
        /\ sameConversation w w'
  end.
Proof.
  exact (post_milestone_tasks_touches auth milestoneId body env w out w').
Qed.

(** The first task of the sample milestone. *)
Lemma post_milestone_tasks_footprint_witness :
  exists t w',
    post_milestone_tasks (Some "u1") "m1" taskOnThe17th
      (sampleEnv FetchFailed) worldWithoutTasks = (Ok t, w')
    /\ tasks w' = [t]
    /\ task_userId t = "u1" /\ task_goalId t = "g1".
Proof.
  destruct (post_milestone_tasks (Some "u1") "m1" taskOnThe17th
              (sampleEnv FetchFailed) worldWithoutTasks)
    as [[t | f] w'] eqn:E; [| vm_compute in E; discriminate E].
  destruct (post_milestone_tasks_footprint _ _ _ _ _ _ _ E)
    as (userId & m & Ha & Hid & (Hm & _) & Htasks & _ & Hu & _ & Hg & _).
  exists t, w'. split; [reflexivity |]. split; [exact Htasks |].
  injection Ha as <-. split; [exact Hu |].
  rewrite Hid in Hm. vm_compute in Hm. injection Hm as <-. exact Hg.
Defined.

(** What a task update touches, whatever its outcome. *)
Lemma patch_task_touches
    (auth : option string) (taskId : string) (body : PatchTaskBody)
    (env : Env) (w : World) (out : Result TaskRecord) (w' : World) :
  patch_task auth taskId body env w = (out, w') ->
  match out with
  | Throw _ => w' = w
  | Ok t =>
      exists userId t0 m retouch,
        auth = Some userId
        /\ List.find (fun x => String.eqb (task_id x) taskId) (tasks w)
           = Some t0
        /\ ms_id m = task_milestoneId t0
        /\ ownedMilestone w userId m
        /\ t = retouch t0
        /\ (forall x, sameTaskIdentity x (retouch x))
        /\ tasks w'
           = List.map (fun x => if String.eqb (task_id x) taskId
                                then retouch x else x) (tasks w)
        /\ users w' = users w /\ goals w' = goals w
        /\ milestones w' = milestones w
        /\ sameConversation w w'
  end.
Proof.
  intros H. destruct out as [t | f];
    [| exact (atomic_patch_task _ _ _ _ _ _ _ H)].
  unfold patch_task in H.
  apply bind_inv_ok in H as (userId & w1 & Hu & H).
  apply requireUser_inv in Hu as (-> & _ & ->).
  apply bind_readOnly_ok in H as ([t0 m] & Hm & H); [| reads_only].
  pose proof (assertOwnedTask_found _ _ _ _ _ _ _ Hm) as Hfound.
  unfold assertOwnedTask in Hm.
  apply bind_inv_ok in Hm as (found & w2 & Hget & Hm).
  rewrite getTaskById_run in Hget. injection Hget as <- <-.
  apply bind_inv_ok in Hm as (t1 & w3 & Hsome & Hm).
  apply assertSome_inv in Hsome as [Hf ->].
  apply bind_inv_ok in Hm as (m1 & w4 & Hom & Hm).
  inversion Hm; subst t1 m1 w4. clear Hm.
  apply assertOwnedMilestone_inv in Hom as [Hid Hown].
  apply find_some in Hf as Hf'. destruct Hf' as [_ Htid].
  apply String.eqb_eq in Htid.
  do 5 (apply bind_readOnly_ok in H as ([? ?] & _ & H); [| reads_only]).
  apply bind_readOnly_ok in H as (? & _ & H); [| reads_only].
  rewrite (updateTask_run _ _ _ _ _ Hfound) in H. inversion H; subst t w'.
  eexists userId, t0, m, (applyTaskUpdate (env_now env) _).
  rewrite Htid. unfold sameConversation. cbn. conjuncts.
  intros y. unfold sameTaskIdentity. cbn. conjuncts.
Qed.

(** X16. [PATCH /v1/tasks/:taskId]: a request that fails writes nothing.
     One that succeeds comes from an authenticated caller who owns the
     goal of the milestone of the stored task; only tasks with that id
     are rewritten, they keep their id, goal, milestone, user and
     [createdAt], and nothing else changes. *)
Theorem patch_task_footprint
    (auth : option string) (taskId : string) (body : PatchTaskBody)
    (env : Env) (w : World) (out : Result TaskRecord) (w' : World) :
  patch_task auth taskId body env w = (out, w') ->
  match out with
  | Throw _ => w' = w
  | Ok t =>
      exists userId t0 m retouch,
        auth = Some userId
        /\ List.find (fun x => String.eqb (task_id x) taskId) (tasks w)
           = Some t0
        /\ ms_id m = task_milestoneId t0
        /\ ownedMilestone w userId m
        /\ t = retouch t0
        /\ (forall x, sameTaskIdentity x (retouch x))
        /\ tasks w'
           = List.map (fun x => if String.eqb (task_id x) taskId
                                then retouch x else x) (tasks w)
        /\ users w' = users w /\ goals w' = goals w
        /\ milestones w' = milestones w
        /\ sameConversation w w'
  end.
Proof.
  exact (patch_task_touches auth taskId body env w out w').
Qed.

(** The sample task, patched with its own date. *)
Lemma patch_task_footprint_witness :
  exists t w',
    patch_task (Some "u1") "t1" keepThe17th (sampleEnv FetchFailed)
      sampleWorld = (Ok t, w')
    /\ List.map task_id (tasks w') = ["t1"]
    /\ goals w' = goals sampleWorld.
Proof.
  destruct (patch_task (Some "u1") "t1" keepThe17th (sampleEnv FetchFailed)
              sampleWorld)
    as [[t | f] w'] eqn:E; [| vm_compute in E; discriminate E].
  destruct (patch_task_footprint _ _ _ _ _ _ _ E)
    as (userId & t0 & m & retouch & _ & _ & _ & _ & _ & Hsame & Htasks & _
        & Hg & _).
  exists t, w'. split; [reflexivity |]. split; [| exact Hg].
  rewrite Htasks. cbn. now destruct (Hsame sampleTask) as [-> _].
Defined.

(** X17. [PATCH /v1/me]: a request that fails writes nothing.  One that
     succeeds rewrites the user document of the caller and no other; the
     document keeps its email and [createdAt] and has [updatedAt] set
     to now; goals, milestones, tasks and the conversation are
     untouched. *)
Theorem patch_me_footprint
    (auth : option string) (body : PatchMeBody)
    (env : Env) (w : World) (out : Result UserRecord) (w' : World) :
  patch_me auth body env w = (out, w') ->
  match out with
  | Throw _ => w' = w
  | Ok u =>
      exists userId d d',
        auth = Some userId
        /\ users w !! userId = Some d
        /\ users w' = <[userId := d']> (users w)
        /\ u = mapUser userId d'
        /\ ud_email d' = ud_email d
        /\ ud_createdAt d' = ud_createdAt d
        /\ ud_updatedAt d' = env_now env
        /\ goals w' = goals w /\ milestones w' = milestones w
        /\ tasks w' = tasks w
        /\ sameConversation w w'
  end.
Proof.
  intros H. destruct out as [u | f];
    [| exact (atomic_patch_me _ _ _ _ _ _ H)].
  unfold patch_me in H.
  apply bind_inv_ok in H as (userId & w1 & Hu & H).
  apply requireUser_inv in Hu as (-> & _ & ->).
  do 2 (apply bind_readOnly_ok in H as (? & _ & H); [| reads_only]).
  do 4 (apply bind_readOnly_ok in H as ([? ?] & _ & H); [| reads_only]).
  apply bind_readOnly_ok in H as (? & _ & H); [| reads_only].
  unfold updateUser, bind, ask, get, modify, ret, throwApi, throw in H.
  destruct (users w !! userId) as [d |] eqn:Ed; [| discriminate H].
  inversion H; subst u w'.
  eexists userId, d, _. unfold sameConversation. cbn. conjuncts.
Qed.

(** The sample user changes name and keeps the email. *)
Lemma patch_me_footprint_witness :
  exists u w',
    patch_me (Some "u1") renameToAnnB (sampleEnv FetchFailed) sampleWorld
    = (Ok u, w')
    /\ user_email u = "ann@example.org"
    /\ tasks w' = tasks sampleWorld.
Proof.
  destruct (patch_me (Some "u1") renameToAnnB (sampleEnv FetchFailed)
              sampleWorld)
    as [[u | f] w'] eqn:E; [| vm_compute in E; discriminate E].
  destruct (patch_me_footprint _ _ _ _ _ _ E)
    as (userId & d & d' & Ha & Hd & _ & Hu & Hemail & _ & _ & _ & _ & Ht & _).
  exists u, w'. split; [reflexivity |]. split; [| exact Ht].
  injection Ha as <-. vm_compute in Hd. injection Hd as <-.
  rewrite Hu. cbn. exact Hemail.
Defined.

(** X18. [POST /v1/goals]: a request that fails writes nothing.  One that
     succeeds comes from a stored user, adds the returned goal at the
     end of the goals, under the generated id and for that user, and
     changes nothing else. *)
Theorem post_goals_footprint
    (auth : option string) (body : PostGoalBody)
    (env : Env) (w : World) (out : Result GoalRecord) (w' : World) :
  post_goals auth body env w = (out, w') ->
  match out with
  | Throw _ => w' = w
  | Ok g =>
      exists userId,
        auth = Some userId
        /\ is_Some (users w !! userId)
        /\ goals w' = goals w ++ [g]
        /\ goal_id g = env_newGoalId env
        /\ goal_userId g = userId
        /\ users w' = users w /\ milestones w' = milestones w
        /\ tasks w' = tasks w
        /\ sameConversation w w'
  end.
Proof.
  intros H. destruct out as [g | f];
    [| exact (atomic_post_goals _ _ _ _ _ _ H)].
  unfold post_goals in H.
  apply bind_inv_ok in H as (userId & w1 & Hu & H).
  apply requireUser_inv in Hu as (-> & _ & ->).
  apply bind_readOnly_ok in H as (found & Hfound & H); [| reads_only].
  apply bind_readOnly_ok in H as (user & Huser & H); [| reads_only].
  apply assertSome_inv in Huser as [-> _].
  unfold findUserById, bind, get, ret in Hfound. inversion Hfound as [Hfu].
  unfold userOf in Hfu.
  apply fmap_Some in Hfu as (d & Hd & _).
  do 5 (apply bind_readOnly_ok in H as (? & _ & H); [| reads_only]).
  match type of H with (if ?c then _ else _) _ _ = _ => destruct c end.
  { apply bind_readOnly_ok in H as (? & _ & H); [| reads_only].
    discriminate H. }
  unfold createGoal, bind, ask, modify, ret in H. inversion H; subst g w'.
  exists userId. unfold sameConversation. cbn. conjuncts. eauto.
Qed.

(** The first goal of a new user. *)
Lemma post_goals_footprint_witness :
  exists g w',
    post_goals (Some "u1") goalOf15Hours (sampleEnv FetchFailed)
      worldOfNewUser = (Ok g, w')
    /\ goals w' = [g]
    /\ goal_userId g = "u1".
Proof.
  destruct (post_goals (Some "u1") goalOf15Hours (sampleEnv FetchFailed)
              worldOfNewUser)
    as [[g | f] w'] eqn:E; [| vm_compute in E; discriminate E].
  destruct (post_goals_footprint _ _ _ _ _ _ E)
    as (userId & Ha & _ & Hgoals & _ & Hu & _).
  exists g, w'. split; [reflexivity |]. split; [exact Hgoals |].
  injection Ha as <-. exact Hu.
Defined.


(** ** Hours of the tasks *)

Lemma numberOr0_eq x : (numberOr0 x == x)%Q.
Proof.
  unfold numberOr0. destruct (Qeq_bool x 0) eqn:E; [| reflexivity].
  apply Qeq_bool_iff in E. now rewrite E.
Qed.

Lemma summarizeTaskHours_fold (ts : list TaskRecord) (acc : TaskHours) :
  let r := fold_left
             (fun accumulator task =>
                let hours := numberOr0 (task_estimatedHours task) in
                {| totalTaskHours := Qplus (totalTaskHours accumulator) hours;
                   doneTaskHours :=
                     if task_done task
                     then Qplus (doneTaskHours accumulator) hours
                     else doneTaskHours accumulator |})
             ts acc in
  (forall t, In t ts -> (0 <= task_estimatedHours t)%Q) ->
  (0 <= doneTaskHours acc)%Q ->
  (doneTaskHours acc <= totalTaskHours acc)%Q ->
  (0 <= doneTaskHours r)%Q /\ (doneTaskHours r <= totalTaskHours r)%Q.
Proof.
  revert acc. induction ts as [| t ts IH]; intros acc r Hpos H0 Hle.
  - split; assumption.
  - subst r. cbn [fold_left]. apply IH.
    + intros x Hx. apply Hpos. now right.
    + cbn. pose proof (Hpos t (or_introl eq_refl)) as Ht.
      pose proof (numberOr0_eq (task_estimatedHours t)) as Hn.
      destruct (task_done t); lra.
    + cbn. pose proof (Hpos t (or_introl eq_refl)) as Ht.
      pose proof (numberOr0_eq (task_estimatedHours t)) as Hn.
      destruct (task_done t); lra.
Qed.

Lemma summarizeTaskHours_all_done (ts : list TaskRecord) (acc : TaskHours) :
  forallb task_done ts = true ->
  doneTaskHours acc = totalTaskHours acc ->
  let r := fold_left
             (fun accumulator task =>
                let hours := numberOr0 (task_estimatedHours task) in
                {| totalTaskHours := Qplus (totalTaskHours accumulator) hours;
                   doneTaskHours :=
                     if task_done task
                     then Qplus (doneTaskHours accumulator) hours
                     else doneTaskHours accumulator |})
             ts acc in
  doneTaskHours r = totalTaskHours r.
Proof.
  revert acc. induction ts as [| t ts IH]; intros acc Hall Hacc; [exact Hacc |].
  cbn [forallb] in Hall. apply andb_prop in Hall as [Ht Hall].
  cbn [fold_left]. apply IH; [exact Hall |]. cbn. now rewrite Ht, Hacc.
Qed.

Lemma summarizeTaskHours_none_done (ts : list TaskRecord) (acc : TaskHours) :
  forallb (fun t => negb (task_done t)) ts = true ->
  let r := fold_left
             (fun accumulator task =>
                let hours := numberOr0 (task_estimatedHours task) in
                {| totalTaskHours := Qplus (totalTaskHours accumulator) hours;
                   doneTaskHours :=
                     if task_done task
                     then Qplus (doneTaskHours accumulator) hours
                     else doneTaskHours accumulator |})
             ts acc in
  doneTaskHours r = doneTaskHours acc.
Proof.
  revert acc. induction ts as [| t ts IH]; intros acc Hall; [reflexivity |].
  cbn [forallb] in Hall. apply andb_prop in Hall as [Ht Hall].
  cbn [fold_left]. cbv zeta. rewrite (IH _ Hall). cbn.
  apply negb_true_iff in Ht. now rewrite Ht.
Qed.

(** X19. For tasks whose estimated hours are not negative,
     [summarizeTaskHours] gives done hours between 0 and the total
     hours; they are the total when every task is done, and 0 when none
     is. *)
Theorem summarizeTaskHours_bounds (ts : list TaskRecord) :
  (forall t, In t ts -> (0 <= task_estimatedHours t)%Q) ->
  (0 <= doneTaskHours (summarizeTaskHours ts))%Q
  /\ (doneTaskHours (summarizeTaskHours ts)
      <= totalTaskHours (summarizeTaskHours ts))%Q
  /\ (forallb task_done ts = true ->
      doneTaskHours (summarizeTaskHours ts)
      = totalTaskHours (summarizeTaskHours ts))
  /\ (forallb (fun t => negb (task_done t)) ts = true ->
      doneTaskHours (summarizeTaskHours ts) = 0%Q).
Proof.
  intros Hpos. unfold summarizeTaskHours.
  destruct (summarizeTaskHours_fold ts
              {| totalTaskHours := 0; doneTaskHours := 0 |} Hpos)
    as [H0 Hle]; [cbn; lra | cbn; lra |].
  split; [exact H0 |]. split; [exact Hle |]. split.
  - intros Hall. now apply summarizeTaskHours_all_done.
  - intros Hnone. now rewrite summarizeTaskHours_none_done.
Qed.

(** The sample task alone. *)
Lemma summarizeTaskHours_bounds_witness :
  (0 <= doneTaskHours (summarizeTaskHours [sampleTask]))%Q
  /\ (doneTaskHours (summarizeTaskHours [sampleTask])
      <= totalTaskHours (summarizeTaskHours [sampleTask]))%Q.
Proof.
  destruct (summarizeTaskHours_bounds [sampleTask]) as (H0 & Hle & _).
  - intros t [<- | []]. vm_compute. discriminate.
  - split; assumption.
Defined.


(** ** The session token *)

Lemma substring_all (s : string) : substring 0 (String.length s) s = s.
Proof. induction s as [| b s IH]; cbn; [reflexivity | now rewrite IH]. Qed.

Lemma prefix_slice (p s : string) :
  String.prefix p s = true ->
  s = (p ++ slice_from (String.length p) s)%string.
Proof.
  unfold slice_from. revert s. induction p as [| a p IH]; intros s H.
  - cbn. now rewrite Nat.sub_0_r, substring_all.
  - destruct s as [| b s]; [discriminate H |].
    cbn in H. destruct (Ascii.ascii_dec a b) as [<- | Hab];
      [| discriminate H].
    cbn [String.length Nat.sub substring]. 
    change (String a s = String a (p ++ substring (String.length p)
                            (String.length s - String.length p) s)%string).
    f_equal. now apply IH.
Qed.

Lemma prefix_append (p s : string) : String.prefix p (p ++ s) = true.
Proof.
  induction p as [| a p IH]; [now destruct s |].
  change (String.prefix (String a p) (String a (p ++ s)) = true). cbn.
  destruct (Ascii.ascii_dec a a) as [_ | Hn]; [exact IH | now contradiction Hn].
Qed.

Lemma slice_append (p s : string) :
  slice_from (String.length p) (p ++ s) = s.
Proof.
  unfold slice_from. induction p as [| a p IH].
  - change ("" ++ s)%string with s. cbn.
    now rewrite Nat.sub_0_r, substring_all.
  - change (String a p ++ s)%string with (String a (p ++ s)%string).
    cbn. exact IH.
Qed.

(** X20. [authMiddleware] hands the request on exactly when the header is
     [Bearer ] followed by a non-empty token, the JWT secret is
     configured, and the token verifies to an object that has a [userId]
     and an [email]; the request then carries those two values.
     Otherwise it answers [Unauthorized] with the status as the code:
     401, or 500, which it gives only to a non-empty bearer token when
     the secret is not configured. *)
Theorem authMiddleware_outcome (a : AuthEnv) (authorization : option string) :
  (forall userId email,
     authMiddleware a authorization = CallNext userId email <->
     exists token secret fields,
       authorization = Some ("Bearer " ++ token)%string
       /\ token <> ""
       /\ auth_jwtSecret a = Some secret /\ secret <> ""
       /\ auth_jwtVerify a token secret = JwtDecoded (JObj fields)
       /\ has_key fields "userId" = true /\ has_key fields "email" = true
       /\ userId = assoc_get fields "userId"
       /\ email = assoc_get fields "email")
  /\ (forall st code text,
        authMiddleware a authorization = Respond st code text ->
        text = "Unauthorized" /\ code = st /\ (st = 401 \/ st = 500)
        /\ (st = 500 ->
            (auth_jwtSecret a = None \/ auth_jwtSecret a = Some "")
            /\ exists token,
                 authorization = Some ("Bearer " ++ token)%string
                 /\ token <> "")).
Proof.
  split.
  - intros userId email. split.
    + unfold authMiddleware, bearerToken.
      destruct authorization as [header |]; [| discriminate].
      destruct (String.prefix "Bearer " header) eqn:Ep; [| discriminate].
      apply prefix_slice in Ep.
      set (token := slice_from (String.length "Bearer ") header) in *.
      destruct (String.eqb token "") eqn:Et; [discriminate |].
      unfold verifyJwt, getJwtSecret.
      destruct (auth_jwtSecret a) as [secret |]; [| discriminate].
      destruct (String.eqb secret "") eqn:Es; [discriminate |].
      destruct (auth_jwtVerify a token secret) as [| payload] eqn:Ev;
        [discriminate |].
      destruct payload as [| | b | q | x | l | fields]; try discriminate.
      destruct (has_key fields "userId") eqn:Hu; [| discriminate].
      destruct (has_key fields "email") eqn:He; [| discriminate].
      cbn. intros H. inversion H. subst userId email.
      exists token, secret, fields.
      apply String.eqb_neq in Et. apply String.eqb_neq in Es.
      repeat split; auto. now rewrite Ep at 1.
    + intros (token & secret & fields & -> & Ht & Hs & Hs' & Hv & Hu & He
              & -> & ->).
      unfold authMiddleware, bearerToken.
      rewrite prefix_append, slice_append.
      apply String.eqb_neq in Ht. apply String.eqb_neq in Hs'.
      rewrite Ht. unfold verifyJwt, getJwtSecret.
      rewrite Hs, Hs', Hv, Hu, He. reflexivity.
  - intros st code text.
    assert (Hno : forall e,
              status e = 401 ->
              Respond (status e) (status e) "Unauthorized"
              = Respond st code text ->
              text = "Unauthorized" /\ code = st /\ (st = 401 \/ st = 500)
              /\ (st = 500 ->
                  (auth_jwtSecret a = None \/ auth_jwtSecret a = Some "")
                  /\ exists token,
                       authorization = Some ("Bearer " ++ token)%string
                       /\ token <> "")).
    { intros e He H. inversion H. subst st code text.
      split; [reflexivity |]. split; [reflexivity |]. split; [now left |].
      rewrite He. discriminate. }
    unfold authMiddleware, bearerToken.
    destruct authorization as [header |]; [| now apply Hno].
    destruct (String.prefix "Bearer " header) eqn:Ep; [| now apply Hno].
    apply prefix_slice in Ep.
    set (token := slice_from (String.length "Bearer ") header) in *.
    destruct (String.eqb token "") eqn:Et; [now apply Hno |].
    apply String.eqb_neq in Et.
    unfold verifyJwt, getJwtSecret.
    assert (H500 : auth_jwtSecret a = None \/ auth_jwtSecret a = Some "" ->
              Respond 500 500 "Unauthorized" = Respond st code text ->
              text = "Unauthorized" /\ code = st /\ (st = 401 \/ st = 500)
              /\ (st = 500 ->
                  (auth_jwtSecret a = None \/ auth_jwtSecret a = Some "")
                  /\ exists token,
                       Some header = Some ("Bearer " ++ token)%string
                       /\ token <> "")).
    { intros Hs H. inversion H. subst st code text.
      split; [reflexivity |]. split; [reflexivity |]. split; [now right |].
      intros _. split; [exact Hs |]. exists token.
      split; [now rewrite Ep at 1 | exact Et]. }
    destruct (auth_jwtSecret a) as [secret |]; [| apply H500; now left].
    destruct (String.eqb secret "") eqn:Es.
    { apply String.eqb_eq in Es. subst secret. apply H500. now right. }
    clear H500.
    destruct (auth_jwtVerify a token secret) as [| payload];
      [now apply (Hno INVALID_OR_EXPIRED_TOKEN) |].
    destruct payload as [| | b | q | x | l | fields];
      try (now apply (Hno INVALID_TOKEN));
      try (now apply (Hno INVALID_OR_EXPIRED_TOKEN)).
    destruct (has_key fields "userId" && has_key fields "email");
      [discriminate | now apply (Hno INVALID_TOKEN)].
Qed.

(** A bearer token that verifies is handed on with its claims. *)
Lemma authMiddleware_outcome_witness :
  authMiddleware sampleAuthEnv (Some "Bearer u1")
  = CallNext (JStr "u1") (JStr "ann@example.org").
Proof.
  apply (proj1 (authMiddleware_outcome sampleAuthEnv (Some "Bearer u1"))).
  exists "u1", "secret",
    [("userId", JStr "u1"); ("email", JStr "ann@example.org")].
  repeat split; try discriminate; reflexivity.
Defined.


(** ** Signing in *)

Lemma find_email_some (m : gmap string UserDoc) (email : string) k d :
  List.find (fun entry => String.eqb (ud_email (snd entry)) email)
    (map_to_list m) = Some (k, d) ->
  m !! k = Some d /\ ud_email d = email.
Proof.
  intros H. apply find_some in H as [Hin Heq].
  apply list_elem_of_In, elem_of_map_to_list in Hin.
  apply String.eqb_eq in Heq. auto.
Qed.

Lemma find_email_none (m : gmap string UserDoc) (email : string) :
  List.find (fun entry => String.eqb (ud_email (snd entry)) email)
    (map_to_list m) = None ->
  forall k d, m !! k = Some d -> ud_email d <> email.
Proof.
  intros H k d Hd Heq.
  assert (Hin : In (k, d) (map_to_list m))
    by now apply list_elem_of_In, elem_of_map_to_list.
  pose proof (find_none _ _ H (k, d) Hin) as Hn. cbn in Hn.
  now apply String.eqb_neq in Hn.
Qed.

Lemma find_email_found (m : gmap string UserDoc) (email : string) k d :
  m !! k = Some d -> ud_email d = email ->
  exists k' d',
    List.find (fun entry => String.eqb (ud_email (snd entry)) email)
      (map_to_list m) = Some (k', d').
Proof.
  intros Hd Heq.
  destruct (List.find _ (map_to_list m)) as [[k' d'] |] eqn:Hf; [eauto |].
  now destruct (find_email_none _ _ Hf k d Hd).
Qed.

Lemma readOnly_liftResult {A} (r : Result A) : readOnly (liftResult r).
Proof. intros env w out w' H. now inversion H. Qed.

Lemma readOnly_findUserByEmail email : readOnly (findUserByEmail email).
Proof. unfold findUserByEmail. reads_only. Qed.

#[local] Hint Resolve readOnly_liftResult readOnly_findUserByEmail : frames.

Lemma bind_readOnly_inv {A B} (c : M A) (k : A -> M B) env w out w' :
  readOnly c ->
  bind c k env w = (out, w') ->
  w' = w \/ exists a, c env w = (Ok a, w) /\ k a env w = (out, w').
Proof.
  intros Hc H. apply bind_inv in H as [(f & H & _) | (a & w1 & H1 & H2)].
  - left. now apply Hc in H.
  - pose proof (Hc _ _ _ _ H1) as ->. eauto.
Qed.

Lemma bind_then_readOnly {A B} (c : M A) (k : A -> M B) env w out w' :
  (forall a, readOnly (k a)) ->
  bind c k env w = (out, w') ->
  exists out1, c env w = (out1, w').
Proof.
  intros Hk H. apply bind_inv in H as [(f & H & _) | (a & w1 & H1 & H2)].
  - eauto.
  - apply Hk in H2. subst. eauto.
Qed.

(** Signing in writes one user document or none: a new one, with 20
    hours a week, for an email that no document carries, or the one that
    carries the email, which keeps it and its hours a week. *)
Lemma post_auth_google_write e idToken env w out w' :
  post_auth_google e idToken env w = (out, w') ->
  w' = w
  \/ exists k d',
       w' = set_users (fun m => <[k := d']> m) w
       /\ ((exists d,
              users w !! k = Some d
              /\ ud_email d' = ud_email d
              /\ ud_availableHoursPerWeek d' = ud_availableHoursPerWeek d)
           \/ (k = si_newUserId e
               /\ ud_availableHoursPerWeek d' = Some 20%Q
               /\ forall k2 d2, users w !! k2 = Some d2 ->
                                ud_email d2 <> ud_email d')).
Proof.
  unfold post_auth_google. intros H.
  apply bind_readOnly_inv in H as [H | (token & _ & H)];
    [now left | | reads_only].
  apply bind_readOnly_inv in H as [H | (profile & _ & H)];
    [now left | | reads_only].
  apply bind_readOnly_inv in H as [H | (u & _ & H)];
    [now left | | reads_only].
  apply bind_readOnly_inv in H as [H | (found & Hfound & H)];
    [now left | | reads_only].
  apply bind_then_readOnly in H as [out1 H]; cycle 1.
  { intros [user st]. reads_only. }
  unfold findUserByEmail, bind, get, ret in Hfound.
  inversion Hfound as [Hf]. clear Hfound. subst found.
  destruct (List.find _ (map_to_list (users w))) as [[k d] |] eqn:Efind;
    cbn [fmap option_fmap option_map fst snd mapUser user_id] in H.
  - apply find_email_some in Efind as [Hd Hemail].
    apply bind_inv in H as [(f & H & _) | (u1 & w1 & H1 & H2)].
    + left. now apply atomic_updateUser in H.
    + unfold updateUser, bind, ask, get, modify, ret in H1. rewrite Hd in H1.
      inversion H1; subst u1 w1. clear H1.
      assert (w' = set_users
                     (fun m => <[k := applyUserUpdate (env_now env)
                                        (signInUpdates profile) d]> m) w)
        as ->.
      { apply bind_readOnly_inv in H2 as [H2 | (again & _ & H2)];
          [exact H2 | | reads_only].
        destruct again; now inversion H2. }
      right. eexists k, _. split; [reflexivity |]. left.
      exists d. split; [exact Hd |]. split; reflexivity.
  - apply bind_inv in H as [(f & H & _) | (u1 & w1 & H1 & H2)];
      [discriminate H |].
    unfold createUser, bind, ask, modify, ret in H1.
    inversion H1; subst u1 w1. clear H1. inversion H2; subst out1 w'.
    right. eexists (si_newUserId e), _. split; [reflexivity |].
    right. split; [reflexivity |]. split; [reflexivity |].
    intros k2 d2 Hd2. cbn.
    exact (find_email_none _ _ Efind _ _ Hd2).
Qed.


(** X21. Signing in with Google, whatever its outcome, keeps the emails of
     the stored users pairwise distinct when they were and the id of
     the next document is fresh; it removes no user, changes no email,
     and touches nothing but the users. *)
Theorem sign_in_keeps_emails_unique
    (e : SignInEnv) (idToken : jsval) (env : Env) (w : World)
    (out : Result (Z * string * UserRecord)) (w' : World) :
  post_auth_google e idToken env w = (out, w') ->
  users w !! si_newUserId e = None ->
  uniqueEmails w ->
  uniqueEmails w'
  /\ (forall k d, users w !! k = Some d ->
        exists d', users w' !! k = Some d' /\ ud_email d' = ud_email d)
  /\ goals w' = goals w /\ milestones w' = milestones w
  /\ tasks w' = tasks w
  /\ sameConversation w w'.
Proof.
  intros H Hfresh Huniq.
  apply post_auth_google_write in H as [-> | (k & d' & -> & Hk)].
  { split; [exact Huniq |]. split; [eauto |]. unfold sameConversation.
    conjuncts. }
  unfold sameConversation. cbn. split; [| split]; [| | conjuncts].
  - intros k1 k2 d1 d2. unfold uniqueEmails in Huniq. cbn.
    destruct (decide (k1 = k)) as [-> | H1], (decide (k2 = k)) as [-> | H2];
      rewrite ?lookup_insert_eq, ?lookup_insert_ne by congruence;
      try reflexivity.
    + intros [= <-] Hd2 Heq.
      destruct Hk as [(d & Hd & Hemail & _) | (_ & _ & Hnone)].
      * apply (Huniq _ _ _ _ Hd Hd2). congruence.
      * now destruct (Hnone _ _ Hd2).
    + intros Hd1 [= <-] Heq.
      destruct Hk as [(d & Hd & Hemail & _) | (_ & _ & Hnone)].
      * apply (Huniq _ _ _ _ Hd1 Hd). congruence.
      * now destruct (Hnone _ _ Hd1).
    + apply Huniq.
  - intros k0 d Hd.
    destruct (decide (k0 = k)) as [-> | Hne].
    + rewrite lookup_insert_eq. exists d'. split; [reflexivity |].
      destruct Hk as [(d0 & Hd0 & Hemail & _) | (-> & _)]; congruence.
    + rewrite lookup_insert_ne by congruence. eauto.
Qed.

(** Bob signs in to a store that holds Ann. *)
Lemma sign_in_keeps_emails_unique_witness :
  uniqueEmails
    (snd (post_auth_google sampleSignInEnv (JStr "id-token")
            (sampleEnv FetchFailed) worldOfNewUser)).
Proof.
  apply (sign_in_keeps_emails_unique sampleSignInEnv (JStr "id-token")
           (sampleEnv FetchFailed) worldOfNewUser
           (fst (post_auth_google sampleSignInEnv (JStr "id-token")
                   (sampleEnv FetchFailed) worldOfNewUser))).
  - apply surjective_pairing.
  - reflexivity.
  - intros k1 k2 d1 d2 H1 H2 _.
    change (users worldOfNewUser)
      with ({["u1" := sampleUserDoc]} : gmap string UserDoc) in H1, H2.
    apply lookup_singleton_Some in H1 as [<- _].
    now apply lookup_singleton_Some in H2 as [<- _].
Defined.

(** X22. A verified Google account whose email no stored user carries
     signs in with 201 and a new user under the generated id: with the
     email and the subject of the account, time zone UTC and 20 hours a
     week, found again by [findUserById].  The next sign-in of an account
     with that email, at any time, answers 200 with that same user and
     adds no user. *)
Theorem sign_in_creates_once
    (e : SignInEnv) (idToken : jsval) (profile : GoogleProfile)
    (env : Env) (w : World) :
  signsInAs e idToken profile ->
  is_Some (auth_jwtSecret (si_auth e)) ->
  auth_jwtSecret (si_auth e) <> Some "" ->
  (forall k d, users w !! k = Some d -> ud_email d <> profile_email profile) ->
  exists token user w1,
    post_auth_google e idToken env w = (Ok (201, token, user), w1)
    /\ user_id user = si_newUserId e
    /\ user_email user = profile_email profile
    /\ user_googleSub user = profile_sub profile
    /\ user_timezone user = "UTC"
    /\ user_availableHoursPerWeek user = 20%Q
    /\ userOf w1 (si_newUserId e) = Some user
    /\ forall e2 idToken2 profile2 env2,
         signsInAs e2 idToken2 profile2 ->
         profile_email profile2 = profile_email profile ->
         is_Some (auth_jwtSecret (si_auth e2)) ->
         auth_jwtSecret (si_auth e2) <> Some "" ->
         exists token2 user2 w2,
           post_auth_google e2 idToken2 env2 w1
           = (Ok (200, token2, user2), w2)
           /\ user_id user2 = user_id user
           /\ user_email user2 = user_email user
           /\ dom (users w2) = dom (users w1).
Proof.
  intros (tok & Htok & Hverify & Hverified) [secret Hsecret] Hsecret' Hnew.
  assert (Hfind : List.find
                    (fun entry => String.eqb (ud_email (snd entry))
                                    (profile_email profile))
                    (map_to_list (users w)) = None).
  { destruct (List.find _ (map_to_list (users w))) as [[k d] |] eqn:Hf;
      [| reflexivity].
    apply find_email_some in Hf as [Hd Hemail].
    now destruct (Hnew _ _ Hd). }
  assert (Hjwt : forall e0 s0 u m,
            auth_jwtSecret (si_auth e0) = Some s0 ->
            auth_jwtSecret (si_auth e0) <> Some "" ->
            signJwt e0 u m = Ok (si_jwtSign e0 u m s0)).
  { intros e0 s0 u m Hs Hs'. unfold signJwt, getJwtSecret. rewrite Hs.
    destruct (String.eqb s0 "") eqn:Es; [| reflexivity].
    apply String.eqb_eq in Es. congruence. }
  eexists _, _, _. split.
  { unfold post_auth_google. rewrite Htok.
    erewrite bind_ok by reflexivity.
    erewrite bind_ok by (unfold liftResult; rewrite Hverify; reflexivity).
    rewrite Hverified. erewrite bind_ok by reflexivity.
    erewrite bind_ok
      by (unfold findUserByEmail, bind, get, ret; rewrite Hfind; reflexivity).
    cbn [fmap option_fmap option_map].
    erewrite bind_ok by reflexivity.
    cbv beta iota.
    erewrite bind_ok
      by (unfold liftResult; erewrite Hjwt by eassumption; reflexivity).
    reflexivity. }
  cbn [user_id user_email user_googleSub user_timezone
       user_availableHoursPerWeek default].
  do 5 (split; [reflexivity |]).
  split.
  { unfold userOf. cbn. rewrite lookup_insert_eq. reflexivity. }
  intros e2 idToken2 profile2 env2 (tok2 & Htok2 & Hverify2 & Hverified2)
    Hemail [secret2 Hsecret2] Hsecret2'.
  match goal with
  | |- context [post_auth_google _ _ _ ?w0] => set (w1 := w0)
  end.
  match type of w1 with _ =>
    assert (Husers : exists doc,
              users w1 = <[si_newUserId e := doc]> (users w)
              /\ ud_email doc = profile_email profile)
      by (eexists; split; reflexivity)
  end.
  destruct Husers as (doc & Husers & Hdoc).
  assert (Hfind2 : List.find
                     (fun entry => String.eqb (ud_email (snd entry))
                                     (profile_email profile2))
                     (map_to_list (users w1))
                   = Some (si_newUserId e, doc)).
  { destruct (find_email_found (users w1) (profile_email profile2)
                (si_newUserId e) doc) as (k' & d' & Hf).
    - rewrite Husers. apply lookup_insert_eq.
    - congruence.
    - rewrite Hf. apply find_email_some in Hf as [Hd Hem].
      rewrite Husers in Hd.
      destruct (decide (k' = si_newUserId e)) as [-> | Hne].
      + rewrite lookup_insert_eq in Hd. congruence.
      + rewrite lookup_insert_ne in Hd by congruence.
        destruct (Hnew _ _ Hd). congruence. }
  eexists _, _, _. split.
  { unfold post_auth_google. rewrite Htok2.
    erewrite bind_ok by reflexivity.
    erewrite bind_ok by (unfold liftResult; rewrite Hverify2; reflexivity).
    rewrite Hverified2. erewrite bind_ok by reflexivity.
    erewrite bind_ok
      by (unfold findUserByEmail, bind, get, ret; rewrite Hfind2;
          reflexivity).
    cbn [fmap option_fmap option_map fst snd mapUser user_id].
    erewrite bind_ok; cycle 1.
    { erewrite bind_ok; cycle 1.
      { unfold updateUser, bind, ask, get, modify, ret.
        rewrite Husers, lookup_insert_eq. reflexivity. }
      erewrite bind_ok; cycle 1.
      { unfold findUserById, userOf, bind, get, ret. cbn [users set_users].
        rewrite lookup_insert_eq. reflexivity. }
      reflexivity. }
    cbv beta iota.
    erewrite bind_ok
      by (unfold liftResult; erewrite Hjwt by eassumption; reflexivity).
    reflexivity. }
  cbn [user_id user_email mapUser applyUserUpdate ud_email users set_users].
  split; [reflexivity |]. split; [exact Hdoc |].
  rewrite Husers, insert_insert_eq, !dom_insert_L. reflexivity.
Qed.

(** Bob signs in twice: created under [u2] with the trimmed name the
    first time, found again the second. *)
Lemma sign_in_creates_once_witness :
  exists token user w1,
    post_auth_google sampleSignInEnv (JStr "id-token")
      (sampleEnv FetchFailed) worldOfNewUser = (Ok (201, token, user), w1)
    /\ user_id user = "u2"
    /\ user_name user = "Bob"
    /\ exists token2 user2 w2,
         post_auth_google sampleSignInEnv (JStr "id-token")
           (sampleEnv FetchFailed) w1 = (Ok (200, token2, user2), w2)
         /\ user_id user2 = "u2".
Proof.
  destruct (sign_in_creates_once sampleSignInEnv (JStr "id-token")
              bobsProfile (sampleEnv FetchFailed) worldOfNewUser)
    as (token & user & w1 & Hrun & Hid & _ & _ & _ & _ & _ & Hagain).
  - exists "id-token". repeat split; reflexivity.
  - eexists; reflexivity.
  - discriminate.
  - intros k d Hd.
    change (users worldOfNewUser)
      with ({["u1" := sampleUserDoc]} : gmap string UserDoc) in Hd.
    apply lookup_singleton_Some in Hd as [_ <-]. discriminate.
  - exists token, user, w1. split; [exact Hrun |]. split; [exact Hid |].
    split.
    { vm_compute in Hrun. now inversion Hrun. }
    destruct (Hagain sampleSignInEnv (JStr "id-token") bobsProfile
                (sampleEnv FetchFailed))
      as (token2 & user2 & w2 & Hrun2 & Hid2 & _).
    + exists "id-token". repeat split; reflexivity.
    + reflexivity.
    + eexists; reflexivity.
    + discriminate.
    + exists token2, user2, w2. split; [exact Hrun2 |]. now rewrite Hid2.
Defined.

(** ** Updating a goal *)










(** The sample goal cannot go to 25 hours a week against the 20 of its
    owner: the error names the hours required and lists the goal at the
    hours asked for. *)
Example patch_goal_over_budget :
  patch_goal (Some "u1") "g1" raiseTo25Hours (sampleEnv FetchFailed)
    sampleWorld
  = (Throw (Api {| status := 409;
                   message :=
                     [Txt "Available hours ("; Num 20%Q;
                      Txt "h/week) are insufficient for current active goals (";
                      Num 25%Q; Txt "h/week required)."];
                   details :=
                     BudgetDetails 20%Q 25%Q
                       [{| gs_goalId := "g1"; gs_title := "Portfolio";
                           gs_weeklyHours := 25%Q |}] |}),
     sampleWorld).
Proof. vm_compute. reflexivity. Qed.

